(** * Federation synchronisation of cannect: the Jetstream polling function

    A shallow embedding of the edge function that polls the remote event
    stream (serve, parseSSEEvents, isRelevantToCannect, processEvent, the
    four per-collection handlers, createExternalNotification and
    getBlueskyProfile), together with the tables it reads and writes.

    The function is TypeScript over values of type [any]: events are what
    JSON.parse returned.  They are modelled as such (module [JS]), with the
    few pieces of JavaScript semantics the function relies on: property
    reads, optional chaining, truthiness, strict equality with a string
    literal, template literals and the String/Array methods it calls.
    A failing property read or method call throws, as it does in JavaScript;
    effects are threaded through a state monad whose state survives a
    throw (module [Eff]). *)

From Stdlib Require Import ZArith List String Ascii Bool Lia DecimalString.
From Stdlib Require Import Permutation.
Import ListNotations.

Local Open Scope string_scope.
Local Open Scope Z_scope.

(* ===================================================================== *)
(** ** JavaScript values *)
(* ===================================================================== *)

Module JS.

Set Warnings "-register-all".

(** What JSON.parse can return, plus [undefined].  Numbers are integers:
    every number the function computes with (time_us, counters) is one. *)
Inductive value : Type :=
| Undefined
| Null
| Bool (b : bool)
| Num (n : Z)
| Str (s : string)
| Arr (items : list value)
| Obj (fields : list (string * value)).

Inductive exn : Type :=
| TypeError (msg : string)
| SyntaxError (msg : string)
| AbortError
| Error (msg : string).

Inductive result (A : Type) : Type :=
| Ok (a : A)
| Throw (e : exn).
Arguments Ok {A} a.
Arguments Throw {A} e.

Definition nullish (v : value) : bool :=
  match v with Undefined | Null => true | _ => false end.

(** ToBoolean. *)
Definition truthy (v : value) : bool :=
  match v with
  | Undefined | Null => false
  | Bool b => b
  | Num n => negb (n =? 0)
  | Str s => negb (s =? "")%string
  | Arr _ | Obj _ => true
  end.

Fixpoint lookup (k : string) (fields : list (string * value)) : value :=
  match fields with
  | [] => Undefined
  | (k', v) :: rest => if (k' =? k)%string then v else lookup k rest
  end.

(** [o.k] for a key that is no built-in property of strings, arrays or
    numbers (none of the keys the function reads is one). *)
Definition get (o : value) (k : string) : result value :=
  match o with
  | Undefined | Null =>
      Throw (TypeError ("Cannot read properties of undefined: " ++ k))
  | Obj fields => Ok (lookup k fields)
  | _ => Ok Undefined
  end.

(** [o?.k] *)
Definition oget (o : value) (k : string) : value :=
  match o with
  | Obj fields => lookup k fields
  | _ => Undefined
  end.

(** [v === "lit"] *)
Definition is_str (v : value) (lit : string) : bool :=
  match v with Str s => (s =? lit)%string | _ => false end.

(** String.prototype.includes *)
Definition str_includes (s needle : string) : bool :=
  match String.index 0 needle s with Some _ => true | None => false end.

(** [v.includes(needle)] for a [v] that is not nullish: strings and arrays
    have the method, nothing else JSON.parse returns does. *)
Definition includes (v : value) (needle : string) : result bool :=
  match v with
  | Str s => Ok (str_includes s needle)
  | Arr items => Ok (existsb (fun x => is_str x needle) items)
  | _ => Throw (TypeError "includes is not a function")
  end.

(** [v?.includes(needle)], then ToBoolean of the outcome. *)
Definition oincludes (v : value) (needle : string) : result bool :=
  if nullish v then Ok false else includes v needle.

(** ToString, as a template literal applies it, of an integer below
    10^21 in size, as every identifier, status and position the function
    prints is; from there on JavaScript prints an exponent. *)
Definition num_to_string (n : Z) : string :=
  NilZero.string_of_int (Z.to_int n).

Fixpoint join (sep : string) (l : list string) : string :=
  match l with
  | [] => ""
  | [x] => x
  | x :: rest => x ++ sep ++ join sep rest
  end.

Fixpoint to_string (v : value) : string :=
  match v with
  | Undefined => "undefined"
  | Null => "null"
  | Bool true => "true"
  | Bool false => "false"
  | Num n => num_to_string n
  | Str s => s
  | Arr items =>
      join "," (map (fun x => if nullish x then "" else to_string x) items)
  | Obj _ => "[object Object]"
  end.

(** [v.substring(0, n)] under [v?.], as in [record.text?.substring(0, 500)] *)
Definition osubstring (v : value) (n : nat) : result value :=
  match v with
  | Undefined | Null => Ok Undefined
  | Str s => Ok (Str (String.substring 0 n s))
  | _ => Throw (TypeError "substring is not a function")
  end.

(** [v.slice(0, n)] *)
Definition slice (v : value) (n : nat) : result value :=
  match v with
  | Undefined | Null => Throw (TypeError "Cannot read properties of undefined: slice")
  | Str s => Ok (Str (String.substring 0 n s))
  | Arr items => Ok (Arr (firstn n items))
  | _ => Throw (TypeError "slice is not a function")
  end.

(** String(error) *)
Definition exn_to_string (e : exn) : string :=
  match e with
  | TypeError m => "TypeError: " ++ m
  | SyntaxError m => "SyntaxError: " ++ m
  | AbortError => "AbortError: The signal has been aborted"
  | Error m => "Error: " ++ m
  end.

End JS.
Import JS.

(* ===================================================================== *)
(** ** Tables *)
(* ===================================================================== *)

Inductive interaction_type : Type := like | repost | reply | quote | follow.

(** posts: the columns the function selects (id, user_id), filters on
    (at_uri) and the aggregate counters. *)
Record post : Type := mkPost {
  post_id : string;
  post_user_id : string;
  post_at_uri : option string;
  likes_count : Z;
  reposts_count : Z;
  replies_count : Z;
  quotes_count : Z }.

Record profile : Type := mkProfile {
  profile_id : string;
  profile_did : option string;
  followers_count : Z }.

(** federated_interactions: the mirror records; at_uri is the idempotency
    key. *)
Record interaction : Type := mkInteraction {
  i_post_id : option string;
  i_target_user_id : option string;
  i_type : interaction_type;
  i_actor_did : value;
  i_at_uri : string;
  i_metadata : option (value * value) }.

Record notification : Type := mkNotification {
  n_user_id : string;
  n_actor_did : value;
  n_actor_handle : value;
  n_actor_display_name : value;
  n_actor_avatar : value;
  n_reason : string;
  n_post_id : option string;
  n_is_external : bool }.

Record cached_profile : Type := mkCached {
  c_did : string;
  c_handle : value;
  c_display_name : value;
  c_avatar : value;
  c_cached_at : Z }.

(** jetstream_cursor: the single row with id = 1. *)
Record cursor_row : Type := mkCursor {
  cursor_time_us : Z;
  events_processed : Z;
  last_error : option string;
  updated_at : Z }.

(** The tables, the log of profile lookups sent to the public API and the
    number of clock readings taken so far. *)
Record state : Type := mkState {
  posts : list post;
  profiles : list profile;
  federated_interactions : list interaction;
  notifications : list notification;
  bluesky_profile_cache : list cached_profile;
  jetstream_cursor : option cursor_row;
  lookups : list string;
  ticks : nat }.

Definition set_posts (f : list post -> list post) (s : state) : state :=
  mkState (f (posts s)) (profiles s) (federated_interactions s)
    (notifications s) (bluesky_profile_cache s) (jetstream_cursor s)
    (lookups s) (ticks s).

Definition set_profiles (f : list profile -> list profile) (s : state) : state :=
  mkState (posts s) (f (profiles s)) (federated_interactions s)
    (notifications s) (bluesky_profile_cache s) (jetstream_cursor s)
    (lookups s) (ticks s).

Definition set_interactions
  (f : list interaction -> list interaction) (s : state) : state :=
  mkState (posts s) (profiles s) (f (federated_interactions s))
    (notifications s) (bluesky_profile_cache s) (jetstream_cursor s)
    (lookups s) (ticks s).

Definition set_notifications
  (f : list notification -> list notification) (s : state) : state :=
  mkState (posts s) (profiles s) (federated_interactions s)
    (f (notifications s)) (bluesky_profile_cache s) (jetstream_cursor s)
    (lookups s) (ticks s).

Definition set_cache
  (f : list cached_profile -> list cached_profile) (s : state) : state :=
  mkState (posts s) (profiles s) (federated_interactions s)
    (notifications s) (f (bluesky_profile_cache s)) (jetstream_cursor s)
    (lookups s) (ticks s).

Definition set_cursor
  (f : option cursor_row -> option cursor_row) (s : state) : state :=
  mkState (posts s) (profiles s) (federated_interactions s)
    (notifications s) (bluesky_profile_cache s) (f (jetstream_cursor s))
    (lookups s) (ticks s).

Definition set_lookups (f : list string -> list string) (s : state) : state :=
  mkState (posts s) (profiles s) (federated_interactions s)
    (notifications s) (bluesky_profile_cache s) (jetstream_cursor s)
    (f (lookups s)) (ticks s).

Definition set_ticks (f : nat -> nat) (s : state) : state :=
  mkState (posts s) (profiles s) (federated_interactions s)
    (notifications s) (bluesky_profile_cache s) (jetstream_cursor s)
    (lookups s) (f (ticks s)).

(* ===================================================================== *)
(** ** Effects *)
(* ===================================================================== *)

Module Eff.

(** A computation reads and writes the state and either returns or
    throws; what it wrote before throwing stays written. *)
Definition M (A : Type) : Type := state -> result A * state.

Definition ret {A} (a : A) : M A := fun s => (Ok a, s).

Definition bind {A B} (c : M A) (k : A -> M B) : M B :=
  fun s =>
    match c s with
    | (Ok a, s') => k a s'
    | (Throw e, s') => (Throw e, s')
    end.

Definition throw {A} (e : exn) : M A := fun s => (Throw e, s).

Definition lift {A} (r : result A) : M A := fun s => (r, s).

(** try { c } catch (e) { h e } *)
Definition try_catch {A} (c : M A) (h : exn -> M A) : M A :=
  fun s =>
    match c s with
    | (Ok a, s') => (Ok a, s')
    | (Throw e, s') => h e s'
    end.

Definition gets {A} (f : state -> A) : M A := fun s => (Ok (f s), s).

Definition modify (f : state -> state) : M unit := fun s => (Ok tt, f s).

Definition exec {A} (c : M A) (s : state) : state := snd (c s).

Definition eval {A} (c : M A) (s : state) : result A := fst (c s).

End Eff.
Import Eff.

Declare Scope eff_scope.
Delimit Scope eff_scope with eff.
Notation "x <- c ;; k" := (bind c (fun x => k))
  (at level 61, c at next level, right associativity) : eff_scope.
Notation "c ;; k" := (bind c (fun _ => k))
  (at level 61, right associativity) : eff_scope.
Local Open Scope eff_scope.

(** The same in the pure fragment: [x <~ r ;; k] stops at a throw of [r]. *)
Definition rbind {A B} (r : result A) (k : A -> result B) : result B :=
  match r with Ok a => k a | Throw e => Throw e end.
Notation "x <~ r ;; k" := (rbind r (fun x => k))
  (at level 61, r at next level, right associativity) : eff_scope.

(* ===================================================================== *)
(** ** The comparison [a > b] *)
(* ===================================================================== *)

(** The loop compares [event.time_us] with the position by [>] on values
    of any type, so the comparison is JavaScript's: both sides are made
    primitive, two texts are compared as texts, anything else as
    numbers. *)

(** The value of a number.  [Num] carries the integers; a text can convert
    to any double. *)
Inductive number : Type :=
| NaN
| Infinity (negative : bool)
| Fraction (numerator : Z) (denominator : positive).

Definition integer (n : Z) : number := Fraction n 1.

(** [x < y] on numbers: false as soon as one is NaN. *)
Definition number_ltb (x y : number) : bool :=
  match x, y with
  | NaN, _ | _, NaN => false
  | Infinity a, Infinity b => a && negb b
  | Infinity a, Fraction _ _ => a
  | Fraction _ _, Infinity b => negb b
  | Fraction a c, Fraction b d => a * Z.pos d <? b * Z.pos c
  end.

Definition has_own (k : string) (fields : list (string * value)) : bool :=
  existsb (fun kv => (fst kv =? k)%string) fields.

(** ToString of a value that may be an object.  An object made by
    JSON.parse has no function among its own properties: its valueOf is
    Object.prototype's and returns the object, and its toString is
    Object.prototype's unless a key of its own hides it, in which case no
    conversion is left and a TypeError is thrown.  An array is joined,
    element by element. *)
Fixpoint text_of (v : value) : result string :=
  match v with
  | Obj fields =>
      if has_own "toString" fields
      then Throw (TypeError "Cannot convert object to primitive value")
      else Ok "[object Object]"
  | Arr items =>
      texts <~ (fix each (l : list value) : result (list string) :=
                  match l with
                  | [] => Ok []
                  | x :: rest =>
                      t <~ (if nullish x then Ok "" else text_of x) ;;
                      ts <~ each rest ;;
                      Ok (t :: ts)
                  end) items ;;
      Ok (join "," texts)
  | _ => Ok (to_string v)
  end.

(** ToPrimitive, with the hint "number". *)
Definition to_primitive (v : value) : result value :=
  match v with
  | Arr _ | Obj _ => t <~ text_of v ;; Ok (Str t)
  | _ => Ok v
  end.

Section Comparison.

(** StringToNumber, the conversion of a text to a number, is the
    engine's. *)
Variable string_to_number : string -> number.

(** ToNumber of a primitive. *)
Definition to_number (p : value) : number :=
  match p with
  | Undefined => NaN
  | Null => integer 0
  | Bool b => integer (if b then 1 else 0)
  | Num n => integer n
  | Str s => string_to_number s
  | Arr _ | Obj _ => NaN
  end.

(** [a > b] *)
Definition greater (a b : value) : result bool :=
  pa <~ to_primitive a ;;
  pb <~ to_primitive b ;;
  Ok (match pa, pb with
      | Str x, Str y => String.ltb y x
      | _, _ => number_ltb (to_number pb) (to_number pa)
      end).

End Comparison.

(* ===================================================================== *)
(** ** Configuration and environment *)
(* ===================================================================== *)

Definition CANNECT_DOMAIN : string := "cannect.space".
Definition PROFILE_CACHE_TTL_MS : Z := 3600000.

(** fetch: it throws, or it resolves to a response. *)
Inductive http : Type :=
| NetworkError (e : exn)
| Response (ok : bool) (status : Z) (statusText body : string).

(** What the function does not control: the clock, JSON.parse, the
    engine's conversion of a text to a number, the two remote services,
    and what the tables were declared with (their DDL is not part of the
    function): the constraints of federated_interactions, by which an
    insert is accepted or refused given the rows already there, and what
    the column jetstream_cursor.cursor_time_us reads in a text sent to it,
    if it reads anything. *)
Record env : Type := mkEnv {
  clock : nat -> Z;
  json_parse : string -> result value;
  string_to_number : string -> number;
  constraints_ok : list interaction -> interaction -> bool;
  text_position : string -> option Z;
  profile_api : string -> http;
  jetstream : Z -> http }.

(* ===================================================================== *)
(** ** Queries *)
(* ===================================================================== *)

(** [.single()] and [.maybeSingle()]: both hand back a row only when exactly
    one row matches; with none, [.single()] also reports an error, and with
    several both do.  Every caller tests the row (or the error and the
    row), so the row is all that is modelled. *)
Definition single {A} (rows : list A) : option A :=
  match rows with [r] => Some r | _ => None end.

Definition maybeSingle {A} (rows : list A) : option A :=
  match rows with [r] => Some r | _ => None end.

(** [.eq(column, v)] sends [v] as text and compares the column with it; a
    NULL column matches nothing. *)
Definition eq_text (column : option string) (v : string) : bool :=
  match column with Some c => (c =? v)%string | None => false end.

Definition posts_eq_at_uri (v : value) (s : state) : list post :=
  filter (fun p => eq_text (post_at_uri p) (to_string v)) (posts s).

Definition profiles_eq_did (v : value) (s : state) : list profile :=
  filter (fun p => eq_text (profile_did p) (to_string v)) (profiles s).

Definition has_at_uri (uri : string) (i : interaction) : bool :=
  (i_at_uri i =? uri)%string.

Definition interactions_eq_at_uri (uri : string) (s : state) : list interaction :=
  filter (has_at_uri uri) (federated_interactions s).

Definition cache_eq_did (v : value) (s : state) : list cached_profile :=
  filter (fun c => (c_did c =? to_string v)%string) (bluesky_profile_cache s).

(** Modelled from the spec: the counter procedures (increment_post_likes,
    decrement_post_likes and their siblings for reposts, replies, quotes and
    followers) are called by name and defined elsewhere.  An increment adds
    one to the counter of the target row; a decrement takes one away and is
    clamped at a floor of zero. *)
Definition incr (n : Z) : Z := n + 1.
Definition decr (n : Z) : Z := Z.max 0 (n - 1).

Definition on_post (id : string) (f : post -> post) : M unit :=
  modify (set_posts (map (fun p => if (post_id p =? id)%string then f p else p))).

Definition on_profile (id : string) (f : profile -> profile) : M unit :=
  modify (set_profiles
            (map (fun p => if (profile_id p =? id)%string then f p else p))).

Definition with_likes (f : Z -> Z) (p : post) : post :=
  mkPost (post_id p) (post_user_id p) (post_at_uri p)
    (f (likes_count p)) (reposts_count p) (replies_count p) (quotes_count p).
Definition with_reposts (f : Z -> Z) (p : post) : post :=
  mkPost (post_id p) (post_user_id p) (post_at_uri p)
    (likes_count p) (f (reposts_count p)) (replies_count p) (quotes_count p).
Definition with_replies (f : Z -> Z) (p : post) : post :=
  mkPost (post_id p) (post_user_id p) (post_at_uri p)
    (likes_count p) (reposts_count p) (f (replies_count p)) (quotes_count p).
Definition with_quotes (f : Z -> Z) (p : post) : post :=
  mkPost (post_id p) (post_user_id p) (post_at_uri p)
    (likes_count p) (reposts_count p) (replies_count p) (f (quotes_count p)).
Definition with_followers (f : Z -> Z) (p : profile) : profile :=
  mkProfile (profile_id p) (profile_did p) (f (followers_count p)).

Definition increment_post_likes (id : string) := on_post id (with_likes incr).
Definition decrement_post_likes (id : string) := on_post id (with_likes decr).
Definition increment_post_reposts (id : string) := on_post id (with_reposts incr).
Definition decrement_post_reposts (id : string) := on_post id (with_reposts decr).
Definition increment_post_replies (id : string) := on_post id (with_replies incr).
Definition increment_post_quotes (id : string) := on_post id (with_quotes incr).
Definition increment_profile_followers (id : string) :=
  on_profile id (with_followers incr).
Definition decrement_profile_followers (id : string) :=
  on_profile id (with_followers decr).

(** The counter an interaction type is counted in, adjusted on one row. *)
Definition adjust (k : interaction_type) (f : Z -> Z) (id : string) : M unit :=
  match k with
  | like => on_post id (with_likes f)
  | repost => on_post id (with_reposts f)
  | reply => on_post id (with_replies f)
  | quote => on_post id (with_quotes f)
  | follow => on_profile id (with_followers f)
  end.

(* ===================================================================== *)
(** ** The polling function *)
(* ===================================================================== *)

Section Poll.

Variable E : env.

(** Date.now() *)
Definition now : M Z :=
  fun s => (Ok (clock E (ticks s)), set_ticks S s).

(** [.from("federated_interactions").insert(row)]: the error, if any. *)
Definition insert_interaction (row : interaction) : M bool :=
  fun s =>
    if constraints_ok E (federated_interactions s) row
    then (Ok false, set_interactions (fun t => (t ++ [row])%list) s)
    else (Ok true, s).

(** [.from("federated_interactions").delete().eq("at_uri", uri)]: every
    matching row goes; matching none is no error. *)
Definition delete_interactions (uri : string) : M bool :=
  fun s =>
    (Ok false, set_interactions (filter (fun i => negb (has_at_uri uri i))) s).

(** *** Profile resolution *)

Definition cached_value (c : cached_profile) : value :=
  Obj [("did", Str (c_did c)); ("handle", c_handle c);
       ("display_name", c_display_name c); ("avatar", c_avatar c);
       ("cached_at", Num (c_cached_at c))].

Definition upsert_cache (row : cached_profile) : M unit :=
  modify (set_cache (fun t =>
    (filter (fun c => negb (c_did c =? c_did row)%string) t ++ [row])%list)).

Definition fetch_profile (did : value) : M (bool * Z * string) :=
  fun s =>
    let s' := set_lookups (fun l => (l ++ [to_string did])%list) s in
    match profile_api E (to_string did) with
    | NetworkError e => (Throw e, s')
    | Response ok status _ body => (Ok (ok, status, body), s')
    end.

Definition getBlueskyProfile (did : value) : M value :=
  cached <- gets (fun s => maybeSingle (cache_eq_did did s)) ;;
  fresh <- match cached with
           | Some c =>
               t <- now ;;
               let cacheAge := t - c_cached_at c in
               ret (if cacheAge <? PROFILE_CACHE_TTL_MS then Some c else None)
           | None => ret None
           end ;;
  match fresh with
  | Some c => ret (cached_value c)
  | None =>
      try_catch
        (response <- fetch_profile did ;;
         let '(ok, _, body) := response in
         if negb ok then ret Null
         else
           profile <- lift (json_parse E body) ;;
           handle <- lift (get profile "handle") ;;
           displayName <- lift (get profile "displayName") ;;
           avatar <- lift (get profile "avatar") ;;
           t <- now ;;
           upsert_cache (mkCached (to_string did) handle displayName avatar t) ;;
           ret profile)
        (fun _ => ret Null)
  end.

Definition createExternalNotification
  (userId : string) (actorDid : value) (reason : string)
  (postId : option string) : M unit :=
  actor <- getBlueskyProfile actorDid ;;
  handle <- (if truthy (oget actor "handle") then ret (oget actor "handle")
             else lift (slice actorDid 20)) ;;
  (* an insert error is logged and nothing else *)
  modify (set_notifications (fun t => (t ++
    [mkNotification userId actorDid handle (oget actor "displayName")
       (oget actor "avatar") reason postId true])%list)).

(** *** Handlers *)

Definition interaction_uri (actorDid : value) (collection : string)
  (rkey : value) : string :=
  "at://" ++ to_string actorDid ++ "/" ++ collection ++ "/" ++ to_string rkey.

(** [!subjectUri || !subjectUri.includes(CANNECT_DOMAIN)] *)
Definition not_local (uri : value) : result bool :=
  if negb (truthy uri) then Ok true
  else b <~ includes uri CANNECT_DOMAIN ;; Ok (negb b).

Definition handleLikeEvent (actorDid operation record rkey : value) : M unit :=
  let subjectUri := oget (oget record "subject") "uri" in
  skip <- lift (not_local subjectUri) ;;
  if skip then ret tt else
  found <- gets (fun s => single (posts_eq_at_uri subjectUri s)) ;;
  match found with
  | None => ret tt
  | Some post =>
      let interactionUri := interaction_uri actorDid "app.bsky.feed.like" rkey in
      if is_str operation "create" then
        existing <- gets (fun s => maybeSingle (interactions_eq_at_uri interactionUri s)) ;;
        match existing with
        | Some _ => ret tt
        | None =>
            insertError <- insert_interaction
              (mkInteraction (Some (post_id post)) None like actorDid
                 interactionUri None) ;;
            if insertError then ret tt else
            increment_post_likes (post_id post) ;;
            createExternalNotification (post_user_id post) actorDid "like"
              (Some (post_id post))
        end
      else if is_str operation "delete" then
        deleteError <- delete_interactions interactionUri ;;
        if negb deleteError then decrement_post_likes (post_id post) else ret tt
      else ret tt
  end.

Definition handleRepostEvent (actorDid operation record rkey : value) : M unit :=
  let subjectUri := oget (oget record "subject") "uri" in
  skip <- lift (not_local subjectUri) ;;
  if skip then ret tt else
  found <- gets (fun s => single (posts_eq_at_uri subjectUri s)) ;;
  match found with
  | None => ret tt
  | Some post =>
      let interactionUri := interaction_uri actorDid "app.bsky.feed.repost" rkey in
      if is_str operation "create" then
        existing <- gets (fun s => maybeSingle (interactions_eq_at_uri interactionUri s)) ;;
        match existing with
        | Some _ => ret tt
        | None =>
            insertError <- insert_interaction
              (mkInteraction (Some (post_id post)) None repost actorDid
                 interactionUri None) ;;
            if negb insertError then
              increment_post_reposts (post_id post) ;;
              createExternalNotification (post_user_id post) actorDid "repost"
                (Some (post_id post))
            else ret tt
        end
      else if is_str operation "delete" then
        deleteError <- delete_interactions interactionUri ;;
        if negb deleteError then decrement_post_reposts (post_id post) else ret tt
      else ret tt
  end.

(** The reply half and the quote half of handlePostEvent differ in the
    reference they follow, the key, the type and the counter. *)
Definition mirror_post_reference
  (ref : value) (key : string) (kind : interaction_type)
  (increment : string -> M unit) (reason : string)
  (actorDid record : value) : M unit :=
  isLocal <- lift (oincludes ref CANNECT_DOMAIN) ;;
  if negb isLocal then ret tt else
  found <- gets (fun s => single (posts_eq_at_uri ref s)) ;;
  match found with
  | None => ret tt
  | Some target =>
      existing <- gets (fun s => maybeSingle (interactions_eq_at_uri key s)) ;;
      match existing with
      | Some _ => ret tt
      | None =>
          text <- lift (t <~ get record "text" ;; osubstring t 500) ;;
          createdAt <- lift (get record "createdAt") ;;
          insertError <- insert_interaction
            (mkInteraction (Some (post_id target)) None kind actorDid key
               (Some (text, createdAt))) ;;
          if negb insertError then
            increment (post_id target) ;;
            createExternalNotification (post_user_id target) actorDid reason
              (Some (post_id target))
          else ret tt
      end
  end.

Definition handlePostEvent (actorDid operation record rkey : value) : M unit :=
  if negb (is_str operation "create") then ret tt else
  let interactionUri := interaction_uri actorDid "app.bsky.feed.post" rkey in
  let parentUri := oget (oget (oget record "reply") "parent") "uri" in
  mirror_post_reference parentUri interactionUri reply
    increment_post_replies "reply" actorDid record ;;
  let quotedUri := oget (oget (oget record "embed") "record") "uri" in
  let quoteInteractionUri := interactionUri ++ "#quote" in
  mirror_post_reference quotedUri quoteInteractionUri quote
    increment_post_quotes "quote" actorDid record.

Definition handleFollowEvent (actorDid operation record rkey : value) : M unit :=
  let subjectDid := oget record "subject" in
  if negb (truthy subjectDid) then ret tt else
  found <- gets (fun s => single (profiles_eq_did subjectDid s)) ;;
  match found with
  | None => ret tt
  | Some profile =>
      let interactionUri := interaction_uri actorDid "app.bsky.graph.follow" rkey in
      if is_str operation "create" then
        existing <- gets (fun s => maybeSingle (interactions_eq_at_uri interactionUri s)) ;;
        match existing with
        | Some _ => ret tt
        | None =>
            insertError <- insert_interaction
              (mkInteraction None (Some (profile_id profile)) follow actorDid
                 interactionUri None) ;;
            if negb insertError then
              increment_profile_followers (profile_id profile) ;;
              createExternalNotification (profile_id profile) actorDid "follow"
                None
            else ret tt
        end
      else if is_str operation "delete" then
        deleteError <- delete_interactions interactionUri ;;
        if negb deleteError then decrement_profile_followers (profile_id profile)
        else ret tt
      else ret tt
  end.

(** *** Relevance and dispatch *)

Definition isRelevantToCannect (event : value) : result bool :=
  kind <~ get event "kind" ;;
  commit <~ get event "commit" ;;
  if negb (is_str kind "commit") || negb (truthy commit) then Ok false else
  record <~ get commit "record" ;;
  if negb (truthy record) then Ok false else
  subject <~ get record "subject" ;;
  bySubject <~ oincludes (oget subject "uri") CANNECT_DOMAIN ;;
  if bySubject then Ok true else
  reply <~ get record "reply" ;;
  byParent <~ oincludes (oget (oget reply "parent") "uri") CANNECT_DOMAIN ;;
  if byParent then Ok true else
  byRoot <~ oincludes (oget (oget reply "root") "uri") CANNECT_DOMAIN ;;
  if byRoot then Ok true else
  embed <~ get record "embed" ;;
  byEmbed <~ oincludes (oget (oget embed "record") "uri") CANNECT_DOMAIN ;;
  if byEmbed then Ok true else
  collection <~ get commit "collection" ;;
  if is_str collection "app.bsky.graph.follow" then Ok true else Ok false.

Definition processEvent (event : value) : M unit :=
  commit <- lift (get event "commit") ;;
  actorDid <- lift (get event "did") ;;
  if negb (truthy commit) then ret tt else
  operation <- lift (get commit "operation") ;;
  collection <- lift (get commit "collection") ;;
  record <- lift (get commit "record") ;;
  rkey <- lift (get commit "rkey") ;;
  if is_str collection "app.bsky.feed.like" then
    handleLikeEvent actorDid operation record rkey
  else if is_str collection "app.bsky.feed.repost" then
    handleRepostEvent actorDid operation record rkey
  else if is_str collection "app.bsky.feed.post" then
    handlePostEvent actorDid operation record rkey
  else if is_str collection "app.bsky.graph.follow" then
    handleFollowEvent actorDid operation record rkey
  else ret tt.

(** *** One polling cycle *)

(** [text.split("\n")] *)
Fixpoint split_lines (text : string) : list string :=
  match text with
  | EmptyString => [""]
  | String c rest =>
      if Ascii.eqb c "010"%char then "" :: split_lines rest
      else match split_lines rest with
           | line :: lines => String c line :: lines
           | [] => [String c ""]
           end
  end.

Definition parseSSEEvents (text : string) : list value :=
  flat_map
    (fun line =>
       if String.prefix "data: " line then
         match json_parse E (String.substring 6 (String.length line - 6) line) with
         | Ok parsed => [parsed]
         | Throw _ => []
         end
       else [])
    (split_lines text).

(** The request to the stream, with its own try/catch: an abort ends the
    batch, anything else is thrown on.  The five-second timer that aborts
    is cleared as soon as the headers arrive, so it bounds the wait for
    the response and not the reading of its body: a response is modelled
    with its body read to the end, and a stream that stays open after its
    headers, on which the cycle never answers, is no outcome here. *)
Definition fetch_events (cursor : Z) : M (list value) :=
  try_catch
    (match jetstream E cursor with
     | NetworkError e => throw e
     | Response ok status statusText body =>
         if negb ok then
           throw (Error ("Jetstream error: " ++ num_to_string status ++ " "
                           ++ statusText))
         else ret (parseSSEEvents body)
     end)
    (fun fetchError =>
       match fetchError with
       | AbortError => ret []
       | _ => throw fetchError
       end).

(** [if (event.time_us && event.time_us > latestCursor) latestCursor =
    event.time_us]: the position after the statement, or what the
    comparison throws.  The position is a value like time_us: whatever
    compares greater takes its place. *)
Definition advance (time_us latestCursor : value) : result value :=
  if truthy time_us then
    later <~ greater (string_to_number E) time_us latestCursor ;;
    Ok (if later : bool then time_us else latestCursor)
  else Ok latestCursor.

(** What the try block does with an event once the position is updated:
    filter it, process it; [true] when it went through processEvent. *)
Definition attempt (event : value) : M bool :=
  relevant <- lift (isRelevantToCannect event) ;;
  if negb relevant then ret false else
  processEvent event ;;
  ret true.

(** The body of the loop over the events, try and catch included; the pair
    is (latestCursor, processedCount).  Reading time_us and comparing it
    touch no table: when either throws, the catch leaves both as they
    were. *)
Definition process_one (event : value) (acc : value * Z) : M (value * Z) :=
  let '(latestCursor, processedCount) := acc in
  match time_us <~ get event "time_us" ;; advance time_us latestCursor with
  | Throw _ => ret (latestCursor, processedCount)
  | Ok latestCursor =>
      try_catch
        (processed <- attempt event ;;
         ret (latestCursor,
              if processed : bool then processedCount + 1 else processedCount))
        (fun _ => ret (latestCursor, processedCount))
  end.

Fixpoint process_all (events : list value) (acc : value * Z)
  : M (value * Z) :=
  match events with
  | [] => ret acc
  | event :: rest => acc' <- process_one event acc ;; process_all rest acc'
  end.

Inductive response : Type :=
| Preflight
| Success (eventsReceived eventsProcessed : Z) (cursor : value)
    (durationMs : Z)
| Failure (error : string).

(** What the column cursor_time_us stores of the value sent to it: an
    integer as it is, of a text what the column reads in it, and nothing
    of any other value. *)
Definition stored_position (latestCursor : value) : option Z :=
  match latestCursor with
  | Num n => Some n
  | Str text => text_position E text
  | _ => None
  end.

(** The update of the cursor row.  A value the column does not store
    makes the whole update fail; its outcome is not looked at. *)
Definition commit_cursor (latestCursor : value) (processedCount : Z)
  : M unit :=
  t <- now ;;
  match stored_position latestCursor with
  | Some position =>
      modify (set_cursor (option_map (fun _ =>
        mkCursor position processedCount None t)))
  | None => ret tt
  end.

Definition record_error (error : exn) : M unit :=
  t <- now ;;
  modify (set_cursor (option_map (fun row =>
    mkCursor (cursor_time_us row) (events_processed row)
      (Some (exn_to_string error)) t))).

Definition serve (method : string) : M response :=
  if (method =? "OPTIONS")%string then ret Preflight else
  startTime <- now ;;
  try_catch
    (cursorData <- gets jetstream_cursor ;;
     match cursorData with
     | None => throw (Error "Cursor fetch failed: no row")
     | Some row =>
         cursor <- (if cursor_time_us row =? 0
                    then t <- now ;; ret (t * 1000)
                    else ret (cursor_time_us row)) ;;
         events <- fetch_events cursor ;;
         acc <- process_all events (Num cursor, 0) ;;
         let '(latestCursor, processedCount) := acc in
         commit_cursor latestCursor processedCount ;;
         finish <- now ;;
         ret (Success (Z.of_nat (List.length events)) processedCount
                latestCursor (finish - startTime))
     end)
    (fun error =>
       record_error error ;;
       ret (Failure (exn_to_string error))).

End Poll.

(* ===================================================================== *)
(** ** Two writers on one idempotency key *)
(* ===================================================================== *)

(** Every [await] of the create branch of handleLikeEvent is one request to
    the storage layer, and between two requests of one writer another
    writer may run: a second delivery of the same event, or the write-through
    of the same action.  A writer is followed request by request. *)
Module Race.

Inductive path : Type := Ingest | WriteThrough.

Inductive pc : Type := Check | Insert | Increment | Notify | Finished | Dropped.

Definition terminal (a : pc) : bool :=
  match a with Finished | Dropped => true | _ => false end.

(** The writer has inserted its row. *)
Definition inserted (a : pc) : bool :=
  match a with Increment | Notify | Finished => true | _ => false end.

(** The writer has incremented the counter. *)
Definition bumped (a : pc) : bool :=
  match a with Notify | Finished => true | _ => false end.

Section Writers.

Variable E : env.
(** The post the event resolved to, and the event's actor and record key. *)
Variable target : post.
Variables actorDid rkey : value.

Definition key : string := interaction_uri actorDid "app.bsky.feed.like" rkey.

Definition row : interaction :=
  mkInteraction (Some (post_id target)) None like actorDid key None.

(** One request of a writer.  The ingestion path is the create branch of
    handleLikeEvent.  Modelled from the spec: the write-through path, whose
    code is not at hand, mirrors its own action with the same check, insert
    and conditional increment, and sends itself no notification. *)
Definition step_writer (p : path) (a : pc) (s : state) : pc * state :=
  match a with
  | Check =>
      match maybeSingle (interactions_eq_at_uri key s) with
      | Some _ => (Dropped, s)
      | None => (Insert, s)
      end
  | Insert =>
      match insert_interaction E row s with
      | (Ok false, s') => (Increment, s')
      | (_, s') => (Dropped, s')
      end
  | Increment =>
      (match p with Ingest => Notify | WriteThrough => Finished end,
       exec (increment_post_likes (post_id target)) s)
  | Notify =>
      (Finished,
       exec (createExternalNotification E (post_user_id target) actorDid
               "like" (Some (post_id target))) s)
  | Finished => (Finished, s)
  | Dropped => (Dropped, s)
  end.

(** A writer running alone, for at most [fuel] requests. *)
Fixpoint run_alone (fuel : nat) (p : path) (a : pc) (s : state) : pc * state :=
  match fuel with
  | O => (a, s)
  | S fuel' =>
      if terminal a then (a, s)
      else let '(a', s') := step_writer p a s in run_alone fuel' p a' s'
  end.

Variables left right : path.

(** The state and where each of the two writers stands. *)
Definition config : Type := state * pc * pc.

Inductive step : config -> config -> Prop :=
| step_left s a b a' s' :
    terminal a = false -> step_writer left a s = (a', s') ->
    step (s, a, b) (s', a', b)
| step_right s a b b' s' :
    terminal b = false -> step_writer right b s = (b', s') ->
    step (s, a, b) (s', a, b').

Inductive steps : config -> config -> Prop :=
| steps_refl c : steps c c
| steps_next c1 c2 c3 : steps c1 c2 -> step c2 c3 -> steps c1 c3.

(** A schedule says which writer moves next. *)
Fixpoint run_schedule (schedule : list bool) (c : config) : config :=
  match schedule with
  | [] => c
  | first :: rest =>
      let '(s, a, b) := c in
      if first then
        if terminal a then run_schedule rest c
        else let '(a', s') := step_writer left a s in
             run_schedule rest (s', a', b)
      else
        if terminal b then run_schedule rest c
        else let '(b', s') := step_writer right b s in
             run_schedule rest (s', a, b')
  end.

End Writers.

(** The uniqueness constraint on at_uri: an insert is refused when a row
    with the same key is there. *)
Definition unique_at_uri (E : env) : Prop :=
  forall table r,
    constraints_ok E table r = true ->
    existsb (has_at_uri (i_at_uri r)) table = false.

End Race.

(* ===================================================================== *)
(** ** The outbound write-through agent *)
(* ===================================================================== *)

Module Outbound.

(** Modelled from the spec: the agent that performs a local user's action
    against the user's PDS (the atproto-agent function) is called by the
    client code at hand but is not part of it.  Its contract is
    [perform(action, localUserId, target)]: the acting user needs a
    session; an authorization failure is answered by one refresh of the
    credential and one retry; after the PDS accepted the write, and only
    then, the mirror record is created or deleted and the counter adjusted,
    under the key the PDS issued. *)

Inductive action : Type :=
  Like | Unlike | Repost | Unrepost | Follow | Unfollow | Reply.

Inductive failure : Type :=
  NoSession | AuthorizationFailed | NetworkFailure | MalformedTarget.

Inductive pds_result : Type :=
| Accepted (uri : string)
| Unauthorized
| Failed (why : failure).

Record session : Type := mkSession {
  local_user_id : string;
  external_identity : string;
  session_credential : string }.

(** The local subject, and for a retraction the reference of the record
    to retract. *)
Record target : Type := mkTarget {
  subject_id : string;
  record_uri : string }.

Record pds : Type := mkPds {
  write : string -> action -> target -> pds_result;
  refresh : session -> option string }.

Record agent_state : Type := mkAgent {
  mirror : state;
  sessions : list session }.

Definition kind_of (a : action) : interaction_type :=
  match a with
  | Like | Unlike => like
  | Repost | Unrepost => repost
  | Follow | Unfollow => follow
  | Reply => reply
  end.

Definition retracts (a : action) : bool :=
  match a with Unlike | Unrepost | Unfollow => true | _ => false end.

Section Agent.

Variable E : env.
Variable P : pds.

Definition mirror_row (a : action) (who : session) (t : target)
  (uri : string) : interaction :=
  match kind_of a with
  | follow =>
      mkInteraction None (Some (subject_id t)) follow
        (Str (external_identity who)) uri None
  | k =>
      mkInteraction (Some (subject_id t)) None k
        (Str (external_identity who)) uri None
  end.

(** The local half, run after the PDS accepted the write. *)
Definition reflect (a : action) (who : session) (t : target)
  (uri : string) : M unit :=
  if retracts a then
    existing <- gets (fun s => interactions_eq_at_uri (record_uri t) s) ;;
    match existing with
    | [] => ret tt
    | _ =>
        delete_interactions (record_uri t) ;;
        adjust (kind_of a) decr (subject_id t)
    end
  else
    existing <- gets (fun s => interactions_eq_at_uri uri s) ;;
    match existing with
    | [] =>
        insertError <- insert_interaction E (mirror_row a who t uri) ;;
        if insertError then ret tt
        else adjust (kind_of a) incr (subject_id t)
    | _ => ret tt
    end.

Definition replace_credential (user credential : string)
  (l : list session) : list session :=
  map (fun x => if (local_user_id x =? user)%string
                then mkSession (local_user_id x) (external_identity x) credential
                else x) l.

Definition perform (a : action) (localUserId : string) (t : target)
  (st : agent_state) : (failure + string) * agent_state :=
  match find (fun x => (local_user_id x =? localUserId)%string) (sessions st) with
  | None => (inl NoSession, st)
  | Some who =>
      match write P (session_credential who) a t with
      | Accepted uri =>
          (inr uri, mkAgent (exec (reflect a who t uri) (mirror st)) (sessions st))
      | Failed why => (inl why, st)
      | Unauthorized =>
          match refresh P who with
          | None => (inl AuthorizationFailed, st)
          | Some credential =>
              let sessions' :=
                replace_credential localUserId credential (sessions st) in
              match write P credential a t with
              | Accepted uri =>
                  (inr uri,
                   mkAgent (exec (reflect a who t uri) (mirror st)) sessions')
              | Unauthorized =>
                  (inl AuthorizationFailed, mkAgent (mirror st) sessions')
              | Failed why => (inl why, mkAgent (mirror st) sessions')
              end
          end
      end
  end.

End Agent.

End Outbound.

(* ===================================================================== *)
(** ** The cache of remote content *)
(* ===================================================================== *)

(** The migration that comes with the polling function redefines, over the
    renamed columns of cached_posts and cached_profiles, the two trigger
    functions that flag cached content a local user interacted with and
    the two functions that record an access, and backfills
    cached_profiles.description from bio.  Each is one or two UPDATE
    statements; a table is the list of its rows, an UPDATE maps over it. *)
Module Cached.

Inductive sql_error : Type :=
| cardinality_violation
| numeric_value_out_of_range.

(** A statement either completes or raises, and then changes nothing. *)
Inductive outcome (A : Type) : Type :=
| Done (a : A)
| Raised (e : sql_error).
Arguments Done {A} a.
Arguments Raised {A} e.

Definition and_then {A B} (r : outcome A) (k : A -> outcome B) : outcome B :=
  match r with Done a => k a | Raised e => Raised e end.

(** at_uri is the primary key of cached_posts; every other column may hold
    NULL. *)
Record cached_post : Type := mkPostRow {
  at_uri : string;
  author_did : option string;
  last_accessed_at : option Z;
  access_count : option Z;
  has_cannect_like : option bool;
  has_cannect_repost : option bool }.

Record cached_profile : Type := mkProfileRow {
  did : option string;
  has_interaction : option bool;
  bio : option string;
  description : option string }.

Record tables : Type := mkTables {
  cached_posts : list cached_post;
  cached_profiles : list cached_profile }.

(** The row the trigger fires for: a like or a repost. *)
Record new_row : Type := mkNew {
  new_subject_uri : option string;
  new_user_id : option string }.

(** [a = b] in a WHERE clause holds of two texts that are equal and not
    NULL. *)
Definition same_text (a b : option string) : bool :=
  match a, b with
  | Some x, Some y => (x =? y)%string
  | _, _ => false
  end.

Definition set_like (p : cached_post) : cached_post :=
  mkPostRow (at_uri p) (author_did p) (last_accessed_at p) (access_count p)
    (Some true) (has_cannect_repost p).

Definition set_repost (p : cached_post) : cached_post :=
  mkPostRow (at_uri p) (author_did p) (last_accessed_at p) (access_count p)
    (has_cannect_like p) (Some true).

Definition set_interacted (f : cached_profile) : cached_profile :=
  mkProfileRow (did f) (Some true) (bio f) (description f).

(** UPDATE cached_posts SET flag = TRUE WHERE at_uri = uri *)
Definition flag_posts (set_flag : cached_post -> cached_post) (uri : string)
  (rows : list cached_post) : list cached_post :=
  map (fun p => if (at_uri p =? uri)%string then set_flag p else p) rows.

(** SELECT author_did FROM cached_posts WHERE at_uri = uri *)
Definition authors_of (uri : string) (rows : list cached_post)
  : list (option string) :=
  map author_did (filter (fun p => (at_uri p =? uri)%string) rows).

(** UPDATE cached_profiles SET has_interaction = TRUE WHERE did = author *)
Definition flag_author (author : option string)
  (rows : list cached_profile) : list cached_profile :=
  map (fun f => if same_text (did f) author then set_interacted f else f)
    rows.

(** The body the two trigger functions share but for the flag they set.
    The subquery is used as an expression: no row gives NULL, which equals
    no did; one row gives its author; more raise. *)
Definition mark_cached_post (set_flag : cached_post -> cached_post)
  (new : new_row) (t : tables) : outcome tables :=
  match new_subject_uri new, new_user_id new with
  | Some uri, Some _ =>
      let flagged := flag_posts set_flag uri (cached_posts t) in
      match authors_of uri flagged with
      | [] => Done (mkTables flagged (cached_profiles t))
      | [author] =>
          Done (mkTables flagged (flag_author author (cached_profiles t)))
      | _ => Raised cardinality_violation
      end
  | _, _ => Done t
  end.

Definition mark_cached_post_liked : new_row -> tables -> outcome tables :=
  mark_cached_post set_like.

Definition mark_cached_post_reposted : new_row -> tables -> outcome tables :=
  mark_cached_post set_repost.

Section Counting.

(** The largest value the integer type of access_count holds. *)
Variable max_count : Z.

Definition overflows (p : cached_post) : bool :=
  match access_count p with
  | Some n => max_count <? n + 1
  | None => false
  end.

Definition touched (now : Z) (p : cached_post) : cached_post :=
  mkPostRow (at_uri p) (author_did p) (Some now)
    (option_map (fun n => n + 1) (access_count p))
    (has_cannect_like p) (has_cannect_repost p).

(** UPDATE cached_posts SET last_accessed_at = NOW(),
    access_count = access_count + 1 WHERE hit; NOW() is the time the
    transaction began. *)
Definition touch (now : Z) (hit : cached_post -> bool) (t : tables)
  : outcome tables :=
  if existsb (fun p => hit p && overflows p) (cached_posts t)
  then Raised numeric_value_out_of_range
  else Done (mkTables
               (map (fun p => if hit p then touched now p else p)
                  (cached_posts t))
               (cached_profiles t)).

Definition touch_cached_post (now : Z) (post_uri : option string)
  : tables -> outcome tables :=
  touch now (fun p => same_text (Some (at_uri p)) post_uri).

(** [at_uri = ANY(post_uris)]: some element of the array equals at_uri; a
    NULL array has none. *)
Definition any_of (post_uris : option (list (option string)))
  (p : cached_post) : bool :=
  match post_uris with
  | Some uris => existsb (same_text (Some (at_uri p))) uris
  | None => false
  end.

Definition touch_cached_posts (now : Z)
  (post_uris : option (list (option string))) : tables -> outcome tables :=
  touch now (any_of post_uris).

(** One call of touch_cached_post for each of the URIs, in turn. *)
Definition touch_each (now : Z) (uris : list (option string)) (t : tables)
  : outcome tables :=
  fold_left (fun r u => and_then r (touch_cached_post now u)) uris (Done t).

End Counting.

(** UPDATE cached_profiles SET description = bio
    WHERE description IS NULL AND bio IS NOT NULL *)
Definition backfill_description (t : tables) : tables :=
  mkTables (cached_posts t)
    (map (fun f =>
            match description f, bio f with
            | None, Some b =>
                mkProfileRow (did f) (has_interaction f) (bio f) (Some b)
            | _, _ => f
            end)
       (cached_profiles t)).

(** One row after for each row before, in the same order, related as [R]
    says. *)
Definition rowwise {A} (R : A -> A -> Prop) (before after : list A) : Prop :=
  Forall2 R before after.

(** What a mark may do to a post of the cache and to a profile of it. *)
Definition post_marked (set_flag : cached_post -> cached_post)
  (new : new_row) (p p' : cached_post) : Prop :=
  p' = p \/
  (new_subject_uri new = Some (at_uri p) /\ new_user_id new <> None /\
   p' = set_flag p).

Definition author_marked (new : new_row) (t : tables)
  (f f' : cached_profile) : Prop :=
  f' = f \/
  (f' = set_interacted f /\ did f <> None /\ new_user_id new <> None /\
   exists p, In p (cached_posts t) /\
             new_subject_uri new = Some (at_uri p) /\
             author_did p = did f).

(** What the backfill may do to a profile. *)
Definition backfilled (f f' : cached_profile) : Prop :=
  did f' = did f /\ has_interaction f' = has_interaction f /\
  bio f' = bio f /\
  (description f <> None -> description f' = description f) /\
  (description f = None -> description f' = bio f).

End Cached.

(* ===================================================================== *)
(** ** What the properties observe *)
(* ===================================================================== *)

(** The mirror records and the rows that carry the aggregate counters. *)
Definition core (s : state) : list post * list profile * list interaction :=
  (posts s, profiles s, federated_interactions s).

(** How many mirror records carry the key. *)
Definition count_key (k : string) (s : state) : nat :=
  List.length (interactions_eq_at_uri k s).

(** The aggregate counter of an interaction type, row by row. *)
Definition counter (kind : interaction_type) (s : state) : list (string * Z) :=
  match kind with
  | like => map (fun p => (post_id p, likes_count p)) (posts s)
  | repost => map (fun p => (post_id p, reposts_count p)) (posts s)
  | reply => map (fun p => (post_id p, replies_count p)) (posts s)
  | quote => map (fun p => (post_id p, quotes_count p)) (posts s)
  | follow => map (fun p => (profile_id p, followers_count p)) (profiles s)
  end.

(** One increment of the counter of the row [id]. *)
Definition bump (id : string) (c : list (string * Z)) : list (string * Z) :=
  map (fun x => if (fst x =? id)%string then (fst x, snd x + 1) else x) c.

Definition collection_of (kind : interaction_type) : string :=
  match kind with
  | like => "app.bsky.feed.like"
  | repost => "app.bsky.feed.repost"
  | reply | quote => "app.bsky.feed.post"
  | follow => "app.bsky.graph.follow"
  end.

(** The idempotency key of an event taken as an interaction of a type: the
    URI of the external record, and for a quote the same with "#quote". *)
Definition event_key (kind : interaction_type) (event : value) : string :=
  let uri := interaction_uri (oget event "did") (collection_of kind)
               (oget (oget event "commit") "rkey") in
  match kind with
  | quote => uri ++ "#quote"
  | _ => uri
  end.

Definition event_collection (event : value) : value :=
  oget (oget event "commit") "collection".

Definition event_operation (event : value) : value :=
  oget (oget event "commit") "operation".

Definition event_record (event : value) : value :=
  oget (oget event "commit") "record".

(** A create event of the collection that carries the interaction type. *)
Definition is_create_of (kind : interaction_type) (event : value) : bool :=
  is_str (event_collection event) (collection_of kind)
  && is_str (event_operation event) "create".

(** The four references of an event into the network. *)
Definition subject_uri (event : value) : value :=
  oget (oget (event_record event) "subject") "uri".
Definition parent_uri (event : value) : value :=
  oget (oget (oget (event_record event) "reply") "parent") "uri".
Definition root_uri (event : value) : value :=
  oget (oget (oget (event_record event) "reply") "root") "uri".
Definition quoted_uri (event : value) : value :=
  oget (oget (oget (event_record event) "embed") "record") "uri".

(** A reference lies in the local namespace when it names the local
    domain; a list of references, when the domain is one of them. *)
Definition in_local_namespace (ref : value) : bool :=
  match ref with
  | Str s => str_includes s CANNECT_DOMAIN
  | Arr items => existsb (fun x => is_str x CANNECT_DOMAIN) items
  | _ => false
  end.

(** What the first statement of the try block comes to: the position
    after it, or the throw. *)
Definition moved (E : env) (event latest : value) : result value :=
  time_us <~ get event "time_us" ;; advance E time_us latest.

(** The position after the turn of an event: where a throw left it, or
    where the comparison put it. *)
Definition position_after (E : env) (event latest : value) : value :=
  match moved E event latest with
  | Ok position => position
  | Throw _ => latest
  end.

(** The position after a batch. *)
Definition furthest (E : env) (events : list value) (start : value) : value :=
  fold_left (fun latest event => position_after E event latest) events start.

(** The time an event carries: its time_us when that is an integer other
    than 0. *)
Definition time_of (event : value) : option Z :=
  match oget event "time_us" with
  | Num n => if n =? 0 then None else Some n
  | _ => None
  end.

Definition times (events : list value) : list Z :=
  flat_map (fun event => match time_of event with
                         | Some n => [n]
                         | None => []
                         end) events.

(** The latest of a starting position and of times. *)
Definition latest_of (times : list Z) (start : Z) : Z :=
  fold_left Z.max times start.

(** A value can be made primitive. *)
Definition convertible (v : value) : bool :=
  match to_primitive v with Ok _ => true | Throw _ => false end.

(** A time_us the comparison takes as a number, or does not look at: an
    integer, or a value that is absent, null, false or empty. *)
Definition plain_time (event : value) : bool :=
  match oget event "time_us" with
  | Num _ => true
  | other => negb (truthy other)
  end.

(** The try block of the loop throws on the event. *)
Definition raises (E : env) (event : value) (s : state) : Prop :=
  exists e, eval (attempt E event) s = Throw e.

(** The position the cycle starts from: the stored one, or the clock's
    when the stored one is 0. *)
Definition start_cursor (E : env) (row : cursor_row) (s : state) : Z :=
  if cursor_time_us row =? 0 then clock E (S (ticks s)) * 1000
  else cursor_time_us row.

(** What one turn of the loop does besides moving the position: by how much
    the count of processed events grows, and the state it leaves. *)
Definition effect_one (E : env) (event latest : value) (s : state)
  : Z * state :=
  match moved E event latest with
  | Throw _ => (0, s)
  | Ok _ =>
      match attempt E event s with
      | (Ok true, s') => (1, s')
      | (_, s') => (0, s')
      end
  end.

Fixpoint effect_all (E : env) (events : list value) (latest : value)
  (s : state) : Z * state :=
  match events with
  | [] => (0, s)
  | event :: rest =>
      let '(d, s') := effect_one E event latest s in
      let '(n, s'') := effect_all E rest (position_after E event latest) s' in
      (d + n, s'')
  end.

(** What a create event may do about its key: nothing, or, the key being
    absent, add the one record that carries it and increment the counter of
    one row. *)
Definition applied_at_most_once
  (k : string) (kind : interaction_type) (s s1 : state) : Prop :=
  (interactions_eq_at_uri k s1 = interactions_eq_at_uri k s
   /\ counter kind s1 = counter kind s)
  \/ (interactions_eq_at_uri k s = []
      /\ (exists r, interactions_eq_at_uri k s1 = [r])
      /\ exists id, counter kind s1 = bump id (counter kind s)).

(** A computation leaves an observation of the state as it was, whether it
    returns or throws. *)
Definition keeps {X A} (f : state -> X) (c : M A) : Prop :=
  forall s, f (snd (c s)) = f s.

(** What the request to the stream comes to: a batch of events, or the
    error the cycle fails with. *)
Definition batch (E : env) (cursor : Z) : result (list value) :=
  match jetstream E cursor with
  | NetworkError AbortError => Ok []
  | NetworkError e => Throw e
  | Response false status statusText _ =>
      Throw (Error ("Jetstream error: " ++ num_to_string status ++ " "
                      ++ statusText))
  | Response true _ _ body => Ok (parseSSEEvents E body)
  end.

(** Every time_us of the batch the cycle gets, if it gets one, is plain. *)
Definition plain_batch (E : env) (row : cursor_row) (s : state) : Prop :=
  match batch E (start_cursor E row s) with
  | Ok events => forallb plain_time events = true
  | Throw _ => True
  end.

(** The state once the cycle has read its starting time and position. *)
Definition started (row : cursor_row) (s : state) : state :=
  if cursor_time_us row =? 0 then set_ticks S (set_ticks S s)
  else set_ticks S s.

(** The state a create handler leaves once its insert was accepted: the
    row added, the counter of the target incremented, the owner notified. *)
Definition created (E : env) (kind : interaction_type) (r : interaction)
  (id user : string) (actorDid : value) (reason : string)
  (postId : option string) (s : state) : state :=
  exec (createExternalNotification E user actorDid reason postId)
    (exec (adjust kind incr id)
       (set_interactions (fun t => (t ++ [r])%list) s)).

(** What a create handler does in all: nothing, or, the lookup of the key
    having found no row, what [created] says for a row with that key. *)
Definition nothing_or_created (E : env) (kind : interaction_type)
  (k : string) (actorDid : value) (s s1 : state) : Prop :=
  s1 = s
  \/ (maybeSingle (interactions_eq_at_uri k s) = None
      /\ exists r id user reason postId,
           i_at_uri r = k
           /\ s1 = created E kind r id user actorDid reason postId s).

(** The cache has no entry for the actor, or one that has reached the
    time-to-live. *)
Definition stale (E : env) (did : value) (s : state) : Prop :=
  match maybeSingle (cache_eq_did did s) with
  | Some c => PROFILE_CACHE_TTL_MS <= clock E (ticks s) - c_cached_at c
  | None => True
  end.

(** The lookup at the public API fails: the request throws, the response
    is not OK, or its body does not parse. *)
Definition lookup_fails (E : env) (did : value) : Prop :=
  match profile_api E (to_string did) with
  | NetworkError _ => True
  | Response false _ _ _ => True
  | Response true _ _ body =>
      match json_parse E body with Throw _ => True | Ok _ => False end
  end.

(** What holds of two writers on one key at every moment: they have not
    both inserted; the records under the key are those there at the start
    and one for each writer that inserted; the counter has one increment
    for each writer that incremented. *)
Definition race_invariant (target : post) (actorDid rkey : value)
  (s0 : state) (c : Race.config) : Prop :=
  let '(s, a, b) := c in
  Race.inserted a && Race.inserted b = false
  /\ count_key (Race.key actorDid rkey) s
     = (count_key (Race.key actorDid rkey) s0
        + Nat.b2n (Race.inserted a) + Nat.b2n (Race.inserted b))%nat
  /\ counter like s
     = Nat.iter (Nat.b2n (Race.bumped a) + Nat.b2n (Race.bumped b))
         (bump (post_id target)) (counter like s0).

(** The key is a key: no two mirror records carry the same at_uri. *)
Definition keys_unique (s : state) : Prop :=
  forall k, (count_key k s <= 1)%nat.

(** The line feed that separates the lines of the stream's text. *)
Definition LF : string := String "010"%char "".

Fixpoint free_of_LF (line : string) : bool :=
  match line with
  | EmptyString => true
  | String c rest => negb (Ascii.eqb c "010"%char) && free_of_LF rest
  end.

(** What JSON.parse makes of one payload: the event, or nothing. *)
Definition parsed (E : env) (payload : string) : list value :=
  match json_parse E payload with
  | Ok v => [v]
  | Throw _ => []
  end.

(** A delete event of the collection that carries the interaction type. *)
Definition is_delete_of (kind : interaction_type) (event : value) : bool :=
  is_str (event_collection event) (collection_of kind)
  && is_str (event_operation event) "delete".

(** The state a delete handler leaves once its subject is resolved: the
    rows under the key gone, the counter of the target decremented. *)
Definition deleted (kind : interaction_type) (k id : string) (s : state) : state :=
  exec (adjust kind decr id) (snd (delete_interactions k s)).

(** What a handler of likes, reposts or follows does in all. *)
Definition handler_effect (E : env) (kind : interaction_type) (k : string)
  (actorDid : value) (s s1 : state) : Prop :=
  nothing_or_created E kind k actorDid s s1
  \/ exists id, s1 = deleted kind k id s.

(** No row's counter of the interaction type is negative. *)
Definition counters_nonnegative (kind : interaction_type) (s : state) : Prop :=
  Forall (fun x => 0 <= snd x) (counter kind s).

(** The reference an interaction of a type follows: the subject of a
    like or a repost, the parent of a reply, the record a quote embeds, the
    subject of a follow. *)
Definition reference (kind : interaction_type) (event : value) : value :=
  match kind with
  | like | repost => subject_uri event
  | reply => parent_uri event
  | quote => quoted_uri event
  | follow => oget (event_record event) "subject"
  end.

(** The reference is one the handler follows: it names the local domain,
    or, for a follow, it is there. *)
Definition names_local (kind : interaction_type) (event : value) : bool :=
  match kind with
  | follow => truthy (reference follow event)
  | _ => in_local_namespace (reference kind event)
  end.

(** The id of the row the interaction is counted on: the one post the
    reference selects, or, for a follow, the one profile. *)
Definition target_of (kind : interaction_type) (event : value) (s : state)
  : option string :=
  match kind with
  | follow =>
      option_map profile_id
        (single (profiles_eq_did (reference follow event) s))
  | _ =>
      option_map post_id (single (posts_eq_at_uri (reference kind event) s))
  end.

(** The row a mirror record points to. *)
Definition counted_on (r : interaction) : option string :=
  match i_type r with
  | follow => i_target_user_id r
  | _ => i_post_id r
  end.

(** The table refuses no row whose key is new. *)
Definition accepts_new_keys (E : env) : Prop :=
  forall table row,
    existsb (has_at_uri (i_at_uri row)) table = false ->
    constraints_ok E table row = true.

(** A text, or nothing. *)
Definition plain_text (v : value) : bool :=
  match v with
  | Undefined | Null | Str _ => true
  | _ => false
  end.

(** What a post event needs for the half of handlePostEvent that mirrors
    the interaction to be reached and to get to its insert: the text of
    the post is a text or is absent; and, for the quote, which comes
    second, the reply half ends without a throw, as it does when the actor
    is a text and the parent is a text, a list or absent. *)
Definition well_formed (kind : interaction_type) (event : value) : bool :=
  match kind with
  | reply => plain_text (oget (event_record event) "text")
  | quote =>
      plain_text (oget (event_record event) "text")
      && match oget event "did" with Str _ => true | _ => false end
      && match parent_uri event with
         | Undefined | Null | Str _ | Arr _ => true
         | _ => false
         end
  | _ => true
  end.

(* ===================================================================== *)
(** ** Sample data *)
(* ===================================================================== *)

Module Sample.

Definition local_post_uri : string :=
  "at://did:web:alice.cannect.space/app.bsky.feed.post/3kabc".

Definition post1 : post :=
  mkPost "post-1" "user-alice" (Some local_post_uri) 5 0 0 0.

Definition alice : profile :=
  mkProfile "user-alice" (Some "did:web:alice.cannect.space") 3.

Definition store : state :=
  mkState [post1] [alice] [] [] [] (Some (mkCursor 100 0 None 0)) [] 0.

Definition commit_event (did : string) (time_us : Z)
  (collection operation rkey : string) (record : value) : value :=
  Obj [("did", Str did); ("time_us", Num time_us); ("kind", Str "commit");
       ("commit", Obj [("operation", Str operation);
                       ("collection", Str collection);
                       ("rkey", Str rkey);
                       ("record", record)])].

Definition on_subject (uri : value) : value :=
  Obj [("subject", Obj [("uri", uri)])].

Definition like_create : value :=
  commit_event "did:plc:bob" 200 "app.bsky.feed.like" "create" "3kl1"
    (on_subject (Str local_post_uri)).

(** A retraction that names its subject. *)
Definition like_delete : value :=
  commit_event "did:plc:bob" 300 "app.bsky.feed.like" "delete" "3kl1"
    (on_subject (Str local_post_uri)).

(** A retraction as the stream sends it: no record. *)
Definition bare_delete : value :=
  Obj [("did", Str "did:plc:bob"); ("time_us", Num 300); ("kind", Str "commit");
       ("commit", Obj [("operation", Str "delete");
                       ("collection", Str "app.bsky.feed.like");
                       ("rkey", Str "3kl1")])].

(** A like whose subject URI is a number: [includes] is not a function. *)
Definition malformed : value :=
  commit_event "did:plc:carol" 250 "app.bsky.feed.like" "create" "3kl2"
    (on_subject (Num 5)).

(** A post that refers to nothing local. *)
Definition elsewhere : value :=
  commit_event "did:plc:dave" 300 "app.bsky.feed.post" "create" "3kp1"
    (Obj [("text", Str "hello")]).

Definition follow_create : value :=
  commit_event "did:plc:bob" 400 "app.bsky.graph.follow" "create" "3kf1"
    (Obj [("subject", Str "did:web:alice.cannect.space")]).

Definition bob_profile : value :=
  Obj [("did", Str "did:plc:bob"); ("handle", Str "bob.bsky.social");
       ("displayName", Str "Bob"); ("avatar", Str "https://cdn/bob.jpg")].

(** A post that replies to the local post and quotes it. *)
Definition reply_and_quote : value :=
  commit_event "did:plc:bob" 500 "app.bsky.feed.post" "create" "3kp2"
    (Obj [("text", Str "see this");
          ("createdAt", Str "2025-12-19T10:00:00Z");
          ("reply", Obj [("parent", Obj [("uri", Str local_post_uri)]);
                         ("root", Obj [("uri", Str local_post_uri)])]);
          ("embed", Obj [("record", Obj [("uri", Str local_post_uri)])])]).

(** An account event, which no handler looks at, with its time as the
    stream gave it. *)
Definition account_event (time_us : value) : value :=
  Obj [("did", Str "did:plc:dave"); ("time_us", time_us);
       ("kind", Str "account")].

(** Payloads are named, not spelled out. *)
Definition decode (payload : string) : result value :=
  if (payload =? "like-create")%string then Ok like_create
  else if (payload =? "account-at-text-1000")%string
  then Ok (account_event (Str "1000"))
  else if (payload =? "account-at-text-2")%string
  then Ok (account_event (Str "2"))
  else if (payload =? "account-at-3")%string
  then Ok (account_event (Num 3))
  else if (payload =? "like-delete")%string then Ok like_delete
  else if (payload =? "malformed")%string then Ok malformed
  else if (payload =? "elsewhere")%string then Ok elsewhere
  else if (payload =? "bob")%string then Ok bob_profile
  else Throw (SyntaxError "Unexpected token").

Definition newline : string := String "010"%char "".

Definition unconstrained (table : list interaction) (r : interaction) : bool :=
  true.

Definition unique_key (table : list interaction) (r : interaction) : bool :=
  negb (existsb (has_at_uri (i_at_uri r)) table).

Definition wall_clock (n : nat) : Z := 1700000000000 + Z.of_nat n.

(** The integer a short run of decimal digits spells. *)
Fixpoint digits (text : string) (sofar : Z) : option Z :=
  match text with
  | EmptyString => Some sofar
  | String c rest =>
      let d := Z.of_nat (nat_of_ascii c) - 48 in
      if (0 <=? d) && (d <=? 9) then digits rest (10 * sofar + d) else None
  end.

Definition spelled (text : string) : option Z :=
  if (text =? "")%string || (15 <? String.length text)%nat then None
  else digits text 0.

(** The conversion of the texts that occur below, which are runs of up
    to fifteen digits: such a run is the integer it spells, and the empty
    text is 0. *)
Definition number_of (text : string) : number :=
  if (text =? "")%string then integer 0
  else match spelled text with Some n => integer n | None => NaN end.

(** No profile is found; the stream answers as given. *)
Definition world (stream : http) : env :=
  mkEnv wall_clock decode number_of unconstrained spelled
    (fun _ => Response false 404 "Not Found" "") (fun _ => stream).

Definition timeout : http := NetworkError AbortError.

Definition unreachable : http := NetworkError (TypeError "fetch failed").

(** A batch of three: a like that applies, a like that throws, a post
    that is not relevant. *)
Definition three_events : http :=
  Response true 200 "OK"
    ("data: like-create" ++ newline ++ "data: malformed" ++ newline
       ++ "data: elsewhere").

(** A batch of three whose times are the texts "1000" and "2" and the
    number 3. *)
Definition text_times : http :=
  Response true 200 "OK"
    ("data: account-at-text-1000" ++ newline ++ "data: account-at-text-2"
       ++ newline ++ "data: account-at-3").

(** The public API knows bob. *)
Definition world_with_bob : env :=
  mkEnv wall_clock decode number_of unique_key spelled
    (fun did => if (did =? "did:plc:bob")%string
                then Response true 200 "OK" "bob"
                else Response false 404 "Not Found" "")
    (fun _ => timeout).

(** Two writers taking turns, request by request. *)
Definition taking_turns : list bool :=
  [true; false; true; false; true; false; true; false].

(** A PDS that cannot be reached, and carol's session with it. *)
Definition pds_down : Outbound.pds :=
  Outbound.mkPds (fun _ _ _ => Outbound.Failed Outbound.NetworkFailure)
    (fun _ => None).

Definition carol : Outbound.session :=
  Outbound.mkSession "user-carol" "did:web:carol.cannect.space" "jwt-1".

Definition agent : Outbound.agent_state :=
  Outbound.mkAgent store [carol].

(** A cache of two posts of the same author and of that author's
    profile. *)
Definition cached_one : Cached.cached_post :=
  Cached.mkPostRow "at://did:plc:bob/app.bsky.feed.post/1"
    (Some "did:plc:bob") (Some 5) (Some 2) None (Some false).

Definition cached_two : Cached.cached_post :=
  Cached.mkPostRow "at://did:plc:bob/app.bsky.feed.post/2"
    (Some "did:plc:bob") None (Some 0) (Some false) None.

Definition cached_bob : Cached.cached_profile :=
  Cached.mkProfileRow (Some "did:plc:bob") (Some false) (Some "gardener")
    None.

Definition cache : Cached.tables :=
  Cached.mkTables [cached_one; cached_two] [cached_bob].

Definition liking : Cached.new_row :=
  Cached.mkNew (Some "at://did:plc:bob/app.bsky.feed.post/1")
    (Some "user-1").

End Sample.

(* ===================================================================== *)
(** ** Properties *)
(* ===================================================================== *)

(** *** JavaScript values *)

Lemma get_oget v k : nullish v = false -> get v k = Ok (oget v k).
Proof. destruct v; simpl; intros H; try discriminate; reflexivity. Qed.

Lemma truthy_not_nullish v : truthy v = true -> nullish v = false.
Proof. destruct v; simpl; intros H; try discriminate; reflexivity. Qed.

Lemma get_truthy v k : truthy v = true -> get v k = Ok (oget v k).
Proof. intros H. apply get_oget, truthy_not_nullish, H. Qed.

Lemma oget_truthy_obj v k :
  truthy (oget v k) = true -> exists fields, v = Obj fields.
Proof. destruct v; simpl; intros H; try discriminate. eauto. Qed.

Lemma is_str_eq v lit : is_str v lit = true -> v = Str lit.
Proof.
  destruct v; simpl; intros H; try discriminate.
  apply String.eqb_eq in H. now subst.
Qed.

Lemma oincludes_local v :
  oincludes v CANNECT_DOMAIN = Ok true -> in_local_namespace v = true.
Proof.
  unfold oincludes, includes, in_local_namespace.
  destruct v; simpl; intros H; try discriminate; now inversion H.
Qed.

Lemma includes_local v :
  includes v CANNECT_DOMAIN = Ok true -> in_local_namespace v = true.
Proof.
  unfold includes, in_local_namespace.
  destruct v; simpl; intros H; try discriminate; now inversion H.
Qed.

(** *** The relevance filter *)

(** The filter says yes only for one of its five reasons. *)
Lemma isRelevantToCannect_true event :
  isRelevantToCannect event = Ok true ->
  in_local_namespace (subject_uri event) = true
  \/ in_local_namespace (parent_uri event) = true
  \/ in_local_namespace (root_uri event) = true
  \/ in_local_namespace (quoted_uri event) = true
  \/ is_str (event_collection event) "app.bsky.graph.follow" = true.
Proof.
  unfold isRelevantToCannect, subject_uri, parent_uri, root_uri, quoted_uri,
    event_collection, event_record.
  destruct event as [ | | b | n | str | items | fields]; simpl; try discriminate.
  set (commit := lookup "commit" fields).
  destruct (is_str (lookup "kind" fields) "commit"); simpl; try discriminate.
  destruct (truthy commit) eqn:Hc; simpl; try discriminate.
  rewrite (get_truthy _ "record" Hc). simpl.
  set (record := oget commit "record").
  destruct (truthy record) eqn:Hr; simpl; try discriminate.
  rewrite !(get_truthy record _ Hr). simpl.
  destruct (oincludes (oget (oget record "subject") "uri") CANNECT_DOMAIN)
    as [[|]|] eqn:H1; simpl; try discriminate.
  { intros _. left. now apply oincludes_local. }
  destruct (oincludes (oget (oget (oget record "reply") "parent") "uri")
              CANNECT_DOMAIN) as [[|]|] eqn:H2; simpl; try discriminate.
  { intros _. right; left. now apply oincludes_local. }
  destruct (oincludes (oget (oget (oget record "reply") "root") "uri")
              CANNECT_DOMAIN) as [[|]|] eqn:H3; simpl; try discriminate.
  { intros _. right; right; left. now apply oincludes_local. }
  destruct (oincludes (oget (oget (oget record "embed") "record") "uri")
              CANNECT_DOMAIN) as [[|]|] eqn:H4; simpl; try discriminate.
  { intros _. right; right; right; left. now apply oincludes_local. }
  rewrite (get_truthy _ "collection" Hc). simpl.
  destruct (is_str (oget commit "collection") "app.bsky.graph.follow") eqn:H5;
    try discriminate.
  intros _. right; right; right; right. reflexivity.
Qed.

(** *** The loop over a batch *)

(** A turn of the loop puts the position where [position_after] says and
    does to the count and the state what [effect_one] says. *)
Lemma process_one_effect E event acc s :
  process_one E event acc s =
  (Ok (position_after E event (fst acc),
       snd acc + fst (effect_one E event (fst acc) s)),
   snd (effect_one E event (fst acc) s)).
Proof.
  destruct acc as [latest count].
  unfold process_one, effect_one, position_after, moved. cbn [fst snd].
  destruct (rbind (get event "time_us") (fun t => advance E t latest))
    as [position|e].
  - unfold try_catch, bind, ret.
    destruct (attempt E event s) as [[[|]|e] s']; simpl;
      rewrite ?Z.add_0_r; reflexivity.
  - unfold ret. simpl. rewrite Z.add_0_r. reflexivity.
Qed.

Lemma process_all_effect E events : forall acc s,
  process_all E events acc s =
  (Ok (furthest E events (fst acc),
       snd acc + fst (effect_all E events (fst acc) s)),
   snd (effect_all E events (fst acc) s)).
Proof.
  induction events as [|event rest IH]; intros acc s; simpl.
  - unfold ret. rewrite Z.add_0_r. now destruct acc.
  - unfold bind. rewrite process_one_effect, IH. cbn [fst snd].
    destruct (effect_one E event (fst acc) s) as [d s']. cbn [fst snd].
    destruct (effect_all E rest (position_after E event (fst acc)) s')
      as [n s'']. cbn [fst snd].
    now rewrite Z.add_assoc.
Qed.

(** *** The position *)

Lemma text_of_primitive v :
  match v with Arr _ | Obj _ => False | _ => True end ->
  to_primitive v = Ok v.
Proof. destruct v; simpl; intros H; try contradiction; reflexivity. Qed.

Lemma greater_integers f n m :
  greater f (Num n) (Num m) = Ok (m <? n).
Proof.
  unfold greater, to_primitive, rbind, to_number, integer, number_ltb.
  now rewrite !Z.mul_1_r.
Qed.

(** Whether the first statement throws depends on the position only
    through whether it can be made primitive. *)
Lemma moved_ok E event latest :
  (exists position, moved E event latest = Ok position)
  <-> nullish event = false
      /\ (truthy (oget event "time_us") = false
          \/ convertible (oget event "time_us") = true
             /\ convertible latest = true).
Proof.
  unfold moved, advance, greater, convertible.
  destruct (nullish event) eqn:Hn.
  - split; [|intros [H _]; discriminate].
    intros [position H]. destruct event; try discriminate; simpl in H;
      discriminate.
  - rewrite (get_oget event "time_us" Hn). cbn [rbind].
    destruct (truthy (oget event "time_us")).
    + destruct (to_primitive (oget event "time_us")) as [pt|e];
        cbn [rbind].
      * destruct (to_primitive latest) as [pl|e]; cbn [rbind].
        -- split; [intros _; split; [reflexivity|right; now split]|].
           intros _. eexists. reflexivity.
        -- split; [intros [position H]; discriminate|].
           intros [_ [H|[_ H]]]; discriminate.
      * split; [intros [position H]; discriminate|].
        intros [_ [H|[H _]]]; discriminate.
    + split; [intros _; split; [reflexivity|now left]|].
      intros _. eexists. reflexivity.
Qed.

Lemma moved_position E event latest position :
  moved E event latest = Ok position ->
  position = latest
  \/ position = oget event "time_us"
     /\ truthy position = true
     /\ greater (string_to_number E) position latest = Ok true.
Proof.
  unfold moved, advance.
  destruct (nullish event) eqn:Hn.
  { destruct event; try discriminate; simpl; discriminate. }
  rewrite (get_oget event "time_us" Hn). cbn [rbind].
  destruct (truthy (oget event "time_us")) eqn:Ht.
  - destruct (greater _ _ _) as [[|]|e] eqn:Hg; cbn [rbind];
      intros H; inversion H; subst; auto.
  - intros H. inversion H. now left.
Qed.

Lemma greater_convertible f a b later :
  greater f a b = Ok later -> convertible a = true /\ convertible b = true.
Proof.
  unfold greater, convertible.
  destruct (to_primitive a); cbn [rbind]; [|discriminate].
  destruct (to_primitive b); cbn [rbind]; [|discriminate].
  now split.
Qed.

Lemma position_after_convertible E event latest :
  convertible (position_after E event latest) = convertible latest.
Proof.
  unfold position_after.
  destruct (moved E event latest) as [position|e] eqn:Hm; [|reflexivity].
  destruct (moved_position E event latest position Hm) as [->|[_ [_ Hg]]];
    [reflexivity|].
  apply greater_convertible in Hg. destruct Hg as [-> ->]. reflexivity.
Qed.

Lemma moved_same_outcome E event latest latest' :
  convertible latest = convertible latest' ->
  match moved E event latest, moved E event latest' with
  | Ok _, Ok _ | Throw _, Throw _ => True
  | _, _ => False
  end.
Proof.
  intros Hc.
  pose proof (moved_ok E event latest) as H1.
  pose proof (moved_ok E event latest') as H2.
  rewrite <- Hc in H2.
  destruct (moved E event latest) as [p|e], (moved E event latest') as [p'|e'];
    try exact I.
  - destruct (proj2 H2 (proj1 H1 (ex_intro _ p eq_refl))) as [x Hx].
    discriminate.
  - destruct (proj2 H1 (proj1 H2 (ex_intro _ p' eq_refl))) as [x Hx].
    discriminate.
Qed.

Lemma effect_one_position E event latest latest' s :
  convertible latest = convertible latest' ->
  effect_one E event latest s = effect_one E event latest' s.
Proof.
  intros Hc. unfold effect_one.
  pose proof (moved_same_outcome E event latest latest' Hc) as H.
  destruct (moved E event latest), (moved E event latest');
    try contradiction; reflexivity.
Qed.

Lemma effect_all_position E events : forall latest latest' s,
  convertible latest = convertible latest' ->
  effect_all E events latest s = effect_all E events latest' s.
Proof.
  induction events as [|event rest IH]; intros latest latest' s Hc;
    [reflexivity|].
  cbn [effect_all].
  rewrite (effect_one_position E event latest latest' s Hc).
  destruct (effect_one E event latest' s) as [d s'].
  rewrite (IH (position_after E event latest)
              (position_after E event latest') s').
  - reflexivity.
  - now rewrite !position_after_convertible.
Qed.

(** With a plain time the comparison is one of integers: the position
    after the turn is the later of the position and the event's time. *)
Lemma position_after_plain E event latest :
  plain_time event = true ->
  position_after E event (Num latest)
  = Num (match time_of event with
         | Some n => Z.max latest n
         | None => latest
         end).
Proof.
  unfold plain_time, time_of, position_after, moved, advance.
  destruct (nullish event) eqn:Hn.
  { destruct event; try discriminate; reflexivity. }
  rewrite (get_oget event "time_us" Hn). cbn [rbind].
  destruct (oget event "time_us") as [ | |b|n|str|items|fields] eqn:Ht;
    cbn [truthy negb]; intros Hp; try discriminate; try reflexivity.
  - destruct b; [discriminate|reflexivity].
  - destruct (n =? 0) eqn:H0; cbn [negb]; [reflexivity|].
    rewrite greater_integers. cbn [rbind].
    destruct (latest <? n) eqn:Hlt.
    + apply Z.ltb_lt in Hlt. f_equal. lia.
    + apply Z.ltb_ge in Hlt. f_equal. lia.
  - destruct (str =? "")%string; [reflexivity|discriminate].
Qed.

Lemma furthest_plain E events : forall start,
  forallb plain_time events = true ->
  furthest E events (Num start) = Num (latest_of (times events) start).
Proof.
  unfold furthest, latest_of, times.
  induction events as [|event rest IH]; intros start Hp; [reflexivity|].
  cbn [forallb] in Hp. apply andb_prop in Hp. destruct Hp as [Hp Hrest].
  cbn [fold_left flat_map]. rewrite position_after_plain by exact Hp.
  rewrite IH by exact Hrest. rewrite fold_left_app.
  destruct (time_of event); reflexivity.
Qed.

Lemma latest_of_le times : forall start, start <= latest_of times start.
Proof.
  unfold latest_of.
  induction times as [|n rest IH]; intros start; simpl; [lia|].
  specialize (IH (Z.max start n)). lia.
Qed.

Lemma latest_of_ge times : forall start n,
  In n times -> n <= latest_of times start.
Proof.
  unfold latest_of.
  induction times as [|m rest IH]; intros start n Hin; simpl in *;
    [contradiction|].
  destruct Hin as [->|Hin].
  - pose proof (latest_of_le rest (Z.max start n)) as H.
    unfold latest_of in H. lia.
  - now apply IH.
Qed.

Lemma time_in_times events event n :
  In event events -> oget event "time_us" = Num n -> n <> 0 ->
  In n (times events).
Proof.
  intros Hin Ht Hn. unfold times. apply in_flat_map.
  exists event. split; [exact Hin|].
  unfold time_of. rewrite Ht.
  destruct (n =? 0) eqn:H0; [apply Z.eqb_eq in H0; contradiction|].
  now left.
Qed.

Lemma effect_all_app E before : forall after latest s,
  effect_all E (before ++ after) latest s =
  (fst (effect_all E before latest s)
   + fst (effect_all E after (furthest E before latest)
            (snd (effect_all E before latest s))),
   snd (effect_all E after (furthest E before latest)
          (snd (effect_all E before latest s)))).
Proof.
  induction before as [|event rest IH]; intros after latest s; simpl.
  - now destruct (effect_all E after latest s).
  - destruct (effect_one E event latest s) as [d s'].
    rewrite IH. simpl.
    destruct (effect_all E rest (position_after E event latest) s')
      as [n s'']. simpl.
    unfold furthest. simpl.
    destruct (effect_all E after _ s'') as [m s3]. simpl.
    now rewrite Z.add_assoc.
Qed.

(** *** Frames *)

Lemma keeps_ret {X A} (f : state -> X) (a : A) : keeps f (ret a).
Proof. intros s. reflexivity. Qed.

Lemma keeps_throw {X A} (f : state -> X) e : keeps f (@throw A e).
Proof. intros s. reflexivity. Qed.

Lemma keeps_lift {X A} (f : state -> X) (r : result A) : keeps f (lift r).
Proof. intros s. reflexivity. Qed.

Lemma keeps_gets {X A} (f : state -> X) (g : state -> A) : keeps f (gets g).
Proof. intros s. reflexivity. Qed.

Lemma keeps_bind {X A B} (f : state -> X) (c : M A) (k : A -> M B) :
  keeps f c -> (forall a, keeps f (k a)) -> keeps f (bind c k).
Proof.
  intros Hc Hk s. unfold bind. specialize (Hc s).
  destruct (c s) as [[a|e] s']; simpl in *.
  - now rewrite Hk.
  - exact Hc.
Qed.

Lemma keeps_try_catch {X A} (f : state -> X) (c : M A) (h : exn -> M A) :
  keeps f c -> (forall e, keeps f (h e)) -> keeps f (try_catch c h).
Proof.
  intros Hc Hh s. unfold try_catch. specialize (Hc s).
  destruct (c s) as [[a|e] s']; simpl in *.
  - exact Hc.
  - now rewrite Hh.
Qed.

Lemma keeps_modify {X} (f : state -> X) (g : state -> state) :
  (forall s, f (g s) = f s) -> keeps f (modify g).
Proof. intros H s. apply H. Qed.

(** Splits a computation along its binds and branches, down to the
    requests, which are left as goals. *)
Ltac frame_step :=
  match goal with
  | |- keeps _ (ret _) => apply keeps_ret
  | |- keeps _ (throw _) => apply keeps_throw
  | |- keeps _ (lift _) => apply keeps_lift
  | |- keeps _ (gets _) => apply keeps_gets
  | |- keeps _ (bind _ _) => apply keeps_bind; [|intros ?]
  | |- keeps _ (try_catch _ _) => apply keeps_try_catch; [|intros ?]
  | |- keeps _ (if ?b then _ else _) => destruct b
  | |- keeps _ (match ?x with _ => _ end) => destruct x
  | |- keeps _ (let _ := _ in _) => cbv zeta
  end.

Ltac frame := repeat frame_step.

Section Frames.

Variable E : env.

Lemma now_keeps {X} (f : state -> X) :
  (forall g s, f (set_ticks g s) = f s) -> keeps f (now E).
Proof. intros H s. apply H. Qed.

(** Resolving a profile touches the cache, the log of lookups and the
    clock. *)
Lemma getBlueskyProfile_keeps {X} (f : state -> X) did :
  (forall g s, f (set_ticks g s) = f s) ->
  (forall g s, f (set_cache g s) = f s) ->
  (forall g s, f (set_lookups g s) = f s) ->
  keeps f (getBlueskyProfile E did).
Proof.
  intros Ht Hc Hl. unfold getBlueskyProfile. frame;
    try (apply now_keeps; assumption).
  - intros st. unfold fetch_profile.
    destruct (profile_api E (to_string did)); simpl; apply Hl.
  - unfold upsert_cache. apply keeps_modify. intros st. apply Hc.
Qed.

Lemma createExternalNotification_keeps {X} (f : state -> X) user did reason p :
  (forall g s, f (set_ticks g s) = f s) ->
  (forall g s, f (set_cache g s) = f s) ->
  (forall g s, f (set_lookups g s) = f s) ->
  (forall g s, f (set_notifications g s) = f s) ->
  keeps f (createExternalNotification E user did reason p).
Proof.
  intros Ht Hc Hl Hn. unfold createExternalNotification. frame.
  - now apply getBlueskyProfile_keeps.
  - apply keeps_modify. intros st. apply Hn.
Qed.

Lemma insert_interaction_keeps {X} (f : state -> X) r :
  (forall g s, f (set_interactions g s) = f s) ->
  keeps f (insert_interaction E r).
Proof.
  intros H s. unfold insert_interaction.
  destruct (constraints_ok E (federated_interactions s) r); simpl; auto.
Qed.

Lemma delete_interactions_keeps {X} (f : state -> X) uri :
  (forall g s, f (set_interactions g s) = f s) ->
  keeps f (delete_interactions uri).
Proof. intros H s. apply H. Qed.

End Frames.

(** *** The cursor row belongs to the cycle *)

Section Cursor.

Variable E : env.

Ltac unfold_counters :=
  unfold increment_post_likes, decrement_post_likes, increment_post_reposts,
    decrement_post_reposts, increment_post_replies, increment_post_quotes,
    increment_profile_followers, decrement_profile_followers,
    on_post, on_profile.

Ltac requests :=
  first
    [ apply createExternalNotification_keeps; intros; reflexivity
    | apply insert_interaction_keeps; intros; reflexivity
    | apply delete_interactions_keeps; intros; reflexivity
    | unfold_counters; apply keeps_modify; intros; reflexivity ].

Lemma mirror_post_reference_keeps_cursor ref k kind increment reason did record :
  (forall id, keeps jetstream_cursor (increment id)) ->
  keeps jetstream_cursor
    (mirror_post_reference E ref k kind increment reason did record).
Proof.
  intros Hinc. unfold mirror_post_reference. frame; try requests. apply Hinc.
Qed.

Lemma processEvent_keeps_cursor event :
  keeps jetstream_cursor (processEvent E event).
Proof.
  unfold processEvent. frame.
  - unfold handleLikeEvent. frame; requests.
  - unfold handleRepostEvent. frame; requests.
  - unfold handlePostEvent. frame;
      apply mirror_post_reference_keeps_cursor; intros id; requests.
  - unfold handleFollowEvent. frame; requests.
Qed.

Lemma effect_one_keeps_cursor event latest s :
  jetstream_cursor (snd (effect_one E event latest s)) = jetstream_cursor s.
Proof.
  unfold effect_one. destruct (moved E event latest); [|reflexivity].
  assert (keeps jetstream_cursor (attempt E event)) as H.
  { unfold attempt. frame. apply processEvent_keeps_cursor. }
  specialize (H s). destruct (attempt E event s) as [[[|]|] s']; exact H.
Qed.

Lemma effect_all_keeps_cursor events : forall latest s,
  jetstream_cursor (snd (effect_all E events latest s)) = jetstream_cursor s.
Proof.
  induction events as [|event rest IH]; intros latest s; simpl;
    [reflexivity|].
  pose proof (effect_one_keeps_cursor event latest s) as H1.
  destruct (effect_one E event latest s) as [d s']. simpl in H1.
  specialize (IH (position_after E event latest) s').
  destruct (effect_all E rest _ s') as [n s'']. simpl in *.
  congruence.
Qed.

Lemma fetch_events_batch cursor s :
  fetch_events E cursor s = (batch E cursor, s).
Proof.
  unfold fetch_events, batch, try_catch, throw, ret.
  destruct (jetstream E cursor) as [e|ok status statusText body].
  - now destruct e.
  - now destruct ok.
Qed.

(** A cycle whose request to the stream yields a batch. *)
Lemma serve_batch method s row events :
  (method =? "OPTIONS")%string = false ->
  jetstream_cursor s = Some row ->
  batch E (start_cursor E row s) = Ok events ->
  let cursor := start_cursor E row s in
  let done := effect_all E events (Num cursor) (started row s) in
  let latest := furthest E events (Num cursor) in
  serve E method s =
  (Ok (Success (Z.of_nat (List.length events)) (fst done) latest
         (clock E (S (ticks (snd done))) - clock E (ticks s))),
   set_ticks S
     (match stored_position E latest with
      | Some position =>
          set_cursor
            (option_map (fun _ => mkCursor position (fst done) None
                                    (clock E (ticks (snd done)))))
            (set_ticks S (snd done))
      | None => set_ticks S (snd done)
      end)).
Proof.
  intros Hm Hrow Hbatch cursor done latest. unfold serve. rewrite Hm.
  unfold bind at 1. unfold now at 1. unfold try_catch.
  unfold bind at 1. unfold gets at 1.
  change (jetstream_cursor (set_ticks S s)) with (jetstream_cursor s).
  rewrite Hrow. unfold bind at 1.
  assert ((if cursor_time_us row =? 0
           then bind (now E) (fun t => ret (t * 1000))
           else ret (cursor_time_us row)) (set_ticks S s)
          = (Ok cursor, started row s)) as ->.
  { unfold cursor, start_cursor, started.
    destruct (cursor_time_us row =? 0); reflexivity. }
  unfold bind at 1. rewrite fetch_events_batch. fold cursor in Hbatch.
  rewrite Hbatch.
  unfold bind at 1. rewrite process_all_effect. cbn [fst snd].
  fold done latest. rewrite Z.add_0_l.
  unfold commit_cursor, bind, now.
  destruct (stored_position E latest); reflexivity.
Qed.

(** A cycle whose request to the stream fails. *)
Lemma serve_failed method s row e :
  (method =? "OPTIONS")%string = false ->
  jetstream_cursor s = Some row ->
  batch E (start_cursor E row s) = Throw e ->
  serve E method s =
  (Ok (Failure (exn_to_string e)),
   set_cursor
     (option_map (fun r => mkCursor (cursor_time_us r) (events_processed r)
                             (Some (exn_to_string e))
                             (clock E (ticks (started row s)))))
     (set_ticks S (started row s))).
Proof.
  intros Hm Hrow Hbatch. unfold serve. rewrite Hm.
  unfold bind at 1. unfold now at 1. unfold try_catch.
  unfold bind at 1. unfold gets at 1.
  change (jetstream_cursor (set_ticks S s)) with (jetstream_cursor s).
  rewrite Hrow. unfold bind at 1.
  assert ((if cursor_time_us row =? 0
           then bind (now E) (fun t => ret (t * 1000))
           else ret (cursor_time_us row)) (set_ticks S s)
          = (Ok (start_cursor E row s), started row s)) as ->.
  { unfold start_cursor, started.
    destruct (cursor_time_us row =? 0); reflexivity. }
  unfold bind at 1. rewrite fetch_events_batch, Hbatch.
  reflexivity.
Qed.

End Cursor.

(** *** Events the filter does not let through *)

Lemma effect_one_filtered E event latest s :
  isRelevantToCannect event <> Ok true ->
  effect_one E event latest s = (0, s).
Proof.
  intros H. unfold effect_one.
  destruct (moved E event latest); [|reflexivity].
  unfold attempt, bind, lift.
  destruct (isRelevantToCannect event) as [[|]|e]; try reflexivity.
  now contradiction H.
Qed.

Lemma process_one_filtered E event acc s :
  isRelevantToCannect event <> Ok true ->
  process_one E event acc s =
  (Ok (position_after E event (fst acc), snd acc), s).
Proof.
  intros H. rewrite process_one_effect, effect_one_filtered by exact H.
  simpl. now rewrite Z.add_0_r.
Qed.

Lemma isRelevantToCannect_false event :
  is_str (oget event "kind") "commit" = false
  \/ truthy (event_record event) = false ->
  nullish event = false ->
  isRelevantToCannect event = Ok false.
Proof.
  intros H Hn. unfold isRelevantToCannect.
  rewrite !(get_oget event _ Hn). simpl.
  destruct (is_str (oget event "kind") "commit") eqn:Hk; simpl; [|reflexivity].
  destruct H as [H|H]; [discriminate|].
  unfold event_record in H.
  destruct (truthy (oget event "commit")) eqn:Hc; simpl; [|reflexivity].
  rewrite (get_truthy _ "record" Hc). simpl. now rewrite H.
Qed.

(** C10: an event whose kind is not "commit", or whose commit carries no
    record, is classified irrelevant by the filter and is dropped before any
    handler runs: the turn of the loop leaves the state and the count of
    processed events as they were.  A delete event without a record is such
    an event: it removes no mirror record and decrements no counter. *)
Theorem recordless_event_is_discarded E event :
  is_str (oget event "kind") "commit" = false
  \/ truthy (event_record event) = false ->
  (nullish event = false -> isRelevantToCannect event = Ok false)
  /\ (forall acc s,
        process_one E event acc s =
        (Ok (position_after E event (fst acc), snd acc), s)).
Proof.
  intros H. split.
  - now apply isRelevantToCannect_false.
  - intros acc s. apply process_one_filtered.
    destruct (nullish event) eqn:Hn.
    + destruct event; try discriminate; simpl; discriminate.
    + rewrite (isRelevantToCannect_false event H Hn). discriminate.
Qed.

Lemma recordless_event_is_discarded_witness :
  isRelevantToCannect Sample.bare_delete = Ok false
  /\ process_one (Sample.world Sample.timeout) Sample.bare_delete
       (Num 100, 0) Sample.store
     = (Ok (Num 300, 0), Sample.store).
Proof.
  destruct (recordless_event_is_discarded (Sample.world Sample.timeout)
              Sample.bare_delete) as [H1 H2].
  - right. reflexivity.
  - split.
    + apply H1. reflexivity.
    + apply (H2 (Num 100, 0) Sample.store).
Defined.

(** C6: an event none of whose four references lies in the local namespace,
    and which is no follow event, leaves no trace: its turn of the loop
    changes neither the state nor the count, and a batch with it does to the
    state and to the count what the batch without it does. *)
Theorem irrelevant_event_leaves_no_trace E event :
  in_local_namespace (subject_uri event) = false ->
  in_local_namespace (parent_uri event) = false ->
  in_local_namespace (root_uri event) = false ->
  in_local_namespace (quoted_uri event) = false ->
  is_str (event_collection event) "app.bsky.graph.follow" = false ->
  (forall acc s,
     process_one E event acc s =
     (Ok (position_after E event (fst acc), snd acc), s))
  /\ (forall before after acc s,
        exec (process_all E (before ++ event :: after) acc) s
        = exec (process_all E (before ++ after) acc) s
        /\ forall latest count,
             eval (process_all E (before ++ event :: after) acc) s
             = Ok (latest, count) ->
             exists latest',
               eval (process_all E (before ++ after) acc) s
               = Ok (latest', count)).
Proof.
  intros H1 H2 H3 H4 H5.
  assert (isRelevantToCannect event <> Ok true) as Hno.
  { intros Hyes. apply isRelevantToCannect_true in Hyes.
    destruct Hyes as [H|[H|[H|[H|H]]]]; congruence. }
  split.
  - intros acc s. now apply process_one_filtered.
  - intros before after acc s. unfold exec, eval.
    rewrite !process_all_effect. cbn [fst snd].
    rewrite (effect_all_app E before (event :: after)).
    rewrite (effect_all_app E before after).
    cbn [effect_all fst snd].
    rewrite (effect_one_filtered E event _ _ Hno).
    rewrite (effect_all_position E after
               (position_after E event (furthest E before (fst acc)))
               (furthest E before (fst acc)))
      by apply position_after_convertible.
    destruct (effect_all E after (furthest E before (fst acc))
                (snd (effect_all E before (fst acc) s))) as [n s'].
    cbn [fst snd]. rewrite Z.add_0_l. split; [reflexivity|].
    intros latest count Heq. inversion Heq; subst. eauto.
Qed.

Lemma irrelevant_event_leaves_no_trace_witness :
  process_one (Sample.world Sample.timeout) Sample.elsewhere (Num 100, 0)
    Sample.store
  = (Ok (Num 300, 0), Sample.store).
Proof.
  refine (proj1 (irrelevant_event_leaves_no_trace (Sample.world Sample.timeout)
                   Sample.elsewhere _ _ _ _ _) (Num 100, 0) Sample.store);
    reflexivity.
Defined.

(** *** The cursor *)

Lemma batch_timeout E cursor :
  jetstream E cursor = NetworkError AbortError -> batch E cursor = Ok [].
Proof. unfold batch. now intros ->. Qed.

Lemma batch_network_error E cursor e :
  jetstream E cursor = NetworkError e -> e <> AbortError ->
  batch E cursor = Throw e.
Proof. unfold batch. intros -> H. destruct e; congruence. Qed.

Lemma batch_not_ok E cursor status statusText body :
  jetstream E cursor = Response false status statusText body ->
  batch E cursor =
  Throw (Error ("Jetstream error: " ++ num_to_string status ++ " "
                  ++ statusText)).
Proof. unfold batch. now intros ->. Qed.

Lemma started_cursor row s :
  jetstream_cursor (started row s) = jetstream_cursor s.
Proof. unfold started. now destruct (cursor_time_us row =? 0). Qed.

Lemma started_core row s : core (started row s) = core s.
Proof. unfold started. now destruct (cursor_time_us row =? 0). Qed.

(** C8: a timeout of the request to the stream ends the batch and is no
    failure: the cycle goes on with no event, commits the position it
    started from with last_error cleared, and reports success with its
    summary; the mirror records and the counters are as they were.  Any
    other error of the request, and any response that is not OK, fails the
    cycle. *)
Theorem timeout_is_end_of_batch E method s row :
  (method =? "OPTIONS")%string = false ->
  jetstream_cursor s = Some row ->
  let cursor := start_cursor E row s in
  (jetstream E cursor = NetworkError AbortError ->
   exists durationMs t,
     eval (serve E method) s = Ok (Success 0 0 (Num cursor) durationMs)
     /\ jetstream_cursor (exec (serve E method) s)
        = Some (mkCursor cursor 0 None t)
     /\ core (exec (serve E method) s) = core s)
  /\ (forall e,
        jetstream E cursor = NetworkError e -> e <> AbortError ->
        eval (serve E method) s = Ok (Failure (exn_to_string e))
        /\ exists t,
             jetstream_cursor (exec (serve E method) s)
             = Some (mkCursor (cursor_time_us row) (events_processed row)
                       (Some (exn_to_string e)) t))
  /\ (forall status statusText body,
        jetstream E cursor = Response false status statusText body ->
        exists error t,
          eval (serve E method) s = Ok (Failure error)
          /\ jetstream_cursor (exec (serve E method) s)
             = Some (mkCursor (cursor_time_us row) (events_processed row)
                       (Some error) t)).
Proof.
  intros Hm Hrow cursor. unfold eval, exec. repeat split.
  - intros Hto. apply batch_timeout in Hto.
    rewrite (serve_batch E method s row [] Hm Hrow Hto).
    cbn [effect_all fst snd List.length furthest fold_left Z.of_nat].
    do 2 eexists. split; [reflexivity|]. split.
    + cbn. rewrite started_cursor, Hrow. reflexivity.
    + apply (started_core row s).
  - rewrite (serve_failed E method s row e Hm Hrow
               (batch_network_error E _ e H H0)). reflexivity.
  - rewrite (serve_failed E method s row e Hm Hrow
               (batch_network_error E _ e H H0)).
    eexists. cbn. rewrite started_cursor, Hrow. reflexivity.
  - intros status statusText body Hresp.
    rewrite (serve_failed E method s row _ Hm Hrow
               (batch_not_ok E _ _ _ _ Hresp)).
    do 2 eexists. split; [reflexivity|]. cbn.
    rewrite started_cursor, Hrow. reflexivity.
Qed.

Lemma timeout_is_end_of_batch_witness :
  exists durationMs t,
    eval (serve (Sample.world Sample.timeout) "POST") Sample.store
    = Ok (Success 0 0 (Num 100) durationMs)
    /\ jetstream_cursor
         (exec (serve (Sample.world Sample.timeout) "POST") Sample.store)
       = Some (mkCursor 100 0 None t)
    /\ core (exec (serve (Sample.world Sample.timeout) "POST") Sample.store)
       = core Sample.store.
Proof.
  pose proof (timeout_is_end_of_batch (Sample.world Sample.timeout) "POST"
                   Sample.store (mkCursor 100 0 None 0) eq_refl eq_refl) as H.
  cbv zeta in H.
  destruct H as [H _].
  specialize (H eq_refl).
  change (start_cursor (Sample.world Sample.timeout) (mkCursor 100 0 None 0) Sample.store) with 100 in H.
  exact H.
Defined.

Lemma stored_position_integer E n : stored_position E (Num n) = Some n.
Proof. reflexivity. Qed.

Lemma plain_time_moves E event latest :
  plain_time event = true -> nullish event = false ->
  exists position, moved E event (Num latest) = Ok position.
Proof.
  intros Hp Hn. apply moved_ok. split; [exact Hn|].
  unfold plain_time in Hp.
  destruct (oget event "time_us"); cbn [truthy negb] in *;
    try discriminate;
    try (left; now apply negb_true_iff in Hp);
    try (left; reflexivity).
  right. split; reflexivity.
Qed.

Lemma attempt_nullish E event s :
  nullish event = true -> exists e, attempt E event s = (Throw e, s).
Proof.
  intros Hn. unfold attempt, bind, lift, isRelevantToCannect.
  destruct event; try discriminate; eexists; reflexivity.
Qed.

(** C5 as stated, that the position is at or past where it was after
    any cycle, fails on a batch whose time_us are texts: from the stored
    100 the loop takes "1000" (greater as a number), then "2" (greater
    than "1000" as a text), then 3 (greater than "2" as a number), and the
    cycle commits 3 with no error recorded. *)
Lemma cursor_moves_back_on_text_times :
  let E := Sample.world Sample.text_times in
  furthest E [Sample.account_event (Str "1000")] (Num 100) = Str "1000"
  /\ furthest E [Sample.account_event (Str "2")] (Str "1000") = Str "2"
  /\ furthest E [Sample.account_event (Num 3)] (Str "2") = Num 3
  /\ exists row row',
       jetstream_cursor Sample.store = Some row
       /\ cursor_time_us row = 100
       /\ jetstream_cursor (exec (serve E "POST") Sample.store) = Some row'
       /\ cursor_time_us row' = 3
       /\ last_error row' = None
       /\ ~ cursor_time_us row <= cursor_time_us row'.
Proof.
  cbv zeta. split; [reflexivity|]. split; [reflexivity|].
  split; [reflexivity|].
  do 2 eexists. split; [reflexivity|]. split; [reflexivity|].
  split; [vm_compute; reflexivity|].
  cbn. split; [reflexivity|]. split; [reflexivity|]. lia.
Qed.

(** C5, amended: when every time_us of the batch is an integer, or is
    absent, the stored position does not move back: after a cycle, however
    it ended, it is at or past where it was (the clock reading no time
    before its epoch); and a cycle that fails leaves the position where it
    was and records the error in last_error. *)
Theorem cursor_only_moves_forward E method s row :
  jetstream_cursor s = Some row ->
  (forall n, 0 <= clock E n) ->
  plain_batch E row s ->
  exists row',
    jetstream_cursor (exec (serve E method) s) = Some row'
    /\ cursor_time_us row <= cursor_time_us row'
    /\ forall error,
         eval (serve E method) s = Ok (Failure error) ->
         cursor_time_us row' = cursor_time_us row
         /\ last_error row' = Some error.
Proof.
  intros Hrow Hclock Hplain. unfold exec, eval.
  destruct (method =? "OPTIONS")%string eqn:Hm.
  { unfold serve. rewrite Hm. exists row. cbn.
    split; [exact Hrow|]. split; [lia|]. intros error H. discriminate. }
  assert (cursor_time_us row <= start_cursor E row s) as Hstart.
  { unfold start_cursor. destruct (cursor_time_us row =? 0) eqn:H0; [|lia].
    apply Z.eqb_eq in H0. specialize (Hclock (S (ticks s))). lia. }
  assert (jetstream_cursor (started row s) = Some row) as Hstarted.
  { now rewrite started_cursor. }
  unfold plain_batch in Hplain.
  destruct (batch E (start_cursor E row s)) as [events|e] eqn:Hbatch.
  - rewrite (serve_batch E method s row events Hm Hrow Hbatch).
    cbn [fst snd]. rewrite (furthest_plain E events _ Hplain).
    rewrite stored_position_integer. eexists. split.
    + cbn. rewrite effect_all_keeps_cursor, Hstarted. reflexivity.
    + cbn. split; [|discriminate].
      eapply Z.le_trans; [exact Hstart|apply latest_of_le].
  - rewrite (serve_failed E method s row e Hm Hrow Hbatch).
    cbn [fst snd]. eexists. split.
    + cbn. rewrite Hstarted. reflexivity.
    + cbn. split; [lia|]. intros error Herr. inversion Herr. now split.
Qed.

Lemma cursor_only_moves_forward_witness :
  exists row',
    jetstream_cursor
      (exec (serve (Sample.world Sample.three_events) "POST") Sample.store)
    = Some row'
    /\ 100 <= cursor_time_us row'.
Proof.
  destruct (cursor_only_moves_forward (Sample.world Sample.three_events) "POST"
              Sample.store (mkCursor 100 0 None 0)) as [row' [H1 [H2 _]]].
  - reflexivity.
  - intros n. cbn [clock Sample.world]. unfold Sample.wall_clock. lia.
  - reflexivity.
  - exists row'. split; assumption.
Defined.

(** C4 as stated, that a cycle in which an event raised commits the
    position of the last event applied and none past the event that raised,
    fails on a batch of three: the like at 200 is applied, the like at 250 raises
    (its subject URI is a number), the post at 300 is not relevant, and the
    cycle commits 300 with no error recorded. *)
Lemma cursor_passes_failed_event :
  let E := Sample.world Sample.three_events in
  let s0 := set_ticks S Sample.store in
  eval (attempt E Sample.like_create) s0 = Ok true
  /\ raises E Sample.malformed (exec (attempt E Sample.like_create) s0)
  /\ oget Sample.like_create "time_us" = Num 200
  /\ oget Sample.malformed "time_us" = Num 250
  /\ exists row',
       jetstream_cursor (exec (serve E "POST") Sample.store) = Some row'
       /\ events_processed row' = 1
       /\ last_error row' = None
       /\ cursor_time_us row' <> 200
       /\ 250 < cursor_time_us row'.
Proof.
  cbv zeta. split; [reflexivity|]. split.
  { eexists. vm_compute. reflexivity. }
  split; [reflexivity|]. split; [reflexivity|].
  eexists. split; [vm_compute; reflexivity|].
  cbn. split; [reflexivity|]. split; [reflexivity|].
  split; [discriminate|reflexivity].
Qed.

(** C4, amended: a cycle that gets a batch whose time_us are integers, or
    absent, commits the latest position among the events received and the
    position it started from, whether or not the processing of an event
    raised: the committed position is at or past the time of every event
    of the batch.  An event that raised is skipped and not counted. *)
Theorem cursor_follows_every_event E method s row events :
  (method =? "OPTIONS")%string = false ->
  jetstream_cursor s = Some row ->
  batch E (start_cursor E row s) = Ok events ->
  forallb plain_time events = true ->
  let committed := latest_of (times events) (start_cursor E row s) in
  (exists processed t,
     jetstream_cursor (exec (serve E method) s)
     = Some (mkCursor committed processed None t))
  /\ (forall event n,
        In event events -> oget event "time_us" = Num n -> n <> 0 ->
        n <= committed)
  /\ (forall event latest count s',
        plain_time event = true ->
        raises E event s' ->
        process_one E event (Num latest, count) s' =
        (Ok (position_after E event (Num latest), count),
         exec (attempt E event) s')).
Proof.
  intros Hm Hrow Hbatch Hplain committed. split; [|split].
  - unfold exec. rewrite (serve_batch E method s row events Hm Hrow Hbatch).
    cbn [fst snd]. rewrite (furthest_plain E events _ Hplain).
    rewrite stored_position_integer.
    do 2 eexists. cbn.
    rewrite effect_all_keeps_cursor, started_cursor, Hrow. reflexivity.
  - intros event n Hin Ht Hn. apply latest_of_ge.
    now apply (time_in_times events event).
  - intros event latest count s' Hp [e He]. rewrite process_one_effect.
    cbn [fst snd]. unfold effect_one, exec, eval in *.
    destruct (nullish event) eqn:Hn.
    + destruct (attempt_nullish E event s' Hn) as [e' He'].
      rewrite He'. cbn [snd].
      destruct (moved E event (Num latest)); cbn [fst snd];
        now rewrite Z.add_0_r.
    + destruct (plain_time_moves E event latest Hp Hn) as [position ->].
      destruct (attempt E event s') as [[b|e'] s'']; simpl in *;
        [discriminate|]. now rewrite Z.add_0_r.
Qed.

Lemma cursor_follows_every_event_witness :
  exists processed t,
    jetstream_cursor
      (exec (serve (Sample.world Sample.three_events) "POST") Sample.store)
    = Some (mkCursor 300 processed None t).
Proof.
  pose proof (cursor_follows_every_event (Sample.world Sample.three_events)
                "POST" Sample.store (mkCursor 100 0 None 0)
                [Sample.like_create; Sample.malformed; Sample.elsewhere]
                eq_refl eq_refl eq_refl eq_refl) as H.
  cbv zeta in H. destruct H as [H _].
  change (latest_of
            (times [Sample.like_create; Sample.malformed; Sample.elsewhere])
            (start_cursor (Sample.world Sample.three_events)
               (mkCursor 100 0 None 0) Sample.store)) with 300 in H.
  exact H.
Defined.

(** *** What a create handler does *)

Section Handlers.

Variable E : env.

Ltac run_handler :=
  unfold exec, bind, lift, gets, ret;
  change (is_str (Str "create") "create") with true; cbv iota beta.

Lemma handleLikeEvent_create did record rkey s :
  nothing_or_created E like (interaction_uri did "app.bsky.feed.like" rkey)
    did s (exec (handleLikeEvent E did (Str "create") record rkey) s).
Proof.
  unfold handleLikeEvent. run_handler.
  destruct (not_local _) as [[|]|]; try (left; reflexivity).
  destruct (single _) as [target|]; try (left; reflexivity).
  destruct (maybeSingle _) eqn:Hexisting; try (left; reflexivity).
  unfold insert_interaction at 1.
  destruct (constraints_ok _ _ _); try (left; reflexivity).
  right. split; [exact Hexisting|].
  eexists _, (post_id target), (post_user_id target), "like", _.
  split; [|reflexivity]. reflexivity.
Qed.

Lemma handleRepostEvent_create did record rkey s :
  nothing_or_created E repost (interaction_uri did "app.bsky.feed.repost" rkey)
    did s (exec (handleRepostEvent E did (Str "create") record rkey) s).
Proof.
  unfold handleRepostEvent. run_handler.
  destruct (not_local _) as [[|]|]; try (left; reflexivity).
  destruct (single _) as [target|]; try (left; reflexivity).
  destruct (maybeSingle _) eqn:Hexisting; try (left; reflexivity).
  unfold insert_interaction at 1.
  destruct (constraints_ok _ _ _); try (left; reflexivity).
  right. split; [exact Hexisting|].
  eexists _, (post_id target), (post_user_id target), "repost", _.
  split; [|reflexivity]. reflexivity.
Qed.

Lemma handleFollowEvent_create did record rkey s :
  nothing_or_created E follow (interaction_uri did "app.bsky.graph.follow" rkey)
    did s (exec (handleFollowEvent E did (Str "create") record rkey) s).
Proof.
  unfold handleFollowEvent. run_handler.
  destruct (truthy _); try (left; reflexivity). cbn [negb].
  destruct (single _) as [target|]; try (left; reflexivity).
  destruct (maybeSingle _) eqn:Hexisting; try (left; reflexivity).
  unfold insert_interaction at 1.
  destruct (constraints_ok _ _ _); try (left; reflexivity).
  right. split; [exact Hexisting|].
  eexists _, (profile_id target), (profile_id target), "follow", _.
  split; [|reflexivity]. reflexivity.
Qed.

Lemma mirror_reply did record ref k s :
  nothing_or_created E reply k did s
    (exec (mirror_post_reference E ref k reply increment_post_replies "reply"
             did record) s).
Proof.
  unfold mirror_post_reference. run_handler.
  destruct (oincludes _ _) as [[|]|]; try (left; reflexivity). cbn [negb].
  destruct (single _) as [target|]; try (left; reflexivity).
  destruct (maybeSingle _) eqn:Hexisting; try (left; reflexivity).
  destruct (rbind (get record "text") _); try (left; reflexivity).
  destruct (get record "createdAt"); try (left; reflexivity).
  unfold insert_interaction at 1.
  destruct (constraints_ok _ _ _); try (left; reflexivity).
  right. split; [exact Hexisting|].
  eexists _, (post_id target), (post_user_id target), "reply", _.
  split; [|reflexivity]. reflexivity.
Qed.

Lemma mirror_quote did record ref k s :
  nothing_or_created E quote k did s
    (exec (mirror_post_reference E ref k quote increment_post_quotes "quote"
             did record) s).
Proof.
  unfold mirror_post_reference. run_handler.
  destruct (oincludes _ _) as [[|]|]; try (left; reflexivity). cbn [negb].
  destruct (single _) as [target|]; try (left; reflexivity).
  destruct (maybeSingle _) eqn:Hexisting; try (left; reflexivity).
  destruct (rbind (get record "text") _); try (left; reflexivity).
  destruct (get record "createdAt"); try (left; reflexivity).
  unfold insert_interaction at 1.
  destruct (constraints_ok _ _ _); try (left; reflexivity).
  right. split; [exact Hexisting|].
  eexists _, (post_id target), (post_user_id target), "quote", _.
  split; [|reflexivity]. reflexivity.
Qed.

End Handlers.

(** *** One record, one increment *)

Section Once.

Variable E : env.

Lemma adjust_keeps_interactions kind f id :
  keeps federated_interactions (adjust kind f id).
Proof.
  destruct kind; unfold adjust, on_post, on_profile;
    apply keeps_modify; reflexivity.
Qed.

Lemma created_interactions kind r id user did reason p s :
  federated_interactions (created E kind r id user did reason p s)
  = (federated_interactions s ++ [r])%list.
Proof.
  unfold created, exec.
  rewrite (createExternalNotification_keeps E federated_interactions)
    by reflexivity.
  now rewrite adjust_keeps_interactions.
Qed.

Lemma counter_after_notification kind user did reason p s :
  counter kind (exec (createExternalNotification E user did reason p) s)
  = counter kind s.
Proof.
  unfold exec.
  pose proof (createExternalNotification_keeps E posts user did reason p) as Hp.
  pose proof (createExternalNotification_keeps E profiles user did reason p)
    as Hq.
  destruct kind; unfold counter; rewrite ?Hp, ?Hq; reflexivity.
Qed.

Lemma created_counter kind r id user did reason p s :
  counter kind (created E kind r id user did reason p s)
  = bump id (counter kind s).
Proof.
  unfold created. rewrite counter_after_notification.
  destruct kind; unfold counter, bump, exec; cbn; rewrite !map_map;
    apply map_ext; intros x; cbn;
    match goal with |- context [(?a =? ?b)%string] =>
      destruct (a =? b)%string end; reflexivity.
Qed.

Lemma created_counter_other kind kind' r id user did reason p s :
  kind' <> kind ->
  counter kind' (created E kind r id user did reason p s) = counter kind' s.
Proof.
  intros Hne. unfold created. rewrite counter_after_notification.
  destruct kind, kind'; try congruence; unfold counter, exec; cbn;
    try reflexivity; rewrite !map_map; apply map_ext; intros x; cbn;
    match goal with |- context [(?a =? ?b)%string] =>
      destruct (a =? b)%string end; reflexivity.
Qed.

Lemma maybeSingle_none_short {A} (l : list A) :
  maybeSingle l = None -> (List.length l <= 1)%nat -> l = [].
Proof.
  destruct l as [|x [|y l]]; simpl; intros H Hlen; try reflexivity;
    [discriminate|lia].
Qed.

Lemma filter_added k r (t : list interaction) :
  filter (has_at_uri k) (t ++ [r])
  = (filter (has_at_uri k) t
     ++ (if has_at_uri k r then [r] else []))%list.
Proof. rewrite filter_app. reflexivity. Qed.

(** With at most one record under the key, what a create handler does
    about the key is to apply the event at most once. *)
Lemma created_at_most_once kind k did s s1 :
  nothing_or_created E kind k did s s1 ->
  (count_key k s <= 1)%nat ->
  applied_at_most_once k kind s s1.
Proof.
  intros [->|[Hnone [r [id [user [reason [p [Hk ->]]]]]]]] Hcount.
  - left. split; reflexivity.
  - right. apply maybeSingle_none_short in Hnone; [|exact Hcount].
    split; [exact Hnone|]. split.
    + exists r. unfold interactions_eq_at_uri in *.
      rewrite created_interactions, filter_added, Hnone.
      unfold has_at_uri. rewrite Hk, String.eqb_refl. reflexivity.
    + exists id. apply created_counter.
Qed.

(** A create handler leaves the other keys and the other counters alone. *)
Lemma created_elsewhere kind k did s s1 k' kind' :
  nothing_or_created E kind k did s s1 ->
  k' <> k -> kind' <> kind ->
  interactions_eq_at_uri k' s1 = interactions_eq_at_uri k' s
  /\ counter kind' s1 = counter kind' s.
Proof.
  intros [->|[Hnone [r [id [user [reason [p [Hk ->]]]]]]]] Hkey Hkind.
  - split; reflexivity.
  - split.
    + unfold interactions_eq_at_uri.
      rewrite created_interactions, filter_added.
      unfold has_at_uri. rewrite Hk.
      destruct (k =? k')%string eqn:Heq.
      * apply String.eqb_eq in Heq. congruence.
      * apply app_nil_r.
    + now apply created_counter_other.
Qed.

Lemma length_appended (a b : string) :
  String.length (a ++ b) = (String.length a + String.length b)%nat.
Proof. induction a as [|c a IH]; simpl; [reflexivity|now rewrite IH]. Qed.

Lemma quote_key_differs k : k ++ "#quote" <> k.
Proof.
  intros H. apply (f_equal String.length) in H.
  rewrite length_appended in H. simpl in H. lia.
Qed.

End Once.

Section Idempotency.

Variable E : env.

Lemma handlePostEvent_create did record rkey s :
  let k := interaction_uri did "app.bsky.feed.post" rkey in
  exists s',
    nothing_or_created E reply k did s s'
    /\ nothing_or_created E quote (k ++ "#quote") did s'
         (exec (handlePostEvent E did (Str "create") record rkey) s).
Proof.
  intros k. unfold handlePostEvent.
  change (is_str (Str "create") "create") with true. cbv iota beta zeta.
  cbn [negb]. fold k.
  set (first := mirror_post_reference E _ k reply _ _ did record).
  set (second := mirror_post_reference E _ (k ++ "#quote") quote _ _ did record).
  exists (exec first s). split; [apply mirror_reply|].
  unfold exec at 2. unfold bind.
  pose proof (mirror_quote E did record
                (oget (oget (oget record "embed") "record") "uri")
                (k ++ "#quote") (exec first s)) as Hq.
  fold second in Hq. unfold exec in *.
  destruct (first s) as [[[]|e] s']; simpl in *.
  - exact Hq.
  - left. reflexivity.
Qed.

Lemma applied_at_most_once_then k kind s s' s1 :
  applied_at_most_once k kind s s' ->
  interactions_eq_at_uri k s1 = interactions_eq_at_uri k s' ->
  counter kind s1 = counter kind s' ->
  applied_at_most_once k kind s s1.
Proof.
  unfold applied_at_most_once. intros H -> ->. exact H.
Qed.

Lemma applied_at_most_once_after k kind s s' s1 :
  applied_at_most_once k kind s' s1 ->
  interactions_eq_at_uri k s' = interactions_eq_at_uri k s ->
  counter kind s' = counter kind s ->
  applied_at_most_once k kind s s1.
Proof.
  unfold applied_at_most_once. intros H <- <-. exact H.
Qed.

(** Processing a create event applies it at most once to its key. *)
Lemma processEvent_create kind event s :
  is_create_of kind event = true ->
  (count_key (event_key kind event) s <= 1)%nat ->
  applied_at_most_once (event_key kind event) kind s
    (exec (processEvent E event) s).
Proof.
  unfold is_create_of, event_collection, event_operation.
  intros H Hcount. apply andb_prop in H. destruct H as [Hc Ho].
  apply is_str_eq in Hc. apply is_str_eq in Ho.
  destruct event as [ | | | | | |fields]; try discriminate.
  unfold event_key in *. cbn [oget] in *.
  destruct (lookup "commit" fields) as [ | | | | | |cf] eqn:Hcommit;
    try discriminate.
  cbn [oget] in *.
  unfold processEvent, exec, bind, lift. cbn [get]. rewrite Hcommit.
  cbn [truthy negb get]. rewrite Hc, Ho.
  destruct kind; cbn [collection_of] in *.
  - apply (created_at_most_once E _ _ (lookup "did" fields));
      [apply handleLikeEvent_create|exact Hcount].
  - apply (created_at_most_once E _ _ (lookup "did" fields));
      [apply handleRepostEvent_create|exact Hcount].
  - destruct (handlePostEvent_create (lookup "did" fields)
                (lookup "record" cf) (lookup "rkey" cf) s) as [s' [Hr Hq]].
    set (k := interaction_uri _ _ _) in *.
    destruct (created_elsewhere E quote _ _ s' _ k reply Hq) as [Hi Hn];
      [intros Heq; symmetry in Heq; now apply quote_key_differs in Heq
      |discriminate|].
    eapply applied_at_most_once_then; [|exact Hi|exact Hn].
    now apply (created_at_most_once E _ _ (lookup "did" fields)).
  - destruct (handlePostEvent_create (lookup "did" fields)
                (lookup "record" cf) (lookup "rkey" cf) s) as [s' [Hr Hq]].
    set (k := interaction_uri _ _ _) in *.
    destruct (created_elsewhere E reply _ _ s s' (k ++ "#quote") quote Hr)
      as [Hi Hn];
      [apply quote_key_differs|discriminate|].
    eapply applied_at_most_once_after; [|exact Hi|exact Hn].
    apply (created_at_most_once E _ _ (lookup "did" fields));
      [exact Hq|].
    unfold count_key in *. now rewrite Hi.
  - apply (created_at_most_once E _ _ (lookup "did" fields));
      [apply handleFollowEvent_create|exact Hcount].
Qed.

(** A create event all of whose keys are there changes nothing at all. *)
Lemma processEvent_present kind event s :
  is_create_of kind event = true ->
  (forall kind',
     is_create_of kind' event = true ->
     count_key (event_key kind' event) s = 1%nat) ->
  exec (processEvent E event) s = s.
Proof.
  intros H Hall.
  assert (forall k s0 s1 did kind',
             count_key k s0 = 1%nat ->
             nothing_or_created E kind' k did s0 s1 -> s1 = s0) as Hsame.
  { intros k s0 s1 did kind' Hone [->|[Hnone _]]; [reflexivity|].
    unfold count_key in Hone.
    destruct (interactions_eq_at_uri k s0) as [|x [|y l]]; simpl in *;
      discriminate. }
  assert (kind = reply \/ kind = quote ->
          is_create_of reply event = true /\ is_create_of quote event = true)
    as Hpost.
  { intros [->| ->]; split; exact H. }
  pose proof (Hall kind H) as Hcount.
  unfold is_create_of, event_collection, event_operation in H.
  apply andb_prop in H. destruct H as [Hc Ho].
  apply is_str_eq in Hc. apply is_str_eq in Ho.
  destruct event as [ | | | | | |fields]; try discriminate.
  unfold event_key in *. cbn [oget] in *.
  destruct (lookup "commit" fields) as [ | | | | | |cf] eqn:Hcommit;
    try discriminate.
  cbn [oget] in *.
  unfold processEvent, exec, bind, lift. cbn [get]. rewrite Hcommit.
  cbn [truthy negb get]. rewrite Hc, Ho.
  assert (is_create_of reply (Obj fields) = true ->
          is_create_of quote (Obj fields) = true ->
          snd (handlePostEvent E (lookup "did" fields) (Str "create")
                 (lookup "record" cf) (lookup "rkey" cf) s) = s) as Hboth.
  { intros Hr Hq. apply Hall in Hr. apply Hall in Hq.
    cbn [oget] in Hr, Hq.
    destruct (handlePostEvent_create (lookup "did" fields)
                (lookup "record" cf) (lookup "rkey" cf) s)
      as [s' [Hreply Hquote]].
    apply (Hsame _ _ _ _ _ Hr) in Hreply. subst s'.
    apply (Hsame _ _ _ _ _ Hq) in Hquote. exact Hquote. }
  destruct kind; cbn [collection_of] in *.
  - eapply Hsame; [exact Hcount|apply handleLikeEvent_create].
  - eapply Hsame; [exact Hcount|apply handleRepostEvent_create].
  - destruct Hpost as [Hr Hq]; [now left|]. now apply Hboth.
  - destruct Hpost as [Hr Hq]; [now right|]. now apply Hboth.
  - eapply Hsame; [exact Hcount|apply handleFollowEvent_create].
Qed.

End Idempotency.

(** *** The key stays a key *)

Section Unique.

Variable E : env.

Lemma created_keeps_keys_unique kind k did s s1 :
  nothing_or_created E kind k did s s1 -> keys_unique s -> keys_unique s1.
Proof.
  intros [->|[Hnone [r [id [user [reason [p [Hk ->]]]]]]]] Hu k';
    [apply Hu|].
  unfold count_key, interactions_eq_at_uri.
  rewrite created_interactions, filter_added, length_app.
  unfold has_at_uri at 2. rewrite Hk.
  destruct (k =? k')%string eqn:Heq; simpl.
  - apply String.eqb_eq in Heq. subst k'.
    apply maybeSingle_none_short in Hnone; [|apply Hu].
    unfold interactions_eq_at_uri in Hnone. rewrite Hnone. simpl. lia.
  - specialize (Hu k'). unfold count_key, interactions_eq_at_uri in Hu. lia.
Qed.

Lemma filter_filter_shorter {A} (p q : A -> bool) (l : list A) :
  (List.length (filter p (filter q l)) <= List.length (filter p l))%nat.
Proof.
  induction l as [|x l IH]; simpl; [lia|].
  destruct (q x), (p x) eqn:Hp; simpl; rewrite ?Hp; simpl; lia.
Qed.

Lemma deleted_keeps_keys_unique k (c : M unit) s :
  keeps federated_interactions c ->
  keys_unique s ->
  keys_unique (exec c (snd (delete_interactions k s))).
Proof.
  intros Hc Hu k'. unfold count_key, interactions_eq_at_uri, exec.
  rewrite Hc. cbn [delete_interactions snd federated_interactions
                     set_interactions].
  eapply Nat.le_trans; [apply filter_filter_shorter|apply Hu].
Qed.

Ltac run_any :=
  unfold exec, bind, lift, gets, ret; cbv iota beta.

Lemma handleLikeEvent_keeps_keys_unique did operation record rkey s :
  keys_unique s ->
  keys_unique (exec (handleLikeEvent E did operation record rkey) s).
Proof.
  intros Hu. destruct (is_str operation "create") eqn:Hop.
  - apply is_str_eq in Hop. subst operation.
    eapply created_keeps_keys_unique; [apply handleLikeEvent_create|exact Hu].
  - unfold handleLikeEvent. run_any. rewrite Hop.
    destruct (not_local _) as [[|]|]; try exact Hu.
    destruct (single _) as [target|]; try exact Hu.
    destruct (is_str operation "delete"); try exact Hu.
    apply (deleted_keeps_keys_unique _ (decrement_post_likes (post_id target)));
      [|exact Hu].
    apply (adjust_keeps_interactions like).
Qed.

Lemma handleRepostEvent_keeps_keys_unique did operation record rkey s :
  keys_unique s ->
  keys_unique (exec (handleRepostEvent E did operation record rkey) s).
Proof.
  intros Hu. destruct (is_str operation "create") eqn:Hop.
  - apply is_str_eq in Hop. subst operation.
    eapply created_keeps_keys_unique; [apply handleRepostEvent_create|exact Hu].
  - unfold handleRepostEvent. run_any. rewrite Hop.
    destruct (not_local _) as [[|]|]; try exact Hu.
    destruct (single _) as [target|]; try exact Hu.
    destruct (is_str operation "delete"); try exact Hu.
    apply (deleted_keeps_keys_unique _
             (decrement_post_reposts (post_id target))); [|exact Hu].
    apply (adjust_keeps_interactions repost).
Qed.

Lemma handleFollowEvent_keeps_keys_unique did operation record rkey s :
  keys_unique s ->
  keys_unique (exec (handleFollowEvent E did operation record rkey) s).
Proof.
  intros Hu. destruct (is_str operation "create") eqn:Hop.
  - apply is_str_eq in Hop. subst operation.
    eapply created_keeps_keys_unique; [apply handleFollowEvent_create|exact Hu].
  - unfold handleFollowEvent. run_any. rewrite Hop.
    destruct (truthy _); try exact Hu. cbn [negb].
    destruct (single _) as [target|]; try exact Hu.
    destruct (is_str operation "delete"); try exact Hu.
    apply (deleted_keeps_keys_unique _
             (decrement_profile_followers (profile_id target))); [|exact Hu].
    apply (adjust_keeps_interactions follow).
Qed.

Lemma handlePostEvent_keeps_keys_unique did operation record rkey s :
  keys_unique s ->
  keys_unique (exec (handlePostEvent E did operation record rkey) s).
Proof.
  intros Hu. destruct (is_str operation "create") eqn:Hop.
  - apply is_str_eq in Hop. subst operation.
    destruct (handlePostEvent_create E did record rkey s) as [s' [Hr Hq]].
    eapply created_keeps_keys_unique; [exact Hq|].
    eapply created_keeps_keys_unique; [exact Hr|exact Hu].
  - unfold handlePostEvent. rewrite Hop. exact Hu.
Qed.

(** Whatever the event, processing it leaves no two records under one
    key. *)
Lemma processEvent_keeps_keys_unique event s :
  keys_unique s -> keys_unique (exec (processEvent E event) s).
Proof.
  intros Hu. unfold processEvent, exec, bind, lift, ret.
  destruct (get event "commit") as [commit|]; try exact Hu.
  destruct (get event "did") as [did|]; try exact Hu.
  destruct (truthy commit); try exact Hu. cbn [negb].
  destruct (get commit "operation") as [operation|]; try exact Hu.
  destruct (get commit "collection") as [collection|]; try exact Hu.
  destruct (get commit "record") as [record|]; try exact Hu.
  destruct (get commit "rkey") as [rkey|]; try exact Hu.
  destruct (is_str collection "app.bsky.feed.like");
    [now apply handleLikeEvent_keeps_keys_unique|].
  destruct (is_str collection "app.bsky.feed.repost");
    [now apply handleRepostEvent_keeps_keys_unique|].
  destruct (is_str collection "app.bsky.feed.post");
    [now apply handlePostEvent_keeps_keys_unique|].
  destruct (is_str collection "app.bsky.graph.follow");
    [now apply handleFollowEvent_keeps_keys_unique|exact Hu].
Qed.

Lemma effect_all_keeps_keys_unique events : forall latest s,
  keys_unique s -> keys_unique (snd (effect_all E events latest s)).
Proof.
  induction events as [|event rest IH]; intros latest s Hu; simpl;
    [exact Hu|].
  assert (keys_unique (snd (effect_one E event latest s))) as Hone.
  { unfold effect_one. destruct (moved E event latest); [|exact Hu].
    unfold attempt, bind, lift, ret.
    destruct (isRelevantToCannect event) as [[|]|]; try exact Hu.
    cbn [negb].
    pose proof (processEvent_keeps_keys_unique event s Hu) as Hp.
    unfold exec in Hp. destruct (processEvent E event s) as [[[]|] s'];
      exact Hp. }
  destruct (effect_one E event latest s) as [d s']. simpl in Hone.
  specialize (IH (position_after E event latest) s' Hone).
  now destruct (effect_all E rest _ s').
Qed.

(** A polling cycle, too. *)
Lemma serve_keeps_keys_unique method s :
  keys_unique s -> keys_unique (exec (serve E method) s).
Proof.
  intros Hu. unfold exec.
  destruct (method =? "OPTIONS")%string eqn:Hm.
  { unfold serve. rewrite Hm. exact Hu. }
  destruct (jetstream_cursor s) as [row|] eqn:Hrow.
  - destruct (batch E (start_cursor E row s)) as [events|e] eqn:Hbatch.
    + rewrite (serve_batch E method s row events Hm Hrow Hbatch).
      intros k. unfold count_key, interactions_eq_at_uri. cbn [snd].
      assert (forall s1 : state,
                 federated_interactions
                   (set_ticks S
                      (match stored_position E
                               (furthest E events
                                  (Num (start_cursor E row s))) with
                       | Some position =>
                           set_cursor
                             (option_map (fun _ =>
                                mkCursor position
                                  (fst (effect_all E events
                                          (Num (start_cursor E row s))
                                          (started row s)))
                                  None (clock E (ticks s1))))
                             (set_ticks S s1)
                       | None => set_ticks S s1
                       end))
                 = federated_interactions s1) as ->.
      { intros s1. now destruct (stored_position E _). }
      apply (effect_all_keeps_keys_unique events _ (started row s)).
      intros k'. unfold count_key, interactions_eq_at_uri.
      unfold started. destruct (cursor_time_us row =? 0); apply Hu.
    + rewrite (serve_failed E method s row e Hm Hrow Hbatch).
      intros k. unfold count_key, interactions_eq_at_uri. cbn.
      unfold started. destruct (cursor_time_us row =? 0); apply Hu.
  - unfold serve. rewrite Hm. unfold bind, now, try_catch, gets, throw.
    cbn. rewrite Hrow. cbn. exact Hu.
Qed.

End Unique.

(** C3, as the code has it: a delete event that names a local post, with
    no mirror record under its key, passes the filter, deletes nothing and
    still decrements the post's counter, here from 5 to 4, where the
    specification has the counter left as it is. *)
Theorem delete_of_unknown_key_decrements :
  let E := Sample.world Sample.timeout in
  let after :=
    exec (process_one E Sample.like_delete (Num 100, 0)) Sample.store in
  count_key (event_key like Sample.like_delete) Sample.store = 0%nat
  /\ eval (process_one E Sample.like_delete (Num 100, 0)) Sample.store
     = Ok (Num 300, 1)
  /\ federated_interactions after = federated_interactions Sample.store
  /\ counter like Sample.store = [("post-1", 5)]
  /\ counter like after = [("post-1", 4)].
Proof. cbv zeta. repeat split; vm_compute; reflexivity. Qed.

(** *** Profile resolution *)

Lemma filter_out_then_in {A} (p : A -> bool) (l : list A) :
  filter p (filter (fun x => negb (p x)) l) = [].
Proof.
  induction l as [|x l IH]; simpl; [reflexivity|].
  destruct (p x) eqn:Hp; simpl; [exact IH|]. now rewrite Hp.
Qed.

Section Profiles.

Variable E : env.

Ltac run_profile :=
  unfold getBlueskyProfile, eval, exec, bind, gets, ret, now, try_catch,
    fetch_profile, lift, upsert_cache, modify.

Lemma getBlueskyProfile_hit did s c :
  maybeSingle (cache_eq_did did s) = Some c ->
  clock E (ticks s) - c_cached_at c < PROFILE_CACHE_TTL_MS ->
  getBlueskyProfile E did s = (Ok (cached_value c), set_ticks S s).
Proof.
  intros Hc Hage. run_profile. rewrite Hc.
  apply Z.ltb_lt in Hage. now rewrite Hage.
Qed.

(** The state in which a stale resolution sends its request: the clock
    has been read if there was an entry to age. *)
Lemma getBlueskyProfile_stale did s :
  stale E did s ->
  exists s0,
    core s0 = core s /\ notifications s0 = notifications s
    /\ lookups s0 = lookups s
    /\ bluesky_profile_cache s0 = bluesky_profile_cache s
    /\ getBlueskyProfile E did s =
       try_catch
         (bind (fetch_profile E did) (fun response =>
            let '(ok, _, body) := response in
            if negb ok then ret Null
            else
              bind (lift (json_parse E body)) (fun profile =>
              bind (lift (get profile "handle")) (fun handle =>
              bind (lift (get profile "displayName")) (fun displayName =>
              bind (lift (get profile "avatar")) (fun avatar =>
              bind (now E) (fun t =>
              bind (upsert_cache
                      (mkCached (to_string did) handle displayName avatar t))
                   (fun _ => ret profile))))))))
         (fun _ => ret Null) s0.
Proof.
  unfold stale. intros Hstale.
  unfold getBlueskyProfile at 1. unfold bind at 1. unfold gets at 1.
  destruct (maybeSingle (cache_eq_did did s)) as [c|].
  - exists (set_ticks S s). repeat split.
    unfold bind at 1. unfold bind at 1. unfold now at 1. unfold ret at 1.
    apply Z.ltb_ge in Hstale. now rewrite Hstale.
  - exists s. repeat split.
Qed.

Lemma getBlueskyProfile_fresh did s status statusText body profile :
  stale E did s ->
  profile_api E (to_string did) = Response true status statusText body ->
  json_parse E body = Ok profile ->
  nullish profile = false ->
  eval (getBlueskyProfile E did) s = Ok profile
  /\ lookups (exec (getBlueskyProfile E did) s)
     = (lookups s ++ [to_string did])%list
  /\ exists t,
       cache_eq_did did (exec (getBlueskyProfile E did) s)
       = [mkCached (to_string did) (oget profile "handle")
            (oget profile "displayName") (oget profile "avatar") t].
Proof.
  intros Hstale Hapi Hjson Hnn.
  destruct (getBlueskyProfile_stale did s Hstale)
    as [s0 [_ [_ [Hl [Hc Heq]]]]].
  unfold eval, exec. rewrite Heq.
  unfold try_catch, bind, fetch_profile, lift, now, upsert_cache, modify, ret.
  rewrite Hapi. cbn [negb]. rewrite Hjson.
  rewrite !(get_oget profile _ Hnn). cbn [fst snd].
  split; [reflexivity|]. split; [cbn; now rewrite Hl|].
  eexists. unfold cache_eq_did. cbn [bluesky_profile_cache set_cache set_ticks
                                      set_lookups].
  rewrite filter_app.
  rewrite (filter_out_then_in (fun c => (c_did c =? to_string did)%string)).
  cbn. rewrite String.eqb_refl. reflexivity.
Qed.

Lemma getBlueskyProfile_failed did s :
  stale E did s -> lookup_fails E did ->
  exists s',
    getBlueskyProfile E did s = (Ok Null, s')
    /\ core s' = core s /\ notifications s' = notifications s.
Proof.
  intros Hstale Hfail.
  destruct (getBlueskyProfile_stale did s Hstale)
    as [s0 [Hcore [Hn [_ [_ Heq]]]]].
  rewrite Heq. unfold lookup_fails in Hfail.
  unfold try_catch, bind, fetch_profile, lift, ret.
  destruct (profile_api E (to_string did)) as [e|[|] status statusText body].
  - eexists. split; [reflexivity|]. split; [exact Hcore|exact Hn].
  - cbn [negb]. destruct (json_parse E body); [contradiction|].
    eexists. split; [reflexivity|]. split; [exact Hcore|exact Hn].
  - eexists. split; [reflexivity|]. split; [exact Hcore|exact Hn].
Qed.

End Profiles.

(** C9: resolving a profile whose cache entry is younger than the
    time-to-live returns the entry and sends no request; with no entry, or
    one that has reached the time-to-live, it sends one request, stores
    what came back as the entry of the actor and returns it; and when the
    request fails (it throws, the response is not OK, or the body does not
    parse) it returns null and does not throw, and the notification is
    still written, with the first characters of the actor's identifier for
    a handle. *)
Theorem profile_resolution E did s :
  (forall c,
     maybeSingle (cache_eq_did did s) = Some c ->
     clock E (ticks s) - c_cached_at c < PROFILE_CACHE_TTL_MS ->
     eval (getBlueskyProfile E did) s = Ok (cached_value c)
     /\ lookups (exec (getBlueskyProfile E did) s) = lookups s
     /\ bluesky_profile_cache (exec (getBlueskyProfile E did) s)
        = bluesky_profile_cache s)
  /\ (forall status statusText body profile,
        stale E did s ->
        profile_api E (to_string did) = Response true status statusText body ->
        json_parse E body = Ok profile ->
        nullish profile = false ->
        eval (getBlueskyProfile E did) s = Ok profile
        /\ lookups (exec (getBlueskyProfile E did) s)
           = (lookups s ++ [to_string did])%list
        /\ exists t,
             cache_eq_did did (exec (getBlueskyProfile E did) s)
             = [mkCached (to_string did) (oget profile "handle")
                  (oget profile "displayName") (oget profile "avatar") t])
  /\ (stale E did s -> lookup_fails E did ->
      eval (getBlueskyProfile E did) s = Ok Null
      /\ forall user d reason postId,
           did = Str d ->
           eval (createExternalNotification E user did reason postId) s
           = Ok tt
           /\ notifications
                (exec (createExternalNotification E user did reason postId) s)
              = (notifications s
                 ++ [mkNotification user did (Str (String.substring 0 20 d))
                       Undefined Undefined reason postId true])%list).
Proof.
  split; [|split].
  - intros c Hc Hage. unfold eval, exec.
    rewrite (getBlueskyProfile_hit E did s c Hc Hage). repeat split.
  - intros status statusText body profile Hstale Hapi Hjson Hnn.
    now apply getBlueskyProfile_fresh with status statusText body.
  - intros Hstale Hfail.
    destruct (getBlueskyProfile_failed E did s Hstale Hfail)
      as [s' [Heq [_ Hn]]].
    split.
    + unfold eval. now rewrite Heq.
    + intros user d reason postId ->.
      unfold eval, exec, createExternalNotification, bind. rewrite Heq.
      cbn. now rewrite Hn.
Qed.

Lemma profile_resolution_witness :
  eval (getBlueskyProfile Sample.world_with_bob (Str "did:plc:bob"))
    Sample.store
  = Ok Sample.bob_profile
  /\ eval (getBlueskyProfile (Sample.world Sample.timeout) (Str "did:plc:bob"))
       Sample.store
     = Ok Null.
Proof.
  split.
  - apply (proj1 (proj2 (profile_resolution Sample.world_with_bob
                           (Str "did:plc:bob") Sample.store))
             200 "OK" "bob" Sample.bob_profile);
      first [reflexivity | exact I].
  - apply (proj2 (proj2 (profile_resolution (Sample.world Sample.timeout)
                           (Str "did:plc:bob") Sample.store))); exact I.
Defined.

(** *** Two writers on one key *)

Section Racing.

Variable E : env.
Variable target : post.
Variables actorDid rkey : value.
Variables left right : Race.path.

Lemma count_key_absent table r :
  existsb (has_at_uri (i_at_uri r)) table = false ->
  filter (has_at_uri (i_at_uri r)) table = [].
Proof.
  induction table as [|x table IH]; simpl; [reflexivity|].
  intros H. apply orb_false_elim in H. destruct H as [Hx Ht].
  rewrite Hx. now apply IH.
Qed.

(** What one request of a writer does to the records under the key and to
    the counter. *)
Lemma step_writer_effect p a s a' s' :
  Race.unique_at_uri E ->
  Race.terminal a = false ->
  Race.step_writer E target actorDid rkey p a s = (a', s') ->
  (Race.inserted a' = Race.inserted a
   /\ count_key (Race.key actorDid rkey) s' = count_key (Race.key actorDid rkey) s
   \/ Race.inserted a = false /\ Race.inserted a' = true
      /\ count_key (Race.key actorDid rkey) s = 0%nat /\ count_key (Race.key actorDid rkey) s' = 1%nat)
  /\ (Race.bumped a' = Race.bumped a /\ counter like s' = counter like s
      \/ Race.bumped a = false /\ Race.bumped a' = true
         /\ counter like s' = bump (post_id target) (counter like s)).
Proof.
  intros Hunique Hterm Hstep. destruct a; try discriminate; simpl in Hstep.
  - destruct (maybeSingle _); inversion Hstep; subst; split; left; now split.
  - unfold insert_interaction in Hstep.
    destruct (constraints_ok E (federated_interactions s)
                (Race.row target actorDid rkey)) eqn:Hok;
      inversion Hstep; subst.
    + apply Hunique in Hok. apply count_key_absent in Hok.
      change (i_at_uri (Race.row target actorDid rkey)) with (Race.key actorDid rkey) in Hok.
      split; [right|left; now split].
      repeat split; unfold count_key, interactions_eq_at_uri.
      * now rewrite Hok.
      * cbn [federated_interactions set_interactions].
        rewrite filter_added, Hok. unfold has_at_uri. cbn [i_at_uri Race.row].
        now rewrite String.eqb_refl.
    + split; left; now split.
  - inversion Hstep; subst. split.
    + left. split; [now destruct p|reflexivity].
    + right. split; [reflexivity|]. split; [now destruct p|].
      unfold counter, bump, exec. cbn. rewrite !map_map.
      apply map_ext. intros x. cbn.
      destruct (post_id x =? post_id target)%string; reflexivity.
  - inversion Hstep; subst. split; left; split; try reflexivity.
    + unfold count_key, interactions_eq_at_uri, exec.
      now rewrite (createExternalNotification_keeps E federated_interactions).
    + apply counter_after_notification.
Qed.

Lemma iter_once {A} (f : A -> A) n x : Nat.iter (n + 1) f x = f (Nat.iter n f x).
Proof. now rewrite Nat.add_1_r. Qed.

Lemma race_invariant_step s0 c c' :
  Race.unique_at_uri E ->
  race_invariant target actorDid rkey s0 c ->
  Race.step E target actorDid rkey left right c c' ->
  race_invariant target actorDid rkey s0 c'.
Proof.
  intros Hunique Hinv Hstep.
  destruct Hstep as [s a b a' s' Hterm Hw | s a b b' s' Hterm Hw];
    destruct Hinv as [Hnot [Hcount Hbump]];
    destruct (step_writer_effect _ _ _ _ _ Hunique Hterm Hw)
      as [[[Hi Hc]|[Hi [Hi' [Hc Hc']]]] [[Hb Hn]|[Hb [Hb' Hn]]]];
    unfold race_invariant;
    rewrite ?Hi, ?Hi', ?Hb, ?Hb', ?Hc, ?Hc', ?Hn in *;
    repeat split; try assumption; try lia;
    try (destruct (Race.inserted a), (Race.inserted b);
         simpl in *; (reflexivity || discriminate || lia));
    try (rewrite Hbump; simpl; try rewrite iter_once; reflexivity);
    try (rewrite Hbump; cbn [Nat.b2n]; rewrite Nat.add_0_r, iter_once;
         reflexivity).
Qed.

Lemma race_invariant_steps s0 c :
  Race.unique_at_uri E ->
  Race.steps E target actorDid rkey left right
    (s0, Race.Check, Race.Check) c ->
  race_invariant target actorDid rkey s0 c.
Proof.
  intros Hunique Hsteps.
  remember (s0, Race.Check, Race.Check) as c0 eqn:Hc0.
  induction Hsteps as [c|c1 c2 c3 Hsteps IH Hstep].
  - subst. unfold race_invariant. simpl. repeat split. lia.
  - eapply race_invariant_step; eauto.
Qed.

(** A schedule is a run. *)
Lemma run_schedule_steps schedule : forall c,
  Race.steps E target actorDid rkey left right c
    (Race.run_schedule E target actorDid rkey left right schedule c).
Proof.
  assert (forall c1 c2 c3,
             Race.step E target actorDid rkey left right c1 c2 ->
             Race.steps E target actorDid rkey left right c2 c3 ->
             Race.steps E target actorDid rkey left right c1 c3) as Hcons.
  { intros c1 c2 c3 H12 H23. induction H23.
    - eapply Race.steps_next; [apply Race.steps_refl|exact H12].
    - eapply Race.steps_next; [apply IHsteps; exact H12|exact H]. }
  induction schedule as [|first rest IH]; intros [[s a] b]; simpl.
  - apply Race.steps_refl.
  - destruct first.
    + destruct (Race.terminal a) eqn:Hterm; [apply IH|].
      destruct (Race.step_writer E target actorDid rkey left a s) as [a' s'] eqn:Hw.
      eapply Hcons; [|apply IH]. now apply Race.step_left.
    + destruct (Race.terminal b) eqn:Hterm; [apply IH|].
      destruct (Race.step_writer E target actorDid rkey right b s) as [b' s'] eqn:Hw.
      eapply Hcons; [|apply IH]. now apply Race.step_right.
Qed.

(** The ingestion writer, run alone, is the create branch of
    handleLikeEvent once the subject is resolved. *)
Lemma run_alone_is_handler record s :
  not_local (oget (oget record "subject") "uri") = Ok false ->
  single (posts_eq_at_uri (oget (oget record "subject") "uri") s)
  = Some target ->
  snd (Race.run_alone E target actorDid rkey 4 Race.Ingest Race.Check s)
  = exec (handleLikeEvent E actorDid (Str "create") record rkey) s.
Proof.
  intros Hlocal Hfound.
  unfold handleLikeEvent, exec, bind, lift, gets, ret. rewrite Hlocal, Hfound.
  change (is_str (Str "create") "create") with true. cbv iota beta.
  fold (Race.key actorDid rkey). simpl Race.run_alone.
  destruct (maybeSingle (interactions_eq_at_uri (Race.key actorDid rkey) s)); [reflexivity|].
  simpl. unfold insert_interaction. fold (Race.row target actorDid rkey).
  destruct (constraints_ok E (federated_interactions s)
              (Race.row target actorDid rkey)); reflexivity.
Qed.

End Racing.

(** C2: with the uniqueness constraint on the key at the storage layer,
    two writers on one key (two deliveries of the same event, or ingestion
    and write-through), interleaved request by request in any order, never
    both insert: however far they have run, at most one has passed its
    insert, the records under the key are those of the start plus that
    one, and the counter has one increment for each writer past its
    increment; when both are done, records and increments have grown by
    the same number, which is at most one. *)
Theorem racing_writers_apply_once E target actorDid rkey left right s0 s a b :
  Race.unique_at_uri E ->
  Race.steps E target actorDid rkey left right
    (s0, Race.Check, Race.Check) (s, a, b) ->
  let k := Race.key actorDid rkey in
  Race.inserted a && Race.inserted b = false
  /\ count_key k s
     = (count_key k s0 + Nat.b2n (Race.inserted a)
        + Nat.b2n (Race.inserted b))%nat
  /\ counter like s
     = Nat.iter (Nat.b2n (Race.bumped a) + Nat.b2n (Race.bumped b))
         (bump (post_id target)) (counter like s0)
  /\ (Race.terminal a = true -> Race.terminal b = true ->
      exists n,
        (n <= 1)%nat
        /\ count_key k s = (count_key k s0 + n)%nat
        /\ counter like s = Nat.iter n (bump (post_id target)) (counter like s0)).
Proof.
  intros Hunique Hsteps k.
  destruct (race_invariant_steps E target actorDid rkey left right s0 _
              Hunique Hsteps) as [Hnot [Hcount Hbump]].
  repeat split; try assumption.
  intros Ha Hb.
  exists (Nat.b2n (Race.inserted a) + Nat.b2n (Race.inserted b))%nat.
  repeat split.
  - destruct (Race.inserted a), (Race.inserted b); simpl in *;
      (lia || discriminate).
  - fold k in Hcount. lia.
  - rewrite Hbump. destruct a, b; try discriminate; reflexivity.
Qed.

Lemma unique_key_is_unique : Race.unique_at_uri Sample.world_with_bob.
Proof.
  intros table r H. cbn in H. unfold Sample.unique_key in H.
  now apply negb_true_iff in H.
Qed.

Lemma racing_writers_apply_once_witness :
  let final :=
    Race.run_schedule Sample.world_with_bob Sample.post1 (Str "did:plc:bob")
      (Str "3kl1") Race.Ingest Race.Ingest Sample.taking_turns
      (Sample.store, Race.Check, Race.Check) in
  count_key (Race.key (Str "did:plc:bob") (Str "3kl1")) (fst (fst final))
  = 1%nat
  /\ counter like (fst (fst final)) = [("post-1", 6)].
Proof.
  intros final.
  pose proof (racing_writers_apply_once Sample.world_with_bob Sample.post1
                (Str "did:plc:bob") (Str "3kl1") Race.Ingest Race.Ingest
                Sample.store (fst (fst final)) (snd (fst final)) (snd final)
                unique_key_is_unique) as H.
  assert (final = (fst (fst final), snd (fst final), snd final)) as Hfinal
    by now destruct final as [[? ?] ?].
  rewrite <- Hfinal in H.
  specialize (H (run_schedule_steps _ _ _ _ _ _ _ _)).
  cbv zeta in H. destruct H as [_ [H1 [H2 _]]].
  split.
  - rewrite H1. vm_compute. reflexivity.
  - rewrite H2. vm_compute. reflexivity.
Defined.

(** Without the constraint the same schedule inserts twice and increments
    twice: the check of each writer precedes the insert of the other. *)
Lemma racing_writers_without_constraint :
  let final :=
    Race.run_schedule (Sample.world Sample.timeout) Sample.post1
      (Str "did:plc:bob") (Str "3kl1") Race.Ingest Race.Ingest
      Sample.taking_turns (Sample.store, Race.Check, Race.Check) in
  count_key (Race.key (Str "did:plc:bob") (Str "3kl1")) (fst (fst final))
  = 2%nat
  /\ counter like (fst (fst final)) = [("post-1", 7)].
Proof. cbv zeta. split; vm_compute; reflexivity. Qed.

(** *** The outbound agent *)

(** C7: when the PDS does not accept the write of an outbound action, the
    caller gets the failure and the mirror is as it was: no record created
    or deleted, no counter changed.  More generally the mirror changes
    only when [perform] returns the reference the PDS issued. *)
Theorem failed_write_leaves_mirror E P a user t st :
  ((forall credential uri,
      Outbound.write P credential a t <> Outbound.Accepted uri) ->
   exists why, fst (Outbound.perform E P a user t st) = inl why)
  /\ (forall why,
        fst (Outbound.perform E P a user t st) = inl why ->
        Outbound.mirror (snd (Outbound.perform E P a user t st))
        = Outbound.mirror st).
Proof.
  unfold Outbound.perform. split.
  - intros Hfail.
    destruct (find _ (Outbound.sessions st)) as [who|]; [|now eexists].
    destruct (Outbound.write P (Outbound.session_credential who) a t)
      as [uri| |why] eqn:Hw; [now apply Hfail in Hw| |now eexists].
    destruct (Outbound.refresh P who) as [credential|]; [|now eexists].
    destruct (Outbound.write P credential a t) as [uri| |why] eqn:Hw';
      [now apply Hfail in Hw'|now eexists|now eexists].
  - intros why.
    destruct (find _ (Outbound.sessions st)) as [who|]; [|reflexivity].
    destruct (Outbound.write P (Outbound.session_credential who) a t)
      as [uri| |why']; [discriminate| |reflexivity].
    destruct (Outbound.refresh P who) as [credential|]; [|reflexivity].
    destruct (Outbound.write P credential a t) as [uri| |why'];
      [discriminate|reflexivity|reflexivity].
Qed.

Lemma failed_write_leaves_mirror_witness :
  fst (Outbound.perform (Sample.world Sample.timeout) Sample.pds_down
         Outbound.Repost "user-carol"
         (Outbound.mkTarget "post-1" "") Sample.agent)
  = inl Outbound.NetworkFailure
  /\ Outbound.mirror
       (snd (Outbound.perform (Sample.world Sample.timeout) Sample.pds_down
               Outbound.Repost "user-carol"
               (Outbound.mkTarget "post-1" "") Sample.agent))
     = Sample.store.
Proof.
  split; [reflexivity|].
  apply (proj2 (failed_write_leaves_mirror (Sample.world Sample.timeout)
                  Sample.pds_down Outbound.Repost "user-carol"
                  (Outbound.mkTarget "post-1" "") Sample.agent)
           Outbound.NetworkFailure).
  reflexivity.
Defined.

(* ===================================================================== *)
(** ** Further properties of the polling function *)
(* ===================================================================== *)

(** *** The text of the stream *)

Lemma split_lines_not_nil text : split_lines text <> [].
Proof.
  destruct text as [|c rest]; simpl; [discriminate|].
  destruct (Ascii.eqb c "010"%char); [discriminate|].
  destruct (split_lines rest); discriminate.
Qed.

Lemma join_cons sep c line lines :
  join sep (String c line :: lines) = String c (join sep (line :: lines)).
Proof. destruct lines; reflexivity. Qed.

(** X1: splitting a text into lines loses nothing: joined again with
    line feeds, the lines are the text, whatever the text. *)
Theorem split_lines_join text : join LF (split_lines text) = text.
Proof.
  induction text as [|c rest IH]; [reflexivity|].
  simpl split_lines. destruct (Ascii.eqb c "010"%char) eqn:Hc.
  - apply Ascii.eqb_eq in Hc. subst c.
    destruct (split_lines rest) as [|line lines] eqn:Hs.
    + now apply split_lines_not_nil in Hs.
    + change (join LF ("" :: line :: lines))
        with (String "010"%char (join LF (line :: lines))).
      now rewrite IH.
  - destruct (split_lines rest) as [|line lines] eqn:Hs.
    + now apply split_lines_not_nil in Hs.
    + rewrite join_cons. now rewrite IH.
Qed.

Lemma split_lines_one line :
  free_of_LF line = true -> split_lines line = [line].
Proof.
  induction line as [|c rest IH]; simpl; [reflexivity|].
  intros H. apply andb_prop in H. destruct H as [Hc Hrest].
  apply negb_true_iff in Hc. rewrite Hc, (IH Hrest). reflexivity.
Qed.

Lemma split_lines_first line text :
  free_of_LF line = true ->
  split_lines (line ++ String "010"%char text) = line :: split_lines text.
Proof.
  induction line as [|c rest IH]; simpl; [reflexivity|].
  intros H. apply andb_prop in H. destruct H as [Hc Hrest].
  apply negb_true_iff in Hc. rewrite Hc, (IH Hrest). reflexivity.
Qed.

Lemma split_lines_of_join lines :
  lines <> [] ->
  forallb free_of_LF lines = true ->
  split_lines (join LF lines) = lines.
Proof.
  induction lines as [|line rest IH]; [congruence|].
  intros _ H. simpl in H. apply andb_prop in H. destruct H as [Hline Hrest].
  destruct rest as [|next rest].
  - now apply split_lines_one.
  - change (join LF (line :: next :: rest))
      with (line ++ String "010"%char (join LF (next :: rest))).
    rewrite split_lines_first by exact Hline.
    rewrite IH; [reflexivity|discriminate|exact Hrest].
Qed.

Lemma substring_whole s : String.substring 0 (String.length s) s = s.
Proof. induction s as [|c s IH]; simpl; [reflexivity|now rewrite IH]. Qed.

Lemma data_lines_free payloads :
  forallb free_of_LF payloads = true ->
  forallb free_of_LF (map (fun p => "data: " ++ p) payloads) = true.
Proof.
  induction payloads as [|p l IH]; cbn [map forallb]; [reflexivity|].
  intros H. apply andb_prop in H. destruct H as [Hp Hl].
  change (free_of_LF ("data: " ++ p)) with (free_of_LF p).
  now rewrite Hp, IH.
Qed.

(** X2: the events of a text made of data lines are the payloads that
    parse, in the order of their lines; a payload that does not parse is
    skipped and the others are kept. *)
Theorem parseSSEEvents_data_lines E payloads :
  forallb free_of_LF payloads = true ->
  parseSSEEvents E (join LF (map (fun p => "data: " ++ p) payloads))
  = flat_map (parsed E) payloads.
Proof.
  intros Hfree. unfold parseSSEEvents.
  destruct payloads as [|first rest]; [reflexivity|].
  rewrite split_lines_of_join.
  - rewrite flat_map_concat_map, map_map, <- flat_map_concat_map.
    apply flat_map_ext. intros p.
    change (String.prefix "data: " ("data: " ++ p)) with (String.prefix "" p).
    replace (String.prefix "" p) with true by now destruct p.
    change (String.length ("data: " ++ p) - 6)%nat
      with (String.length p - 0)%nat.
    rewrite Nat.sub_0_r.
    change (String.substring 6 (String.length p) ("data: " ++ p))
      with (String.substring 0 (String.length p) p).
    now rewrite substring_whole.
  - discriminate.
  - now apply data_lines_free.
Qed.

Lemma parseSSEEvents_data_lines_witness :
  parseSSEEvents (Sample.world Sample.timeout)
    (join LF ["data: like-create"; "data: {broken"; "data: elsewhere"])
  = [Sample.like_create; Sample.elsewhere].
Proof.
  apply (parseSSEEvents_data_lines (Sample.world Sample.timeout)
           ["like-create"; "{broken"; "elsewhere"]).
  reflexivity.
Defined.

(** X3: no more events than lines: every event comes from a line of its
    own, and a line without the data prefix gives none. *)
Theorem parseSSEEvents_bounded E text :
  (List.length (parseSSEEvents E text) <= List.length (split_lines text))%nat
  /\ (forallb (fun line => negb (String.prefix "data: " line))
        (split_lines text) = true ->
      parseSSEEvents E text = []).
Proof.
  unfold parseSSEEvents. split.
  - induction (split_lines text) as [|line lines IH]; simpl; [lia|].
    rewrite length_app.
    destruct (String.prefix "data: " line); simpl; [|lia].
    destruct (json_parse E _); simpl; lia.
  - induction (split_lines text) as [|line lines IH]; simpl; [reflexivity|].
    intros H. apply andb_prop in H. destruct H as [Hline Hrest].
    apply negb_true_iff in Hline. rewrite Hline. simpl. now apply IH.
Qed.

(** *** What a cycle reports *)

Section Report.

Variable E : env.

Lemma effect_one_count event latest s :
  0 <= fst (effect_one E event latest s) <= 1.
Proof.
  unfold effect_one. destruct (moved E event latest); simpl; [|lia].
  destruct (attempt E event s) as [[[|]|] s']; simpl; lia.
Qed.

Lemma effect_all_count events : forall latest s,
  0 <= fst (effect_all E events latest s) <= Z.of_nat (List.length events).
Proof.
  induction events as [|event rest IH]; intros latest s; [simpl; lia|].
  cbn [effect_all List.length].
  pose proof (effect_one_count event latest s) as H1.
  destruct (effect_one E event latest s) as [d s']. cbn [fst] in H1.
  specialize (IH (position_after E event latest) s').
  destruct (effect_all E rest _ s') as [n s''].
  cbn [fst] in *. lia.
Qed.

(** A cycle without its cursor row. *)
Lemma serve_no_cursor method s :
  (method =? "OPTIONS")%string = false ->
  jetstream_cursor s = None ->
  exists s',
    serve E method s
    = (Ok (Failure (exn_to_string (Error "Cursor fetch failed: no row"))), s')
    /\ core s' = core s /\ notifications s' = notifications s
    /\ bluesky_profile_cache s' = bluesky_profile_cache s
    /\ lookups s' = lookups s /\ jetstream_cursor s' = None.
Proof.
  intros Hm Hrow. unfold serve. rewrite Hm.
  unfold bind at 1. unfold now at 1. unfold try_catch.
  unfold bind at 1. unfold gets at 1.
  change (jetstream_cursor (set_ticks S s)) with (jetstream_cursor s).
  rewrite Hrow. unfold throw. eexists. split; [reflexivity|].
  cbn. rewrite Hrow. repeat split.
Qed.

(** The four ways a cycle can go. *)
Lemma serve_cases method s :
  serve E method s = (Ok Preflight, s)
  \/ (exists error s',
        serve E method s = (Ok (Failure error), s')
        /\ core s' = core s /\ notifications s' = notifications s
        /\ bluesky_profile_cache s' = bluesky_profile_cache s
        /\ lookups s' = lookups s)
  \/ (exists row events,
        jetstream_cursor s = Some row
        /\ batch E (start_cursor E row s) = Ok events
        /\ let done :=
             effect_all E events (Num (start_cursor E row s))
               (started row s) in
           let latest := furthest E events (Num (start_cursor E row s)) in
           exists durationMs t,
             serve E method s
             = (Ok (Success (Z.of_nat (List.length events)) (fst done)
                      latest durationMs),
                set_ticks S
                  (match stored_position E latest with
                   | Some position =>
                       set_cursor
                         (option_map (fun _ =>
                            mkCursor position (fst done) None t))
                         (set_ticks S (snd done))
                   | None => set_ticks S (snd done)
                   end))).
Proof.
  destruct (method =? "OPTIONS")%string eqn:Hm.
  { left. unfold serve. now rewrite Hm. }
  right. destruct (jetstream_cursor s) as [row|] eqn:Hrow.
  - destruct (batch E (start_cursor E row s)) as [events|e] eqn:Hbatch.
    + right. exists row, events. split; [reflexivity|]. split; [exact Hbatch|].
      cbv zeta. do 2 eexists.
      apply (serve_batch E method s row events Hm Hrow Hbatch).
    + left. do 2 eexists. split;
        [apply (serve_failed E method s row e Hm Hrow Hbatch)|].
      unfold started. destruct (cursor_time_us row =? 0); repeat split.
  - left. destruct (serve_no_cursor method s Hm Hrow)
      as [s' [Heq [H1 [H2 [H3 [H4 _]]]]]].
    eexists _, s'. split; [exact Heq|]. now repeat split.
Qed.

End Report.

(** X5: a cycle that reports success processed no more events than it
    received, and what it reports is what it sent to the cursor row: when
    the column stores the reported position, the row holds what is stored
    of it and the reported count, with no error; when the column does not,
    the update went unnoticed and the row is as it was. *)
Theorem success_report_is_committed E method s received processed cursor d :
  eval (serve E method) s = Ok (Success received processed cursor d) ->
  0 <= processed <= received
  /\ match stored_position E cursor with
     | Some position =>
         exists t,
           jetstream_cursor (exec (serve E method) s)
           = Some (mkCursor position processed None t)
     | None =>
         jetstream_cursor (exec (serve E method) s) = jetstream_cursor s
     end.
Proof.
  unfold eval, exec.
  destruct (serve_cases E method s)
    as [H|[[error [s' [H _]]]|[row [events [Hrow [_ H]]]]]].
  - rewrite H. discriminate.
  - rewrite H. discriminate.
  - cbv zeta in H. destruct H as [d' [t H]]. rewrite H. cbn [fst snd].
    intros Heq. inversion Heq; subst. split.
    + apply effect_all_count.
    + destruct (stored_position E _).
      * exists t. cbn.
        now rewrite effect_all_keeps_cursor, started_cursor, Hrow.
      * cbn. now rewrite effect_all_keeps_cursor, started_cursor.
Qed.

Lemma success_report_is_committed_witness :
  exists t,
    jetstream_cursor
      (exec (serve (Sample.world Sample.three_events) "POST") Sample.store)
    = Some (mkCursor 300 1 None t).
Proof.
  apply (proj2 (success_report_is_committed
                  (Sample.world Sample.three_events) "POST" Sample.store
                  3 1 (Num 300) 2 eq_refl)).
Defined.

(** X6: a cycle that reports a failure has changed no post, profile,
    mirror record, notification or cache entry and has sent no profile
    lookup. *)
Theorem failed_cycle_changes_nothing E method s error :
  eval (serve E method) s = Ok (Failure error) ->
  let s' := exec (serve E method) s in
  core s' = core s
  /\ notifications s' = notifications s
  /\ bluesky_profile_cache s' = bluesky_profile_cache s
  /\ lookups s' = lookups s.
Proof.
  unfold eval, exec.
  destruct (serve_cases E method s)
    as [H|[[error' [s' [H Hsame]]]|[row [events [_ [_ H]]]]]].
  - rewrite H. discriminate.
  - rewrite H. intros _. exact Hsame.
  - cbv zeta in H. destruct H as [d [t H]]. rewrite H. discriminate.
Qed.

Lemma failed_cycle_changes_nothing_witness :
  core (exec (serve (Sample.world Sample.unreachable) "POST") Sample.store)
  = core Sample.store.
Proof.
  apply (failed_cycle_changes_nothing (Sample.world Sample.unreachable)
           "POST" Sample.store "TypeError: fetch failed" eq_refl).
Defined.

(** *** The filter and the handlers agree *)

Section Agreement.

Variable E : env.

Lemma oget_falsy v k : truthy v = false -> oget v k = Undefined.
Proof. destruct v; simpl; intros H; try reflexivity; discriminate. Qed.

Lemma not_local_of_oincludes v :
  oincludes v CANNECT_DOMAIN = Ok false -> not_local v = Ok true.
Proof.
  unfold oincludes, not_local.
  destruct (truthy v) eqn:Ht; [|reflexivity]. simpl.
  rewrite (truthy_not_nullish v Ht). now intros ->.
Qed.

Lemma handleLikeEvent_skips did operation record rkey s :
  not_local (oget (oget record "subject") "uri") = Ok true ->
  handleLikeEvent E did operation record rkey s = (Ok tt, s).
Proof. intros H. unfold handleLikeEvent, bind, lift. now rewrite H. Qed.

Lemma handleRepostEvent_skips did operation record rkey s :
  not_local (oget (oget record "subject") "uri") = Ok true ->
  handleRepostEvent E did operation record rkey s = (Ok tt, s).
Proof. intros H. unfold handleRepostEvent, bind, lift. now rewrite H. Qed.

Lemma mirror_post_reference_skips ref k kind increment reason did record s :
  oincludes ref CANNECT_DOMAIN = Ok false ->
  mirror_post_reference E ref k kind increment reason did record s
  = (Ok tt, s).
Proof. intros H. unfold mirror_post_reference, bind, lift. now rewrite H. Qed.

Lemma handlePostEvent_skips did operation record rkey s :
  oincludes (oget (oget (oget record "reply") "parent") "uri") CANNECT_DOMAIN
  = Ok false ->
  oincludes (oget (oget (oget record "embed") "record") "uri") CANNECT_DOMAIN
  = Ok false ->
  handlePostEvent E did operation record rkey s = (Ok tt, s).
Proof.
  intros Hp Hq. unfold handlePostEvent.
  destruct (is_str operation "create"); [|reflexivity]. cbn [negb].
  unfold bind. now rewrite !mirror_post_reference_skips.
Qed.

Lemma handleFollowEvent_skips did operation record rkey s :
  truthy (oget record "subject") = false ->
  handleFollowEvent E did operation record rkey s = (Ok tt, s).
Proof. intros H. unfold handleFollowEvent. now rewrite H. Qed.

(** What processEvent comes to on an event that has a commit. *)
Lemma processEvent_commit fields commit s :
  lookup "commit" fields = commit -> truthy commit = true ->
  processEvent E (Obj fields) s
  = let did := lookup "did" fields in
    let operation := oget commit "operation" in
    let collection := oget commit "collection" in
    let record := oget commit "record" in
    let rkey := oget commit "rkey" in
    if is_str collection "app.bsky.feed.like" then
      handleLikeEvent E did operation record rkey s
    else if is_str collection "app.bsky.feed.repost" then
      handleRepostEvent E did operation record rkey s
    else if is_str collection "app.bsky.feed.post" then
      handlePostEvent E did operation record rkey s
    else if is_str collection "app.bsky.graph.follow" then
      handleFollowEvent E did operation record rkey s
    else (Ok tt, s).
Proof.
  intros Hc Ht. unfold processEvent, bind, lift. cbn [get]. rewrite Hc, Ht.
  cbn [negb]. rewrite !(get_truthy commit _ Ht). cbv zeta.
  repeat match goal with
         | |- context [if ?b then _ else _] => destruct b; try reflexivity
         end.
Qed.

(** An event without a commit goes through processEvent untouched. *)
Lemma processEvent_no_commit event s :
  truthy (oget event "commit") = false ->
  exec (processEvent E event) s = s.
Proof.
  intros H. unfold processEvent, exec, bind, lift.
  destruct event; simpl in *; try reflexivity. now rewrite H.
Qed.

End Agreement.

(** X7: the filter discards nothing a handler would act on: a commit
    event that the filter calls irrelevant would go through processEvent
    without any change to the state. *)
Theorem filtered_event_would_change_nothing E event s :
  is_str (oget event "kind") "commit" = true ->
  isRelevantToCannect event = Ok false ->
  exec (processEvent E event) s = s.
Proof.
  intros Hkind Hrel.
  destruct (truthy (oget event "commit")) eqn:Hc;
    [|now apply processEvent_no_commit].
  destruct (oget_truthy_obj _ _ Hc) as [fields ->].
  cbn [oget] in *. unfold exec.
  rewrite (processEvent_commit E fields _ s eq_refl Hc). cbv zeta.
  set (commit := lookup "commit" fields) in *.
  unfold isRelevantToCannect in Hrel. cbn [get rbind] in Hrel.
  fold commit in Hrel. rewrite Hkind, Hc in Hrel. cbn [negb orb] in Hrel.
  rewrite (get_truthy commit "record" Hc) in Hrel. cbn [rbind] in Hrel.
  set (record := oget commit "record") in *.
  destruct (truthy record) eqn:Hr; cbn [negb] in Hrel.
  - rewrite !(get_truthy record _ Hr) in Hrel. cbn [rbind] in Hrel.
    destruct (oincludes (oget (oget record "subject") "uri") CANNECT_DOMAIN)
      as [[|]|] eqn:H1; cbn [rbind] in Hrel; try discriminate.
    destruct (oincludes (oget (oget (oget record "reply") "parent") "uri")
                CANNECT_DOMAIN) as [[|]|] eqn:H2; cbn [rbind] in Hrel;
      try discriminate.
    destruct (oincludes (oget (oget (oget record "reply") "root") "uri")
                CANNECT_DOMAIN) as [[|]|] eqn:H3; cbn [rbind] in Hrel;
      try discriminate.
    destruct (oincludes (oget (oget (oget record "embed") "record") "uri")
                CANNECT_DOMAIN) as [[|]|] eqn:H4; cbn [rbind] in Hrel;
      try discriminate.
    rewrite (get_truthy commit "collection" Hc) in Hrel. cbn [rbind] in Hrel.
    destruct (is_str (oget commit "collection") "app.bsky.graph.follow")
      eqn:H5; try discriminate.
    apply not_local_of_oincludes in H1.
    rewrite handleLikeEvent_skips, handleRepostEvent_skips,
      handlePostEvent_skips by assumption.
    repeat match goal with
           | |- context [if ?b then _ else _] => destruct b; try reflexivity
           end.
  - assert (forall k, oget record k = Undefined) as Hundef
        by (intros k; now apply oget_falsy).
    rewrite handleLikeEvent_skips, handleRepostEvent_skips,
      handlePostEvent_skips, handleFollowEvent_skips;
      rewrite ?Hundef; try reflexivity.
    repeat match goal with
           | |- context [if ?b then _ else _] => destruct b; try reflexivity
           end.
Qed.

Lemma filtered_event_would_change_nothing_witness :
  exec (processEvent (Sample.world Sample.timeout) Sample.elsewhere)
    Sample.store
  = Sample.store.
Proof.
  apply (filtered_event_would_change_nothing (Sample.world Sample.timeout)
           Sample.elsewhere Sample.store eq_refl eq_refl).
Defined.

Lemma oincludes_of_local v :
  in_local_namespace v = true -> oincludes v CANNECT_DOMAIN = Ok true.
Proof.
  unfold in_local_namespace, oincludes, includes.
  destruct v; simpl; intros H; try discriminate; now rewrite H.
Qed.

(** X8: the filter lets through every commit event whose record names a
    subject in the local namespace, whatever else the record holds. *)
Theorem local_subject_is_relevant event :
  is_str (oget event "kind") "commit" = true ->
  truthy (event_record event) = true ->
  in_local_namespace (subject_uri event) = true ->
  isRelevantToCannect event = Ok true.
Proof.
  unfold subject_uri, event_record. intros Hkind Hr Hlocal.
  destruct (oget_truthy_obj _ _ Hr) as [cf Hcommit].
  assert (truthy (oget event "commit") = true) as Hc by now rewrite Hcommit.
  destruct (oget_truthy_obj _ _ Hc) as [fields ->].
  cbn [oget] in *.
  unfold isRelevantToCannect. cbn [get rbind].
  rewrite Hkind, Hc. cbn [negb orb].
  rewrite (get_truthy _ "record" Hc). cbn [rbind]. rewrite Hr. cbn [negb].
  rewrite (get_truthy _ "subject" Hr). cbn [rbind].
  now rewrite (oincludes_of_local _ Hlocal).
Qed.

Lemma local_subject_is_relevant_witness :
  isRelevantToCannect Sample.like_create = Ok true.
Proof.
  apply local_subject_is_relevant; reflexivity.
Defined.

(** *** What the dispatch leaves alone *)

Section Dispatch.

Variable E : env.

Lemma handleLikeEvent_other did operation record rkey s :
  is_str operation "create" = false -> is_str operation "delete" = false ->
  exec (handleLikeEvent E did operation record rkey) s = s.
Proof.
  intros Hc Hd. unfold handleLikeEvent, exec, bind, lift, gets, ret.
  rewrite Hc, Hd.
  destruct (not_local _) as [[|]|]; try reflexivity.
  now destruct (single _).
Qed.

Lemma handleRepostEvent_other did operation record rkey s :
  is_str operation "create" = false -> is_str operation "delete" = false ->
  exec (handleRepostEvent E did operation record rkey) s = s.
Proof.
  intros Hc Hd. unfold handleRepostEvent, exec, bind, lift, gets, ret.
  rewrite Hc, Hd.
  destruct (not_local _) as [[|]|]; try reflexivity.
  now destruct (single _).
Qed.

Lemma handleFollowEvent_other did operation record rkey s :
  is_str operation "create" = false -> is_str operation "delete" = false ->
  exec (handleFollowEvent E did operation record rkey) s = s.
Proof.
  intros Hc Hd. unfold handleFollowEvent, exec, bind, lift, gets, ret.
  rewrite Hc, Hd.
  destruct (truthy _); try reflexivity. cbn [negb].
  now destruct (single _).
Qed.

Lemma handlePostEvent_other did operation record rkey s :
  is_str operation "create" = false ->
  exec (handlePostEvent E did operation record rkey) s = s.
Proof. intros Hc. unfold handlePostEvent. now rewrite Hc. Qed.

End Dispatch.

(** X9: only creates and deletes of the four collections are acted on.
    An event with another operation (an update), an event of another
    collection, and any post event that is no create go through
    processEvent without any change to the state. *)
Theorem other_events_change_nothing E event s :
  (is_str (event_operation event) "create" = false
   /\ is_str (event_operation event) "delete" = false)
  \/ (is_str (event_collection event) "app.bsky.feed.like" = false
      /\ is_str (event_collection event) "app.bsky.feed.repost" = false
      /\ is_str (event_collection event) "app.bsky.feed.post" = false
      /\ is_str (event_collection event) "app.bsky.graph.follow" = false)
  \/ (is_str (event_collection event) "app.bsky.feed.post" = true
      /\ is_str (event_operation event) "create" = false) ->
  exec (processEvent E event) s = s.
Proof.
  intros H.
  destruct (truthy (oget event "commit")) eqn:Hc;
    [|now apply processEvent_no_commit].
  destruct (oget_truthy_obj _ _ Hc) as [fields ->].
  unfold event_operation, event_collection in H. cbn [oget] in *.
  unfold exec. rewrite (processEvent_commit E fields _ s eq_refl Hc).
  cbv zeta. set (commit := lookup "commit" fields) in *.
  destruct H as [[Hcreate Hdelete]|[[Hl [Hr [Hp Hf]]]|[Hp Hcreate]]].
  - destruct (is_str (oget commit "collection") "app.bsky.feed.like");
      [now apply handleLikeEvent_other|].
    destruct (is_str (oget commit "collection") "app.bsky.feed.repost");
      [now apply handleRepostEvent_other|].
    destruct (is_str (oget commit "collection") "app.bsky.feed.post");
      [now apply handlePostEvent_other|].
    destruct (is_str (oget commit "collection") "app.bsky.graph.follow");
      [now apply handleFollowEvent_other|reflexivity].
  - now rewrite Hl, Hr, Hp, Hf.
  - apply is_str_eq in Hp. rewrite Hp. cbn [is_str String.eqb Ascii.eqb
      Bool.eqb]. cbn. now apply handlePostEvent_other.
Qed.

Lemma other_events_change_nothing_witness :
  exec (processEvent (Sample.world Sample.timeout)
          (Sample.commit_event "did:plc:bob" 500 "app.bsky.feed.like" "update"
             "3kl1" (Sample.on_subject (Str Sample.local_post_uri))))
    Sample.store
  = Sample.store.
Proof.
  apply other_events_change_nothing. left. split; reflexivity.
Defined.

(** X10: a post event only adds mirror records, at most two of them, and
    each under the key of the post or that key with "#quote". *)
Theorem post_event_only_adds E event s :
  is_str (event_collection event) "app.bsky.feed.post" = true ->
  exists added,
    federated_interactions (exec (processEvent E event) s)
    = (federated_interactions s ++ added)%list
    /\ (List.length added <= 2)%nat
    /\ Forall (fun r => i_at_uri r = event_key reply event
                        \/ i_at_uri r = event_key quote event) added.
Proof.
  intros Hp. unfold event_collection in Hp.
  assert (truthy (oget event "commit") = true) as Hc.
  { destruct (oget event "commit"); simpl in Hp; try discriminate.
    reflexivity. }
  destruct (oget_truthy_obj _ _ Hc) as [fields ->].
  unfold event_key. cbn [oget collection_of] in *.
  unfold exec. rewrite (processEvent_commit E fields _ s eq_refl Hc).
  cbv zeta. set (commit := lookup "commit" fields) in *.
  apply is_str_eq in Hp. rewrite Hp. cbn.
  destruct (is_str (oget commit "operation") "create") eqn:Hop.
  - apply is_str_eq in Hop. rewrite Hop.
    destruct (handlePostEvent_create E (lookup "did" fields)
                (oget commit "record") (oget commit "rkey") s)
      as [s' [Hr Hq]].
    unfold exec in Hq.
    set (s1 := snd (handlePostEvent E _ _ _ _ s)) in *.
    assert (forall kind k a b,
               nothing_or_created E kind k (lookup "did" fields) a b ->
               exists added,
                 federated_interactions b
                 = (federated_interactions a ++ added)%list
                 /\ (List.length added <= 1)%nat
                 /\ Forall (fun r => i_at_uri r = k) added) as Hstep.
    { intros kind k a b [->|[_ [r [id [user [reason [p [Hk ->]]]]]]]].
      - exists []. rewrite app_nil_r. repeat split; [simpl; lia|constructor].
      - exists [r]. rewrite created_interactions.
        repeat split; [simpl; lia|]. now repeat constructor. }
    destruct (Hstep _ _ _ _ Hr) as [a1 [H1 [L1 F1]]].
    destruct (Hstep _ _ _ _ Hq) as [a2 [H2 [L2 F2]]].
    exists (a1 ++ a2)%list. rewrite H2, H1, <- app_assoc.
    split; [reflexivity|]. split; [rewrite length_app; lia|].
    apply Forall_app. split.
    + eapply Forall_impl; [|exact F1]. intros r Hk. now left.
    + eapply Forall_impl; [|exact F2]. intros r Hk. now right.
  - pose proof (handlePostEvent_other E (lookup "did" fields)
                  (oget commit "operation") (oget commit "record")
                  (oget commit "rkey") s Hop) as Ho.
    unfold exec in Ho. rewrite Ho.
    exists []. rewrite app_nil_r. repeat split; [simpl; lia|constructor].
Qed.

Lemma post_event_only_adds_witness :
  exists added,
    federated_interactions
      (exec (processEvent (Sample.world Sample.timeout) Sample.elsewhere)
         Sample.store)
    = (federated_interactions Sample.store ++ added)%list
    /\ (List.length added <= 2)%nat.
Proof.
  destruct (post_event_only_adds (Sample.world Sample.timeout)
              Sample.elsewhere Sample.store eq_refl) as [added [H1 [H2 _]]].
  exists added. split; assumption.
Defined.

(** *** What a handler does, whatever the operation *)

Section Effects.

Variable E : env.

Lemma handleLikeEvent_effect did operation record rkey s :
  handler_effect E like (interaction_uri did "app.bsky.feed.like" rkey) did s
    (exec (handleLikeEvent E did operation record rkey) s).
Proof.
  destruct (is_str operation "create") eqn:Hop.
  - apply is_str_eq in Hop. subst. left. apply handleLikeEvent_create.
  - unfold handleLikeEvent, exec, bind, lift, gets, ret. rewrite Hop.
    destruct (not_local _) as [[|]|]; try (left; left; reflexivity).
    destruct (single _) as [target|]; try (left; left; reflexivity).
    destruct (is_str operation "delete"); try (left; left; reflexivity).
    right. exists (post_id target). reflexivity.
Qed.

Lemma handleRepostEvent_effect did operation record rkey s :
  handler_effect E repost (interaction_uri did "app.bsky.feed.repost" rkey)
    did s (exec (handleRepostEvent E did operation record rkey) s).
Proof.
  destruct (is_str operation "create") eqn:Hop.
  - apply is_str_eq in Hop. subst. left. apply handleRepostEvent_create.
  - unfold handleRepostEvent, exec, bind, lift, gets, ret. rewrite Hop.
    destruct (not_local _) as [[|]|]; try (left; left; reflexivity).
    destruct (single _) as [target|]; try (left; left; reflexivity).
    destruct (is_str operation "delete"); try (left; left; reflexivity).
    right. exists (post_id target). reflexivity.
Qed.

Lemma handleFollowEvent_effect did operation record rkey s :
  handler_effect E follow (interaction_uri did "app.bsky.graph.follow" rkey)
    did s (exec (handleFollowEvent E did operation record rkey) s).
Proof.
  destruct (is_str operation "create") eqn:Hop.
  - apply is_str_eq in Hop. subst. left. apply handleFollowEvent_create.
  - unfold handleFollowEvent, exec, bind, lift, gets, ret. rewrite Hop.
    destruct (truthy _); try (left; left; reflexivity). cbn [negb].
    destruct (single _) as [target|]; try (left; left; reflexivity).
    destruct (is_str operation "delete"); try (left; left; reflexivity).
    right. exists (profile_id target). reflexivity.
Qed.

Lemma handleLikeEvent_delete did record rkey s :
  let s1 := exec (handleLikeEvent E did (Str "delete") record rkey) s in
  s1 = s
  \/ exists id,
       s1 = deleted like (interaction_uri did "app.bsky.feed.like" rkey) id s.
Proof.
  unfold handleLikeEvent, exec, bind, lift, gets, ret.
  change (is_str (Str "delete") "create") with false.
  change (is_str (Str "delete") "delete") with true. cbv iota zeta.
  destruct (not_local _) as [[|]|]; try (left; reflexivity).
  destruct (single _) as [target|]; try (left; reflexivity).
  right. exists (post_id target). reflexivity.
Qed.

Lemma handleRepostEvent_delete did record rkey s :
  let s1 := exec (handleRepostEvent E did (Str "delete") record rkey) s in
  s1 = s
  \/ exists id,
       s1 = deleted repost (interaction_uri did "app.bsky.feed.repost" rkey)
              id s.
Proof.
  unfold handleRepostEvent, exec, bind, lift, gets, ret.
  change (is_str (Str "delete") "create") with false.
  change (is_str (Str "delete") "delete") with true. cbv iota zeta.
  destruct (not_local _) as [[|]|]; try (left; reflexivity).
  destruct (single _) as [target|]; try (left; reflexivity).
  right. exists (post_id target). reflexivity.
Qed.

Lemma handleFollowEvent_delete did record rkey s :
  let s1 := exec (handleFollowEvent E did (Str "delete") record rkey) s in
  s1 = s
  \/ exists id,
       s1 = deleted follow (interaction_uri did "app.bsky.graph.follow" rkey)
              id s.
Proof.
  unfold handleFollowEvent, exec, bind, lift, gets, ret.
  change (is_str (Str "delete") "create") with false.
  change (is_str (Str "delete") "delete") with true. cbv iota zeta.
  destruct (truthy _); try (left; reflexivity). cbn [negb].
  destruct (single _) as [target|]; try (left; reflexivity).
  right. exists (profile_id target). reflexivity.
Qed.

Lemma deleted_interactions kind k id s :
  federated_interactions (deleted kind k id s)
  = filter (fun i => negb (has_at_uri k i)) (federated_interactions s).
Proof.
  unfold deleted, exec. now rewrite adjust_keeps_interactions.
Qed.

Lemma adjust_keeps_notifications kind f id :
  keeps notifications (adjust kind f id).
Proof.
  destruct kind; unfold adjust, on_post, on_profile; apply keeps_modify;
    reflexivity.
Qed.

Lemma deleted_notifications kind k id s :
  notifications (deleted kind k id s) = notifications s.
Proof.
  unfold deleted, exec. now rewrite adjust_keeps_notifications.
Qed.

Lemma filter_within {A} (p q : A -> bool) (l : list A) :
  (forall x, p x = true -> q x = true) ->
  filter p (filter q l) = filter p l.
Proof.
  intros Hpq. induction l as [|x l IH]; simpl; [reflexivity|].
  destruct (p x) eqn:Hp.
  - rewrite (Hpq x Hp). simpl. now rewrite Hp, IH.
  - destruct (q x); simpl; rewrite ?Hp; exact IH.
Qed.

Lemma filter_other_key k k' (t : list interaction) :
  k' <> k ->
  filter (has_at_uri k') (filter (fun i => negb (has_at_uri k i)) t)
  = filter (has_at_uri k') t.
Proof.
  intros Hne. apply filter_within. intros x Hx. unfold has_at_uri in *.
  apply String.eqb_eq in Hx. apply negb_true_iff, String.eqb_neq. congruence.
Qed.

Lemma filter_same_key k (t : list interaction) :
  filter (has_at_uri k) (filter (fun i => negb (has_at_uri k i)) t) = [].
Proof. apply (filter_out_then_in (has_at_uri k)). Qed.

(** What processing a delete event comes to. *)
Lemma processEvent_delete kind event s :
  kind <> reply -> kind <> quote ->
  is_delete_of kind event = true ->
  let s1 := exec (processEvent E event) s in
  s1 = s \/ exists id, s1 = deleted kind (event_key kind event) id s.
Proof.
  intros Hr Hq Hdel. unfold is_delete_of in Hdel.
  apply andb_prop in Hdel. destruct Hdel as [Hcoll Hop].
  unfold event_collection, event_operation in *.
  assert (truthy (oget event "commit") = true) as Hc.
  { destruct (oget event "commit"); simpl in Hcoll; try discriminate.
    reflexivity. }
  destruct (oget_truthy_obj _ _ Hc) as [fields ->].
  unfold event_key. cbn [oget] in *.
  unfold exec. rewrite (processEvent_commit E fields _ s eq_refl Hc).
  cbv zeta. apply is_str_eq in Hcoll. apply is_str_eq in Hop.
  rewrite Hcoll, Hop.
  destruct kind; try congruence; cbn [collection_of].
  - apply handleLikeEvent_delete.
  - apply handleRepostEvent_delete.
  - apply handleFollowEvent_delete.
Qed.

End Effects.

(** X11: a delete event of a like, a repost or a follow changes nothing,
    or removes every record under its key and decrements one row's
    counter; it leaves the records under every other key as they are and
    writes no notification. *)
Theorem delete_event_effect E kind event s :
  kind <> reply -> kind <> quote ->
  is_delete_of kind event = true ->
  let k := event_key kind event in
  let s1 := exec (processEvent E event) s in
  (s1 = s \/ count_key k s1 = 0%nat)
  /\ (forall k', k' <> k ->
        interactions_eq_at_uri k' s1 = interactions_eq_at_uri k' s)
  /\ notifications s1 = notifications s.
Proof.
  intros Hr Hq Hdel k s1.
  destruct (processEvent_delete E kind event s Hr Hq Hdel)
    as [Hsame|[id Hdeleted]]; fold k s1 in Hsame || fold k s1 in Hdeleted.
  - rewrite Hsame. repeat split. now left.
  - rewrite Hdeleted. repeat split.
    + right. unfold count_key, interactions_eq_at_uri.
      now rewrite deleted_interactions, filter_same_key.
    + intros k' Hk'. unfold interactions_eq_at_uri.
      now rewrite deleted_interactions, filter_other_key.
    + apply deleted_notifications.
Qed.

Lemma delete_event_effect_witness :
  let s1 :=
    exec (processEvent (Sample.world Sample.timeout) Sample.like_delete)
      (exec (processEvent (Sample.world Sample.timeout) Sample.like_create)
         Sample.store) in
  count_key (event_key like Sample.like_delete) s1 = 0%nat.
Proof.
  intros s1.
  assert (like <> reply) as Hr by discriminate.
  assert (like <> quote) as Hq by discriminate.
  pose proof (delete_event_effect (Sample.world Sample.timeout) like
                Sample.like_delete
                (exec (processEvent (Sample.world Sample.timeout)
                         Sample.like_create) Sample.store)
                Hr Hq eq_refl) as H.
  cbv zeta in H. fold s1 in H. destruct H as [[H|H] _].
  - vm_compute in H. discriminate.
  - exact H.
Defined.

(** *** A create and its delete *)

Section Retraction.

Variable E : env.

Lemma filter_none_keeps_all k (t : list interaction) :
  filter (has_at_uri k) t = [] ->
  filter (fun i => negb (has_at_uri k i)) t = t.
Proof.
  induction t as [|x t IH]; simpl; [reflexivity|].
  destruct (has_at_uri k x); simpl; [discriminate|].
  intros H. now rewrite IH.
Qed.

Lemma created_posts kind r id user did reason p s :
  posts (created E kind r id user did reason p s)
  = posts (exec (adjust kind incr id) s).
Proof.
  unfold created, exec.
  rewrite (createExternalNotification_keeps E posts) by reflexivity.
  destruct kind; reflexivity.
Qed.

Lemma created_profiles kind r id user did reason p s :
  profiles (created E kind r id user did reason p s)
  = profiles (exec (adjust kind incr id) s).
Proof.
  unfold created, exec.
  rewrite (createExternalNotification_keeps E profiles) by reflexivity.
  destruct kind; reflexivity.
Qed.

Lemma decr_incr n : 0 <= n -> decr (incr n) = n.
Proof. unfold decr, incr. lia. Qed.

Lemma map_restores {A} (f : A -> A) (l : list A) :
  Forall (fun x => f x = x) l -> map f l = l.
Proof.
  induction 1 as [|x l Hx _ IH]; simpl; [reflexivity|]. now rewrite Hx, IH.
Qed.

(** Deleting what was just created gives back the posts, the profiles and
    the mirror records. *)
Lemma deleted_created kind k r id user did reason p s :
  i_at_uri r = k ->
  interactions_eq_at_uri k s = [] ->
  counters_nonnegative kind s ->
  core (deleted kind k id (created E kind r id user did reason p s)) = core s.
Proof.
  intros Hk Hnone Hnn. unfold core. f_equal; [f_equal|].
  - unfold deleted.
    assert (posts (exec (adjust kind decr id)
                     (snd (delete_interactions k
                             (created E kind r id user did reason p s))))
            = posts (exec (adjust kind decr id) (exec (adjust kind incr id) s)))
      as ->.
    { pose proof (created_posts kind r id user did reason p s) as Hp.
      destruct kind; unfold exec in *; cbn in *; now rewrite ?Hp. }
    unfold counters_nonnegative in Hnn.
    destruct kind; unfold exec; cbn; try reflexivity; rewrite map_map;
      apply map_restores; unfold counter in Hnn; rewrite Forall_map in Hnn;
      (eapply Forall_impl; [|exact Hnn]); intros x Hx; cbn in *;
      destruct (post_id x =? id)%string eqn:Hid; cbn; rewrite ?Hid;
      try reflexivity; destruct x; cbn in *;
      unfold with_likes, with_reposts, with_replies, with_quotes, decr, incr;
      cbn; f_equal; lia.
  - unfold deleted.
    assert (profiles (exec (adjust kind decr id)
                        (snd (delete_interactions k
                                (created E kind r id user did reason p s))))
            = profiles (exec (adjust kind decr id)
                          (exec (adjust kind incr id) s))) as ->.
    { pose proof (created_profiles kind r id user did reason p s) as Hp.
      destruct kind; unfold exec in *; cbn in *; now rewrite ?Hp. }
    unfold counters_nonnegative in Hnn.
    destruct kind; unfold exec; cbn; try reflexivity; rewrite map_map;
      apply map_restores; unfold counter in Hnn; rewrite Forall_map in Hnn;
      (eapply Forall_impl; [|exact Hnn]); intros x Hx; cbn in *;
      destruct (profile_id x =? id)%string eqn:Hid; cbn; rewrite ?Hid;
      try reflexivity; destruct x; cbn in *;
      unfold with_followers, decr, incr; cbn; f_equal; lia.
  - rewrite deleted_interactions, created_interactions, filter_app.
    unfold interactions_eq_at_uri in Hnone.
    rewrite (filter_none_keeps_all k _ Hnone). cbn.
    unfold has_at_uri. rewrite Hk, String.eqb_refl. cbn. apply app_nil_r.
Qed.

End Retraction.

Section RetractionHandlers.

Variable E : env.

Lemma filter_map_same {A} (q : A -> bool) (g : A -> A) (l : list A) :
  (forall x, q (g x) = q x) ->
  filter q (map g l) = map g (filter q l).
Proof.
  intros Hq. induction l as [|x l IH]; simpl; [reflexivity|].
  rewrite Hq. destruct (q x); simpl; now rewrite IH.
Qed.

Lemma single_map {A} (g : A -> A) (l : list A) :
  single (map g l) = option_map g (single l).
Proof. destruct l as [|x [|y l]]; reflexivity. Qed.

(** The post a like or repost resolved to is found again after the
    create, with the same id. *)
Lemma post_found_again kind r id user did reason p uri s target :
  kind <> follow ->
  single (posts_eq_at_uri uri s) = Some target ->
  exists target',
    single (posts_eq_at_uri uri (created E kind r id user did reason p s))
    = Some target'
    /\ post_id target' = post_id target.
Proof.
  intros Hkind Hfound. unfold posts_eq_at_uri in *. rewrite created_posts.
  destruct kind; try congruence; unfold exec; cbn;
    (rewrite filter_map_same;
     [|intros x; destruct (post_id x =? id)%string; reflexivity]);
    rewrite single_map, Hfound; cbn; eexists; (split; [reflexivity|]);
    destruct (post_id target =? id)%string; reflexivity.
Qed.

Lemma profile_found_again r id user did reason p subject s target :
  single (profiles_eq_did subject s) = Some target ->
  exists target',
    single (profiles_eq_did subject
              (created E follow r id user did reason p s))
    = Some target'
    /\ profile_id target' = profile_id target.
Proof.
  intros Hfound. unfold profiles_eq_did in *. rewrite created_profiles.
  unfold exec; cbn.
  rewrite filter_map_same;
    [|intros x; destruct (profile_id x =? id)%string; reflexivity].
  rewrite single_map, Hfound. cbn. eexists. split; [reflexivity|].
  destruct (profile_id target =? id)%string; reflexivity.
Qed.

Lemma handleLikeEvent_create_resolved did record rkey s :
  let uri := oget (oget record "subject") "uri" in
  let k := interaction_uri did "app.bsky.feed.like" rkey in
  let s1 := exec (handleLikeEvent E did (Str "create") record rkey) s in
  s1 = s
  \/ exists target r,
       not_local uri = Ok false
       /\ single (posts_eq_at_uri uri s) = Some target
       /\ i_at_uri r = k
       /\ s1 = created E like r (post_id target) (post_user_id target) did
                 "like" (Some (post_id target)) s.
Proof.
  unfold handleLikeEvent, exec, bind, lift, gets, ret.
  change (is_str (Str "create") "create") with true. cbv iota beta zeta.
  destruct (not_local _) as [[|]|] eqn:Hl; try (left; reflexivity).
  destruct (single _) as [target|] eqn:Hs; try (left; reflexivity).
  destruct (maybeSingle _); try (left; reflexivity).
  unfold insert_interaction.
  destruct (constraints_ok _ _ _); try (left; reflexivity).
  right. exists target. eexists.
  split; [reflexivity|]. split; [reflexivity|].
  split; [|reflexivity]. reflexivity.
Qed.

Lemma handleRepostEvent_create_resolved did record rkey s :
  let uri := oget (oget record "subject") "uri" in
  let k := interaction_uri did "app.bsky.feed.repost" rkey in
  let s1 := exec (handleRepostEvent E did (Str "create") record rkey) s in
  s1 = s
  \/ exists target r,
       not_local uri = Ok false
       /\ single (posts_eq_at_uri uri s) = Some target
       /\ i_at_uri r = k
       /\ s1 = created E repost r (post_id target) (post_user_id target) did
                 "repost" (Some (post_id target)) s.
Proof.
  unfold handleRepostEvent, exec, bind, lift, gets, ret.
  change (is_str (Str "create") "create") with true. cbv iota beta zeta.
  destruct (not_local _) as [[|]|] eqn:Hl; try (left; reflexivity).
  destruct (single _) as [target|] eqn:Hs; try (left; reflexivity).
  destruct (maybeSingle _); try (left; reflexivity).
  unfold insert_interaction.
  destruct (constraints_ok _ _ _); try (left; reflexivity).
  right. exists target. eexists.
  split; [reflexivity|]. split; [reflexivity|].
  split; [|reflexivity]. reflexivity.
Qed.

Lemma handleFollowEvent_create_resolved did record rkey s :
  let subject := oget record "subject" in
  let k := interaction_uri did "app.bsky.graph.follow" rkey in
  let s1 := exec (handleFollowEvent E did (Str "create") record rkey) s in
  s1 = s
  \/ exists target r,
       truthy subject = true
       /\ single (profiles_eq_did subject s) = Some target
       /\ i_at_uri r = k
       /\ s1 = created E follow r (profile_id target) (profile_id target) did
                 "follow" None s.
Proof.
  unfold handleFollowEvent, exec, bind, lift, gets, ret.
  change (is_str (Str "create") "create") with true. cbv iota beta zeta.
  destruct (truthy _) eqn:Ht; try (left; reflexivity). cbn [negb].
  destruct (single _) as [target|] eqn:Hs; try (left; reflexivity).
  destruct (maybeSingle _); try (left; reflexivity).
  unfold insert_interaction.
  destruct (constraints_ok _ _ _); try (left; reflexivity).
  right. exists target. eexists.
  split; [reflexivity|]. split; [reflexivity|].
  split; [|reflexivity]. reflexivity.
Qed.

Lemma handleLikeEvent_delete_resolved did record rkey s target :
  not_local (oget (oget record "subject") "uri") = Ok false ->
  single (posts_eq_at_uri (oget (oget record "subject") "uri") s)
  = Some target ->
  exec (handleLikeEvent E did (Str "delete") record rkey) s
  = deleted like (interaction_uri did "app.bsky.feed.like" rkey)
      (post_id target) s.
Proof.
  intros Hl Hs. unfold handleLikeEvent, exec, bind, lift, gets, ret.
  now rewrite Hl, Hs.
Qed.

Lemma handleRepostEvent_delete_resolved did record rkey s target :
  not_local (oget (oget record "subject") "uri") = Ok false ->
  single (posts_eq_at_uri (oget (oget record "subject") "uri") s)
  = Some target ->
  exec (handleRepostEvent E did (Str "delete") record rkey) s
  = deleted repost (interaction_uri did "app.bsky.feed.repost" rkey)
      (post_id target) s.
Proof.
  intros Hl Hs. unfold handleRepostEvent, exec, bind, lift, gets, ret.
  now rewrite Hl, Hs.
Qed.

Lemma handleFollowEvent_delete_resolved did record rkey s target :
  truthy (oget record "subject") = true ->
  single (profiles_eq_did (oget record "subject") s) = Some target ->
  exec (handleFollowEvent E did (Str "delete") record rkey) s
  = deleted follow (interaction_uri did "app.bsky.graph.follow" rkey)
      (profile_id target) s.
Proof.
  intros Ht Hs. unfold handleFollowEvent, exec, bind, lift, gets, ret.
  cbv beta zeta. rewrite Ht. cbn [negb]. now rewrite Hs.
Qed.

Lemma count_changed k s s1 :
  count_key k s = 0%nat -> count_key k s1 = 1%nat -> s1 <> s.
Proof. intros H0 H1 ->. congruence. Qed.

Lemma count_zero k s :
  count_key k s = 0%nat -> interactions_eq_at_uri k s = [].
Proof.
  unfold count_key. now destruct (interactions_eq_at_uri k s).
Qed.

End RetractionHandlers.

(** X12: a like, a repost or a follow that was applied and is then
    retracted leaves the posts, the profiles and the mirror records as
    they were before the two events, the counters included, provided no
    counter was negative. *)
Theorem create_then_delete_restores E did record rkey s :
  (let k := interaction_uri did "app.bsky.feed.like" rkey in
   let s1 := exec (handleLikeEvent E did (Str "create") record rkey) s in
   let s2 := exec (handleLikeEvent E did (Str "delete") record rkey) s1 in
   count_key k s = 0%nat -> count_key k s1 = 1%nat ->
   counters_nonnegative like s -> core s2 = core s)
  /\ (let k := interaction_uri did "app.bsky.feed.repost" rkey in
      let s1 := exec (handleRepostEvent E did (Str "create") record rkey) s in
      let s2 := exec (handleRepostEvent E did (Str "delete") record rkey) s1 in
      count_key k s = 0%nat -> count_key k s1 = 1%nat ->
      counters_nonnegative repost s -> core s2 = core s)
  /\ (let k := interaction_uri did "app.bsky.graph.follow" rkey in
      let s1 := exec (handleFollowEvent E did (Str "create") record rkey) s in
      let s2 := exec (handleFollowEvent E did (Str "delete") record rkey) s1 in
      count_key k s = 0%nat -> count_key k s1 = 1%nat ->
      counters_nonnegative follow s -> core s2 = core s).
Proof.
  split; [|split]; intros k s1 s2 H0 H1 Hnn.
  - destruct (handleLikeEvent_create_resolved E did record rkey s)
      as [Hsame|[target [r [Hl [Hs [Hk Hcreated]]]]]].
    + now apply (count_changed k s s1 H0 H1) in Hsame.
    + fold s1 in Hcreated.
      assert (like <> follow) as Hkind by discriminate.
      destruct (post_found_again E like r (post_id target)
                  (post_user_id target) did "like" (Some (post_id target))
                  _ s target Hkind Hs) as [target' [Hs' Hid]].
      rewrite <- Hcreated in Hs'. unfold s2.
      rewrite (handleLikeEvent_delete_resolved E did record rkey s1 target'
                 Hl Hs').
      rewrite Hid, Hcreated.
      apply deleted_created; [exact Hk|now apply count_zero|exact Hnn].
  - destruct (handleRepostEvent_create_resolved E did record rkey s)
      as [Hsame|[target [r [Hl [Hs [Hk Hcreated]]]]]].
    + now apply (count_changed k s s1 H0 H1) in Hsame.
    + fold s1 in Hcreated.
      assert (repost <> follow) as Hkind by discriminate.
      destruct (post_found_again E repost r (post_id target)
                  (post_user_id target) did "repost" (Some (post_id target))
                  _ s target Hkind Hs) as [target' [Hs' Hid]].
      rewrite <- Hcreated in Hs'. unfold s2.
      rewrite (handleRepostEvent_delete_resolved E did record rkey s1 target'
                 Hl Hs').
      rewrite Hid, Hcreated.
      apply deleted_created; [exact Hk|now apply count_zero|exact Hnn].
  - destruct (handleFollowEvent_create_resolved E did record rkey s)
      as [Hsame|[target [r [Ht [Hs [Hk Hcreated]]]]]].
    + now apply (count_changed k s s1 H0 H1) in Hsame.
    + fold s1 in Hcreated.
      destruct (profile_found_again E r (profile_id target)
                  (profile_id target) did "follow" None
                  _ s target Hs) as [target' [Hs' Hid]].
      rewrite <- Hcreated in Hs'. unfold s2.
      rewrite (handleFollowEvent_delete_resolved E did record rkey s1 target'
                 Ht Hs').
      rewrite Hid, Hcreated.
      apply deleted_created; [exact Hk|now apply count_zero|exact Hnn].
Qed.

Lemma create_then_delete_restores_witness :
  let like_it op :=
    handleLikeEvent (Sample.world Sample.timeout) (Str "did:plc:bob") (Str op)
      (Sample.on_subject (Str Sample.local_post_uri)) (Str "3kl1") in
  core (exec (like_it "delete") (exec (like_it "create") Sample.store))
  = core Sample.store.
Proof.
  intros like_it.
  apply (proj1 (create_then_delete_restores (Sample.world Sample.timeout)
                  (Str "did:plc:bob")
                  (Sample.on_subject (Str Sample.local_post_uri))
                  (Str "3kl1") Sample.store)).
  - reflexivity.
  - reflexivity.
  - repeat constructor. cbn. lia.
Defined.

(** *** Notifications *)

Section Notifying.

Variable E : env.

(** What a call of createExternalNotification appends: nothing when it
    throws, else one notification of an external actor. *)
Lemma createExternalNotification_appends user did reason p s :
  exists added,
    notifications (exec (createExternalNotification E user did reason p) s)
    = (notifications s ++ added)%list
    /\ (List.length added <= 1)%nat
    /\ Forall (fun n => n_is_external n = true /\ n_actor_did n = did
                        /\ n_user_id n = user /\ n_reason n = reason) added.
Proof.
  unfold createExternalNotification, exec, bind.
  pose proof (getBlueskyProfile_keeps E notifications did
                (fun _ _ => eq_refl) (fun _ _ => eq_refl)
                (fun _ _ => eq_refl) s) as Hkeep.
  destruct (getBlueskyProfile E did s) as [[actor|e] s']; cbn [snd] in *.
  - destruct (truthy (oget actor "handle")).
    + eexists [_]. cbn. rewrite Hkeep. split; [reflexivity|].
      split; [lia|]. now repeat constructor.
    + unfold lift. destruct (slice did 20) as [handle|e].
      * eexists [_]. cbn. rewrite Hkeep. split; [reflexivity|].
        split; [lia|]. now repeat constructor.
      * exists []. cbn. rewrite Hkeep, app_nil_r.
        split; [reflexivity|]. split; [lia|constructor].
  - exists []. rewrite Hkeep, app_nil_r.
    split; [reflexivity|]. split; [simpl; lia|constructor].
Qed.

Lemma created_notifications kind r id user did reason p s :
  exists added,
    notifications (created E kind r id user did reason p s)
    = (notifications s ++ added)%list
    /\ (List.length added <= 1)%nat
    /\ Forall (fun n => n_is_external n = true /\ n_actor_did n = did) added.
Proof.
  unfold created.
  destruct (createExternalNotification_appends user did reason p
              (exec (adjust kind incr id)
                 (set_interactions (fun t => (t ++ [r])%list) s)))
    as [added [H [L F]]].
  exists added. rewrite H. unfold exec. rewrite adjust_keeps_notifications.
  split; [reflexivity|]. split; [exact L|].
  eapply Forall_impl; [|exact F]. intros n Hn. split; apply Hn.
Qed.

(** One handler step: the notifications appended are no more than the
    records the step added. *)
Lemma step_notifications kind k did s s1 :
  nothing_or_created E kind k did s s1 \/ (exists id, s1 = deleted kind k id s) ->
  exists added,
    notifications s1 = (notifications s ++ added)%list
    /\ (List.length added <= 1)%nat
    /\ (List.length added
        <= List.length (federated_interactions s1)
           - List.length (federated_interactions s))%nat
    /\ Forall (fun n => n_is_external n = true /\ n_actor_did n = did) added.
Proof.
  intros [[->|[_ [r [id [user [reason [p [_ ->]]]]]]]]|[id ->]].
  - exists []. rewrite app_nil_r. repeat split; simpl; try lia. constructor.
  - destruct (created_notifications kind r id user did reason p s)
      as [added [H [L F]]].
    exists added. rewrite created_interactions, length_app. cbn.
    repeat split; try assumption; lia.
  - exists []. rewrite app_nil_r, deleted_notifications.
    repeat split; simpl; try lia. constructor.
Qed.

Lemma created_grows kind k did s s1 :
  nothing_or_created E kind k did s s1 ->
  (List.length (federated_interactions s)
   <= List.length (federated_interactions s1))%nat.
Proof.
  intros [->|[_ [r [id [user [reason [p [_ ->]]]]]]]]; [lia|].
  rewrite created_interactions, length_app. lia.
Qed.

End Notifying.

(** X13: processing an event never removes or alters a notification: it
    appends at most two, each of an external actor and carrying the
    event's actor, and no more of them than it added mirror records. *)
Theorem notifications_only_grow E event s :
  let s1 := exec (processEvent E event) s in
  exists added,
    notifications s1 = (notifications s ++ added)%list
    /\ (List.length added <= 2)%nat
    /\ (List.length added
        <= List.length (federated_interactions s1)
           - List.length (federated_interactions s))%nat
    /\ Forall (fun n => n_is_external n = true
                        /\ n_actor_did n = oget event "did") added.
Proof.
  intros s1.
  assert (s1 = s ->
          exists added,
            notifications s1 = (notifications s ++ added)%list
            /\ (List.length added <= 2)%nat
            /\ (List.length added
                <= List.length (federated_interactions s1)
                   - List.length (federated_interactions s))%nat
            /\ Forall (fun n => n_is_external n = true
                                /\ n_actor_did n = oget event "did") added)
    as Hsame.
  { intros ->. exists []. rewrite app_nil_r.
    repeat split; simpl; try lia. constructor. }
  assert (forall kind k,
             nothing_or_created E kind k (oget event "did") s s1
             \/ (exists id, s1 = deleted kind k id s) ->
             exists added,
               notifications s1 = (notifications s ++ added)%list
               /\ (List.length added <= 2)%nat
               /\ (List.length added
                   <= List.length (federated_interactions s1)
                      - List.length (federated_interactions s))%nat
               /\ Forall (fun n => n_is_external n = true
                                   /\ n_actor_did n = oget event "did") added)
    as Hone.
  { intros kind k H.
    destruct (step_notifications E kind k _ s s1 H) as [added [H1 [H2 [H3 H4]]]].
    exists added. repeat split; try assumption. lia. }
  destruct (truthy (oget event "commit")) eqn:Hc;
    [|apply Hsame; now apply processEvent_no_commit].
  destruct (oget_truthy_obj _ _ Hc) as [fields Hevent].
  subst event. cbn [oget] in *. unfold s1, exec in *.
  rewrite (processEvent_commit E fields _ s eq_refl Hc) in *.
  cbv zeta in *. set (commit := lookup "commit" fields) in *.
  destruct (is_str (oget commit "collection") "app.bsky.feed.like").
  { eapply Hone. apply handleLikeEvent_effect. }
  destruct (is_str (oget commit "collection") "app.bsky.feed.repost").
  { eapply Hone. apply handleRepostEvent_effect. }
  destruct (is_str (oget commit "collection") "app.bsky.feed.post").
  2:{ destruct (is_str (oget commit "collection") "app.bsky.graph.follow").
      - eapply Hone. apply handleFollowEvent_effect.
      - now apply Hsame. }
  clear Hsame Hone.
  destruct (is_str (oget commit "operation") "create") eqn:Hop.
  - apply is_str_eq in Hop. rewrite Hop.
    destruct (handlePostEvent_create E (lookup "did" fields)
                (oget commit "record") (oget commit "rkey") s)
      as [s' [Hr Hq]].
    unfold exec in Hq.
    destruct (step_notifications E reply _ _ s s' (or_introl Hr))
      as [a1 [H1 [L1 [G1 F1]]]].
    destruct (step_notifications E quote _ _ s' _ (or_introl Hq))
      as [a2 [H2 [L2 [G2 F2]]]].
    pose proof (created_grows E _ _ _ _ _ Hr) as M1.
    pose proof (created_grows E _ _ _ _ _ Hq) as M2.
    exists (a1 ++ a2)%list. rewrite H2, H1, <- app_assoc.
    split; [reflexivity|]. rewrite length_app.
    split; [lia|]. split; [lia|]. apply Forall_app. now split.
  - pose proof (handlePostEvent_other E (lookup "did" fields)
                  (oget commit "operation") (oget commit "record")
                  (oget commit "rkey") s Hop) as Ho.
    unfold exec in Ho. rewrite Ho.
    exists []. rewrite app_nil_r. repeat split; simpl; try lia. constructor.
Qed.

(** *** More on profile resolution *)

Section Resolving.

Variable E : env.

Lemma try_catch_null_ok (c : M value) s :
  exists v, fst (try_catch c (fun _ => ret Null) s) = Ok v.
Proof.
  unfold try_catch, ret. destruct (c s) as [[a|e] s']; now eexists.
Qed.

(** X14: resolving a profile never throws, whatever the cache and the
    public API do; it sends at most one lookup, for the actor asked
    about, and touches no post, profile, mirror record or notification. *)
Theorem getBlueskyProfile_is_safe did s :
  let s1 := exec (getBlueskyProfile E did) s in
  (exists actor, eval (getBlueskyProfile E did) s = Ok actor)
  /\ (lookups s1 = lookups s
      \/ lookups s1 = (lookups s ++ [to_string did])%list)
  /\ core s1 = core s
  /\ notifications s1 = notifications s.
Proof.
  cbv zeta. split; [|split; [|split]].
  - unfold eval, getBlueskyProfile, bind, gets.
    destruct (maybeSingle (cache_eq_did did s)) as [c|].
    + unfold now, ret. cbn [fst snd].
      destruct (clock E (ticks s) - c_cached_at c <? PROFILE_CACHE_TTL_MS);
        [now eexists|apply try_catch_null_ok].
    + unfold ret. apply try_catch_null_ok.
  - unfold exec, getBlueskyProfile, bind, gets, try_catch, ret, now,
      fetch_profile, lift, upsert_cache, modify.
    destruct (maybeSingle (cache_eq_did did s)) as [c|];
      [destruct (clock E (ticks s) - c_cached_at c <? PROFILE_CACHE_TTL_MS);
       [left; reflexivity|]|];
      right;
      (destruct (profile_api E (to_string did)) as [e|[|] status text body];
       [reflexivity| |reflexivity]);
      cbn [negb];
      (destruct (json_parse E body) as [profile|e]; [|reflexivity]);
      (destruct (get profile "handle"); [|reflexivity]);
      (destruct (get profile "displayName"); [|reflexivity]);
      (destruct (get profile "avatar"); reflexivity).
  - apply (getBlueskyProfile_keeps E core); reflexivity.
  - apply (getBlueskyProfile_keeps E notifications); reflexivity.
Qed.

(** The state after a lookup that brought a profile back. *)
Lemma getBlueskyProfile_fresh_state did s status statusText body profile :
  stale E did s ->
  profile_api E (to_string did) = Response true status statusText body ->
  json_parse E body = Ok profile ->
  nullish profile = false ->
  let s1 := exec (getBlueskyProfile E did) s in
  cache_eq_did did s1
  = [mkCached (to_string did) (oget profile "handle")
       (oget profile "displayName") (oget profile "avatar")
       (clock E (Nat.pred (ticks s1)))].
Proof.
  intros Hstale Hapi Hjson Hnn. cbv zeta. unfold stale in Hstale.
  unfold exec, getBlueskyProfile, bind, gets, try_catch, ret, now,
    fetch_profile, lift, upsert_cache, modify.
  assert (forall t,
             filter (fun c => (c_did c =? to_string did)%string)
               (filter (fun c => negb (c_did c =? to_string did)%string)
                  (bluesky_profile_cache s)
                ++ [mkCached (to_string did) (oget profile "handle")
                      (oget profile "displayName") (oget profile "avatar") t])
             = [mkCached (to_string did) (oget profile "handle")
                  (oget profile "displayName") (oget profile "avatar") t])
    as Hfilter.
  { intros t. rewrite filter_app.
    rewrite (filter_out_then_in (fun c => (c_did c =? to_string did)%string)).
    cbn. now rewrite String.eqb_refl. }
  destruct (maybeSingle (cache_eq_did did s)) as [c|].
  - apply Z.ltb_ge in Hstale. rewrite Hstale, Hapi. cbn [negb].
    rewrite Hjson, !(get_oget profile _ Hnn). cbn. apply Hfilter.
  - rewrite Hapi. cbn [negb].
    rewrite Hjson, !(get_oget profile _ Hnn). cbn. apply Hfilter.
Qed.

End Resolving.

(** X15: what a lookup stored is what the next resolution returns: after
    a lookup that brought a profile back, resolving the same actor again
    before the time-to-live has passed returns the stored entry, with the
    handle, display name and avatar of that profile, and sends no
    lookup. *)
Theorem cached_profile_is_reused E did s status statusText body profile :
  stale E did s ->
  profile_api E (to_string did) = Response true status statusText body ->
  json_parse E body = Ok profile ->
  nullish profile = false ->
  let s1 := exec (getBlueskyProfile E did) s in
  clock E (ticks s1) - clock E (Nat.pred (ticks s1)) < PROFILE_CACHE_TTL_MS ->
  exists entry,
    eval (getBlueskyProfile E did) s1 = Ok (cached_value entry)
    /\ c_handle entry = oget profile "handle"
    /\ c_display_name entry = oget profile "displayName"
    /\ c_avatar entry = oget profile "avatar"
    /\ lookups (exec (getBlueskyProfile E did) s1) = lookups s1.
Proof.
  intros Hstale Hapi Hjson Hnn s1 Hage.
  pose proof (getBlueskyProfile_fresh_state E did s status statusText body
                profile Hstale Hapi Hjson Hnn) as Hcache.
  cbv zeta in Hcache. fold s1 in Hcache.
  set (entry := mkCached (to_string did) (oget profile "handle")
                  (oget profile "displayName") (oget profile "avatar")
                  (clock E (Nat.pred (ticks s1)))) in *.
  exists entry. unfold eval, exec.
  rewrite (getBlueskyProfile_hit E did s1 entry);
    [repeat split|now rewrite Hcache|exact Hage].
Qed.

Lemma cached_profile_is_reused_witness :
  let resolve := getBlueskyProfile Sample.world_with_bob (Str "did:plc:bob") in
  exists entry,
    eval resolve (exec resolve Sample.store) = Ok (cached_value entry)
    /\ c_handle entry = Str "bob.bsky.social".
Proof.
  intros resolve.
  destruct (cached_profile_is_reused Sample.world_with_bob (Str "did:plc:bob")
              Sample.store 200 "OK" "bob" Sample.bob_profile I eq_refl eq_refl
              eq_refl eq_refl) as [entry [H1 [H2 _]]].
  exists entry. split; [exact H1|exact H2].
Defined.

(** X16: a notification written on a cache hit carries the cached handle
    and avatar but never a display name: the cache row names the column
    display_name and the notification reads displayName. *)
Theorem cache_hit_drops_display_name E user did reason p s c :
  maybeSingle (cache_eq_did did s) = Some c ->
  clock E (ticks s) - c_cached_at c < PROFILE_CACHE_TTL_MS ->
  truthy (c_handle c) = true ->
  notifications (exec (createExternalNotification E user did reason p) s)
  = (notifications s
     ++ [mkNotification user did (c_handle c) Undefined (c_avatar c)
           reason p true])%list.
Proof.
  intros Hc Hage Hhandle.
  unfold createExternalNotification, exec, bind.
  rewrite (getBlueskyProfile_hit E did s c Hc Hage).
  cbn. now rewrite Hhandle.
Qed.

Lemma cache_hit_drops_display_name_witness :
  let E := Sample.world_with_bob in
  let s1 := exec (getBlueskyProfile E (Str "did:plc:bob")) Sample.store in
  notifications
    (exec (createExternalNotification E "user-alice" (Str "did:plc:bob")
             "like" None) s1)
  = [mkNotification "user-alice" (Str "did:plc:bob") (Str "bob.bsky.social")
       Undefined (Str "https://cdn/bob.jpg") "like" None true].
Proof.
  intros E s1.
  apply (cache_hit_drops_display_name E "user-alice" (Str "did:plc:bob")
           "like" None s1
           (mkCached "did:plc:bob" (Str "bob.bsky.social") (Str "Bob")
              (Str "https://cdn/bob.jpg") 1700000000000));
    reflexivity.
Defined.

(** *** The position a batch leads to *)

Lemma latest_of_permuted times times' :
  Permutation times times' ->
  forall start, latest_of times start = latest_of times' start.
Proof.
  unfold latest_of.
  induction 1 as [|x l l' _ IH|x y l|l l' l'' _ IH1 _ IH2];
    intros start; simpl.
  - reflexivity.
  - apply IH.
  - f_equal. lia.
  - now rewrite IH1.
Qed.

Lemma latest_of_received times : forall start,
  latest_of times start = start \/ In (latest_of times start) times.
Proof.
  unfold latest_of.
  induction times as [|n rest IH]; intros start; simpl; [now left|].
  destruct (IH (Z.max start n)) as [H|H].
  - rewrite H. destruct (Z.max_spec start n) as [[_ ->]|[_ ->]];
      [right; now left|now left].
  - right. now right.
Qed.

Lemma time_of_times events n :
  In n (times events) ->
  exists event, In event events /\ oget event "time_us" = Num n.
Proof.
  unfold times. intros Hin. apply in_flat_map in Hin.
  destruct Hin as [event [Hin Hn]]. exists event. split; [exact Hin|].
  unfold time_of in Hn.
  destruct (oget event "time_us"); try contradiction.
  destruct (n0 =? 0); [contradiction|].
  destruct Hn as [->|[]]. reflexivity.
Qed.

Lemma forallb_permuted {A} (p : A -> bool) l l' :
  Permutation l l' -> forallb p l = true -> forallb p l' = true.
Proof.
  intros Hperm H. apply forallb_forall. intros x Hx.
  apply (proj1 (forallb_forall p l) H).
  apply Permutation_sym in Hperm. now apply (Permutation_in x Hperm).
Qed.

(** X17: for a batch whose time_us are integers, or absent, the position
    the loop ends with is the starting position or the time of one of the
    events, and it does not depend on the order in which the events
    arrived. *)
Theorem furthest_is_a_received_time E events events' start :
  forallb plain_time events = true ->
  Permutation events events' ->
  (exists n,
     furthest E events (Num start) = Num n
     /\ (n = start
         \/ exists event, In event events /\ oget event "time_us" = Num n))
  /\ furthest E events' (Num start) = furthest E events (Num start).
Proof.
  intros Hplain Hperm. split.
  - rewrite (furthest_plain E events start Hplain). eexists.
    split; [reflexivity|].
    destruct (latest_of_received (times events) start) as [H|H];
      [now left|right].
    now apply time_of_times.
  - rewrite (furthest_plain E events start Hplain).
    rewrite (furthest_plain E events' start
               (forallb_permuted _ _ _ Hperm Hplain)).
    f_equal. symmetry. apply latest_of_permuted.
    unfold times. now apply Permutation_flat_map.
Qed.

Lemma furthest_is_a_received_time_witness :
  furthest (Sample.world Sample.timeout)
    [Sample.elsewhere; Sample.like_create] (Num 100)
  = furthest (Sample.world Sample.timeout)
      [Sample.like_create; Sample.elsewhere] (Num 100).
Proof.
  apply (proj2 (furthest_is_a_received_time (Sample.world Sample.timeout)
                  [Sample.like_create; Sample.elsewhere]
                  [Sample.elsewhere; Sample.like_create] 100 eq_refl
                  (perm_swap _ _ _))).
Defined.

(** *** Subjects that cannot be resolved *)

(** X18: an event whose subject cannot be resolved is dropped: a like or
    a repost whose subject URI is the at_uri of no post (or of several),
    and a follow whose subject is the did of no profile (or of several),
    change nothing, whatever their operation. *)
Theorem unresolved_subject_is_dropped E event s :
  ((is_str (event_collection event) "app.bsky.feed.like" = true
    \/ is_str (event_collection event) "app.bsky.feed.repost" = true)
   /\ single (posts_eq_at_uri (subject_uri event) s) = None
   \/ is_str (event_collection event) "app.bsky.graph.follow" = true
      /\ single (profiles_eq_did (oget (event_record event) "subject") s)
         = None) ->
  exec (processEvent E event) s = s.
Proof.
  intros H.
  assert (exists c, is_str (event_collection event) c = true) as [c Hcoll].
  { destruct H as [[[H|H] _]|[H _]]; eauto. }
  unfold event_collection, subject_uri, event_record in *.
  assert (truthy (oget event "commit") = true) as Hc.
  { destruct (oget event "commit"); simpl in Hcoll; try discriminate.
    reflexivity. }
  destruct (oget_truthy_obj _ _ Hc) as [fields ->]. cbn [oget] in *.
  unfold exec. rewrite (processEvent_commit E fields _ s eq_refl Hc).
  cbv zeta.
  destruct H as [[[H|H] Hnone]|[H Hnone]]; apply is_str_eq in H; rewrite H;
    cbn [is_str String.eqb Ascii.eqb Bool.eqb].
  - unfold handleLikeEvent, bind, lift, gets, ret.
    destruct (not_local _) as [[|]|]; try reflexivity. now rewrite Hnone.
  - unfold handleRepostEvent, bind, lift, gets, ret.
    destruct (not_local _) as [[|]|]; try reflexivity. now rewrite Hnone.
  - unfold handleFollowEvent, bind, lift, gets, ret. cbv beta zeta.
    destruct (truthy (oget (oget (lookup "commit" fields) "record")
                        "subject")); try reflexivity.
    cbn [negb]. now rewrite Hnone.
Qed.

Lemma unresolved_subject_is_dropped_witness :
  exec (processEvent (Sample.world Sample.timeout)
          (Sample.commit_event "did:plc:bob" 200 "app.bsky.feed.like" "create"
             "3kl9"
             (Sample.on_subject
                (Str "at://did:web:zed.cannect.space/app.bsky.feed.post/1"))))
    Sample.store
  = Sample.store.
Proof.
  apply unresolved_subject_is_dropped. left. split; [now left|reflexivity].
Defined.

(* ===================================================================== *)
(** ** The cache of remote content *)
(* ===================================================================== *)

Section Marks.

Import Cached.

Variable set_flag : cached_post -> cached_post.
Hypothesis keeps_uri : forall p, at_uri (set_flag p) = at_uri p.
Hypothesis keeps_author : forall p, author_did (set_flag p) = author_did p.
Hypothesis flag_twice : forall p, set_flag (set_flag p) = set_flag p.

Lemma authors_of_flag_posts uri uri' rows :
  authors_of uri (flag_posts set_flag uri' rows) = authors_of uri rows.
Proof.
  unfold authors_of, flag_posts.
  induction rows as [|p rows IH]; [reflexivity|].
  cbn [map filter].
  destruct (at_uri p =? uri')%string.
  - rewrite keeps_uri. destruct (at_uri p =? uri)%string.
    + cbn [map]. now rewrite keeps_author, IH.
    + exact IH.
  - destruct (at_uri p =? uri)%string.
    + cbn [map]. now rewrite IH.
    + exact IH.
Qed.

Lemma flag_posts_twice uri rows :
  flag_posts set_flag uri (flag_posts set_flag uri rows)
  = flag_posts set_flag uri rows.
Proof.
  unfold flag_posts. rewrite map_map. apply map_ext. intros p.
  destruct (at_uri p =? uri)%string eqn:Hp.
  - now rewrite keeps_uri, Hp, flag_twice.
  - now rewrite Hp.
Qed.

Lemma flag_author_twice author rows :
  flag_author author (flag_author author rows) = flag_author author rows.
Proof.
  unfold flag_author. rewrite map_map. apply map_ext. intros f.
  destruct (same_text (did f) author) eqn:Hf.
  - cbn [set_interacted did]. now rewrite Hf.
  - now rewrite Hf.
Qed.

Lemma flag_author_swap a b rows :
  flag_author a (flag_author b rows) = flag_author b (flag_author a rows).
Proof.
  unfold flag_author. rewrite !map_map. apply map_ext. intros f.
  destruct (same_text (did f) a) eqn:Ha, (same_text (did f) b) eqn:Hb;
    cbn [set_interacted did]; rewrite ?Ha, ?Hb; reflexivity.
Qed.

Lemma mark_cached_post_twice new t :
  and_then (mark_cached_post set_flag new t) (mark_cached_post set_flag new)
  = mark_cached_post set_flag new t.
Proof.
  unfold mark_cached_post.
  destruct (new_subject_uri new) as [uri|] eqn:Hu;
    [|reflexivity].
  destruct (new_user_id new) as [user|] eqn:Hi;
    [|reflexivity].
  cbv zeta. rewrite authors_of_flag_posts.
  destruct (authors_of uri (cached_posts t)) as [|author [|]] eqn:Ha;
    cbn [and_then cached_posts cached_profiles]; rewrite ?Hu, ?Hi;
    try reflexivity.
  - now rewrite flag_posts_twice, authors_of_flag_posts, Ha.
  - now rewrite flag_posts_twice, authors_of_flag_posts, Ha,
      flag_author_twice.
Qed.

Lemma flag_posts_rowwise new uri user rows :
  new_subject_uri new = Some uri -> new_user_id new = Some user ->
  rowwise (post_marked set_flag new) rows (flag_posts set_flag uri rows).
Proof.
  intros Hu Hi. unfold rowwise, flag_posts.
  induction rows as [|p rows IH]; cbn [map]; constructor; [|exact IH].
  destruct (at_uri p =? uri)%string eqn:Hp; [|now left].
  right. apply String.eqb_eq in Hp. subst uri.
  split; [exact Hu|]. split; [now rewrite Hi|reflexivity].
Qed.

End Marks.

Section Cache.

Import Cached.

Lemma rowwise_same {A} (R : A -> A -> Prop) rows :
  (forall r, R r r) -> rowwise R rows rows.
Proof.
  intros HR. unfold rowwise. induction rows; constructor; auto.
Qed.

Lemma authors_of_liked uri uri' rows :
  authors_of uri (flag_posts set_like uri' rows) = authors_of uri rows.
Proof. now apply authors_of_flag_posts. Qed.

Lemma authors_of_reposted uri uri' rows :
  authors_of uri (flag_posts set_repost uri' rows) = authors_of uri rows.
Proof. now apply authors_of_flag_posts. Qed.

Lemma flag_posts_swap u1 u2 rows :
  flag_posts set_repost u2 (flag_posts set_like u1 rows)
  = flag_posts set_like u1 (flag_posts set_repost u2 rows).
Proof.
  unfold flag_posts. rewrite !map_map. apply map_ext. intros p.
  destruct (at_uri p =? u1)%string eqn:H1, (at_uri p =? u2)%string eqn:H2;
    cbn [set_like set_repost at_uri]; rewrite ?H1, ?H2; reflexivity.
Qed.

(** X19: a mark is set once: the like trigger, and the repost trigger,
    fired a second time for the same row leaves the cache as the first
    firing left it, and raises exactly when the first did. *)
Theorem marking_again_changes_nothing (new : new_row) (t : tables) :
  and_then (mark_cached_post_liked new t) (mark_cached_post_liked new)
  = mark_cached_post_liked new t /\
  and_then (mark_cached_post_reposted new t) (mark_cached_post_reposted new)
  = mark_cached_post_reposted new t.
Proof.
  split; apply mark_cached_post_twice; reflexivity.
Qed.

(** X20: the like mark and the repost mark do not depend on each other:
    fired for any two rows in either order they leave the same cache, or
    raise the same error. *)
Theorem like_and_repost_marks_commute (liked reposted : new_row)
  (t : tables) :
  and_then (mark_cached_post_liked liked t)
    (mark_cached_post_reposted reposted)
  = and_then (mark_cached_post_reposted reposted t)
      (mark_cached_post_liked liked).
Proof.
  unfold mark_cached_post_liked, mark_cached_post_reposted, mark_cached_post.
  destruct (new_subject_uri liked) as [u1|], (new_user_id liked) as [i1|],
    (new_subject_uri reposted) as [u2|], (new_user_id reposted) as [i2|];
    cbv zeta; cbn [and_then];
    repeat first [rewrite authors_of_liked | rewrite authors_of_reposted];
    repeat match goal with
      | |- context [authors_of ?u (cached_posts t)] =>
          let H := fresh "Hauthors" in
          destruct (authors_of u (cached_posts t)) as [|? [|]] eqn:H;
          cbn [and_then cached_posts cached_profiles];
          repeat first [rewrite authors_of_liked
                       | rewrite authors_of_reposted];
          repeat match goal with
            | H' : authors_of _ _ = _ |- _ => rewrite H'
            end
      end;
    rewrite ?flag_posts_swap; try reflexivity.
  now rewrite flag_author_swap.
Qed.

Lemma authors_of_unique uri rows :
  NoDup (map at_uri rows) -> (List.length (authors_of uri rows) <= 1)%nat.
Proof.
  unfold authors_of. induction rows as [|p rows IH]; cbn [map filter];
    intros Hn; [cbn; lia|].
  inversion Hn as [|x l Hnot Hrest]; subst.
  destruct (at_uri p =? uri)%string eqn:Hp; [|now apply IH].
  apply String.eqb_eq in Hp.
  replace (filter (fun q => (at_uri q =? uri)%string) rows) with
    (@nil cached_post); [cbn; lia|].
  symmetry.
  clear IH Hn Hrest. induction rows as [|q rows IH]; [reflexivity|].
  cbn [filter]. destruct (at_uri q =? uri)%string eqn:Hq.
  - apply String.eqb_eq in Hq. exfalso. apply Hnot. left. congruence.
  - apply IH. intros Hin. apply Hnot. now right.
Qed.

Lemma author_in uri rows author :
  In author (authors_of uri rows) ->
  exists p, In p rows /\ at_uri p = uri /\ author_did p = author.
Proof.
  unfold authors_of. intros Hin. apply in_map_iff in Hin.
  destruct Hin as [p [Ha Hp]]. apply filter_In in Hp.
  destruct Hp as [Hp Hu]. apply String.eqb_eq in Hu. now exists p.
Qed.

Lemma flag_author_rowwise new t uri user author :
  new_subject_uri new = Some uri -> new_user_id new = Some user ->
  In author (authors_of uri (cached_posts t)) ->
  forall rows,
    rowwise (author_marked new t) rows (flag_author author rows).
Proof.
  intros Hu Hi Hin rows. unfold rowwise, flag_author.
  induction rows as [|f rows IH]; cbn [map]; constructor; [|exact IH].
  destruct (same_text (did f) author) eqn:Hf; [|now left].
  right. split; [reflexivity|].
  destruct (did f) as [d|] eqn:Hd; [|discriminate].
  destruct author as [a|]; [|discriminate]. cbn [same_text] in Hf.
  apply String.eqb_eq in Hf. subst a.
  split; [discriminate|]. split; [now rewrite Hi|].
  destruct (author_in _ _ _ Hin) as [p [Hp [Hpu Hpa]]].
  exists p. split; [exact Hp|]. split; [now rewrite Hu, Hpu|exact Hpa].
Qed.

Lemma mark_cached_post_frame set_flag new t :
  (forall p, at_uri (set_flag p) = at_uri p) ->
  (forall p, author_did (set_flag p) = author_did p) ->
  NoDup (map at_uri (cached_posts t)) ->
  exists t1,
    mark_cached_post set_flag new t = Done t1 /\
    rowwise (post_marked set_flag new) (cached_posts t) (cached_posts t1) /\
    rowwise (author_marked new t) (cached_profiles t) (cached_profiles t1).
Proof.
  intros Hk Ha Hn. unfold mark_cached_post.
  destruct (new_subject_uri new) as [uri|] eqn:Hu.
  2:{ exists t. split; [reflexivity|].
      split; apply rowwise_same; now left. }
  destruct (new_user_id new) as [user|] eqn:Hi.
  2:{ exists t. split; [reflexivity|].
      split; apply rowwise_same; now left. }
  cbv zeta. rewrite (authors_of_flag_posts set_flag Hk Ha).
  pose proof (authors_of_unique uri _ Hn) as Hlen.
  destruct (authors_of uri (cached_posts t)) as [|author [|]] eqn:Hauth.
  - eexists. split; [reflexivity|]. cbn [cached_posts cached_profiles].
    split; [now apply (flag_posts_rowwise set_flag new uri user)|].
    apply rowwise_same. now left.
  - eexists. split; [reflexivity|]. cbn [cached_posts cached_profiles].
    split; [now apply (flag_posts_rowwise set_flag new uri user)|].
    apply (flag_author_rowwise new t uri user author Hu Hi).
    rewrite Hauth. now left.
  - cbn in Hlen. lia.
Qed.

(** X21: with at_uri the key of cached_posts the two triggers never raise,
    and they change only the subject and its author: every other cached
    post and profile is left as it was, no row is added or removed, and a
    changed row differs only in the flag that was set. *)
Theorem marks_change_only_the_subject (new : new_row) (t : tables) :
  NoDup (map at_uri (cached_posts t)) ->
  (exists t1,
     mark_cached_post_liked new t = Done t1 /\
     rowwise (post_marked set_like new) (cached_posts t) (cached_posts t1) /\
     rowwise (author_marked new t) (cached_profiles t)
       (cached_profiles t1)) /\
  (exists t2,
     mark_cached_post_reposted new t = Done t2 /\
     rowwise (post_marked set_repost new) (cached_posts t)
       (cached_posts t2) /\
     rowwise (author_marked new t) (cached_profiles t)
       (cached_profiles t2)).
Proof.
  intros Hn. split; apply mark_cached_post_frame; auto.
Qed.

Lemma marks_change_only_the_subject_witness :
  (exists t1,
     mark_cached_post_liked Sample.liking Sample.cache = Done t1 /\
     rowwise (post_marked set_like Sample.liking)
       (cached_posts Sample.cache) (cached_posts t1) /\
     rowwise (author_marked Sample.liking Sample.cache)
       (cached_profiles Sample.cache) (cached_profiles t1)) /\
  (exists t2,
     mark_cached_post_reposted Sample.liking Sample.cache = Done t2 /\
     rowwise (post_marked set_repost Sample.liking)
       (cached_posts Sample.cache) (cached_posts t2) /\
     rowwise (author_marked Sample.liking Sample.cache)
       (cached_profiles Sample.cache) (cached_profiles t2)).
Proof.
  apply (marks_change_only_the_subject Sample.liking Sample.cache).
  cbn. constructor.
  - intros [H|[]]. discriminate H.
  - constructor; [intros []|constructor].
Defined.

End Cache.

Lemma and_then_pointwise {A B} (r : Cached.outcome A)
  (k k' : A -> Cached.outcome B) :
  (forall a, k a = k' a) -> Cached.and_then r k = Cached.and_then r k'.
Proof.
  intros Hk. destruct r as [a|e]; [apply Hk|reflexivity].
Qed.

Section Touching.

Import Cached.

Variable max_count : Z.

Lemma existsb_pointwise {A} (f g : A -> bool) rows :
  (forall r, f r = g r) -> existsb f rows = existsb g rows.
Proof.
  intros Hfg. induction rows as [|r rows IH]; [reflexivity|].
  cbn [existsb]. now rewrite Hfg, IH.
Qed.

Lemma existsb_mapped {A} (f : A -> bool) (g : A -> A) rows :
  existsb f (map g rows) = existsb (fun r => f (g r)) rows.
Proof.
  induction rows as [|r rows IH]; [reflexivity|].
  cbn [map existsb]. now rewrite IH.
Qed.

Lemma existsb_either {A} (f g : A -> bool) rows :
  existsb (fun r => f r || g r) rows = existsb f rows || existsb g rows.
Proof.
  induction rows as [|r rows IH]; [reflexivity|].
  cbn [existsb]. rewrite IH.
  destruct (f r), (g r), (existsb f rows), (existsb g rows); reflexivity.
Qed.

Lemma touch_pointwise now hit hit' t :
  (forall p, hit p = hit' p) ->
  touch max_count now hit t = touch max_count now hit' t.
Proof.
  intros Hh. unfold touch.
  rewrite (existsb_pointwise (fun p => hit p && overflows max_count p)
             (fun p => hit' p && overflows max_count p)).
  2:{ intros p. now rewrite Hh. }
  destruct (existsb _ _); [reflexivity|]. do 2 f_equal.
  apply map_ext. intros p. now rewrite Hh.
Qed.

Lemma any_of_listed uris p :
  any_of (Some uris) p = true <-> In (Some (at_uri p)) uris.
Proof.
  unfold any_of. rewrite existsb_exists. split.
  - intros [u [Hin Hu]]. destruct u as [u|]; [|discriminate].
    cbn [same_text] in Hu. apply String.eqb_eq in Hu. now subst u.
  - intros Hin. exists (Some (at_uri p)). split; [exact Hin|].
    cbn [same_text]. apply String.eqb_refl.
Qed.

Lemma touch_nothing now hit t :
  (forall p, hit p = false) -> touch max_count now hit t = Done t.
Proof.
  intros Hh. unfold touch.
  rewrite (existsb_pointwise _ (fun _ => false)).
  2:{ intros p. now rewrite Hh. }
  replace (existsb (fun _ : cached_post => false) (cached_posts t))
    with false.
  2:{ induction (cached_posts t) as [|p rows IH]; [reflexivity|exact IH]. }
  rewrite (map_ext _ (fun p => p)).
  2:{ intros p. now rewrite Hh. }
  rewrite map_id. now destruct t.
Qed.

(** Two disjoint selections touched one after the other are touched as
    one selection. *)
Lemma touch_split now hit1 hit2 t :
  (forall p, hit1 p && hit2 p = false) ->
  (forall p, hit2 (touched now p) = hit2 p) ->
  touch max_count now (fun p => hit1 p || hit2 p) t
  = and_then (touch max_count now hit1 t) (touch max_count now hit2).
Proof.
  intros Hdis Hkeep. unfold touch.
  rewrite (existsb_pointwise
             (fun p => (hit1 p || hit2 p) && overflows max_count p)
             (fun p => hit1 p && overflows max_count p
                       || hit2 p && overflows max_count p)).
  2:{ intros p. now destruct (hit1 p), (hit2 p), (overflows max_count p). }
  rewrite existsb_either.
  destruct (existsb (fun p => hit1 p && overflows max_count p)
              (cached_posts t)) eqn:H1; [reflexivity|].
  cbn [orb and_then cached_posts cached_profiles].
  rewrite existsb_mapped.
  rewrite (existsb_pointwise
             (fun r => hit2 (if hit1 r then touched now r else r)
                       && overflows max_count
                            (if hit1 r then touched now r else r))
             (fun p => hit2 p && overflows max_count p)).
  2:{ intros p. specialize (Hdis p). destruct (hit1 p) eqn:Hp;
        [|reflexivity].
      rewrite Hkeep. cbn [andb] in Hdis. now rewrite Hdis. }
  destruct (existsb (fun p => hit2 p && overflows max_count p)
              (cached_posts t)); [reflexivity|].
  do 2 f_equal. rewrite map_map. apply map_ext. intros p.
  specialize (Hdis p). destruct (hit1 p) eqn:Hp; cbn [orb].
  - rewrite Hkeep. cbn [andb] in Hdis. now rewrite Hdis.
  - reflexivity.
Qed.

Lemma touch_each_raised now uris e :
  fold_left (fun r u => and_then r (touch_cached_post max_count now u))
    uris (Raised e) = Raised e.
Proof.
  induction uris as [|u uris IH]; [reflexivity|exact IH].
Qed.

Lemma touch_each_cons now u uris t :
  touch_each max_count now (u :: uris) t
  = and_then (touch_cached_post max_count now u t)
      (touch_each max_count now uris).
Proof.
  unfold touch_each. cbn [fold_left and_then].
  destruct (touch_cached_post max_count now u t) as [t1|e];
    [reflexivity|].
  cbn [and_then]. apply touch_each_raised.
Qed.

(** X22: touch_cached_posts counts a post once however often the array
    names it: two arrays with the same URIs, whatever their order, their
    repetitions and their NULL entries, make the same update. *)
Theorem touch_cached_posts_ignores_repeats (now : Z)
  (uris uris' : list (option string)) (t : tables) :
  (forall u : string, In (Some u) uris <-> In (Some u) uris') ->
  touch_cached_posts max_count now (Some uris) t
  = touch_cached_posts max_count now (Some uris') t.
Proof.
  intros Hsame. unfold touch_cached_posts. apply touch_pointwise.
  intros p.
  destruct (any_of (Some uris) p) eqn:H1, (any_of (Some uris') p) eqn:H2;
    try reflexivity.
  - apply any_of_listed, Hsame, any_of_listed in H1. congruence.
  - apply any_of_listed, Hsame, any_of_listed in H2. congruence.
Qed.

(** X23: touching an array of distinct URIs at once is touching them one
    after the other with touch_cached_post in the same transaction: the
    same rows get the same access time and count, and one raises exactly
    when the other does. *)
Theorem touch_cached_posts_is_each_touch (now : Z)
  (uris : list (option string)) (t : tables) :
  NoDup uris ->
  touch_cached_posts max_count now (Some uris) t
  = touch_each max_count now uris t.
Proof.
  intros Hn. revert t.
  induction Hn as [|u uris Hnot Hn IH]; intros t.
  - unfold touch_cached_posts, touch_each. cbn [fold_left].
    now apply touch_nothing.
  - rewrite touch_each_cons.
    rewrite <- (and_then_pointwise _ _ _ IH).
    unfold touch_cached_posts, touch_cached_post.
    rewrite (touch_pointwise now (any_of (Some (u :: uris)))
               (fun p => same_text (Some (at_uri p)) u
                         || any_of (Some uris) p))
      by (intros p; reflexivity).
    apply touch_split.
    + intros p.
      destruct (same_text (Some (at_uri p)) u) eqn:Hu; [|reflexivity].
      cbn [andb].
      destruct (any_of (Some uris) p) eqn:Ha; [|reflexivity].
      exfalso. apply Hnot. apply any_of_listed in Ha.
      destruct u as [u|]; [|discriminate]. cbn [same_text] in Hu.
      apply String.eqb_eq in Hu. now subst u.
    + intros p. reflexivity.
Qed.

End Touching.

Lemma touch_cached_posts_ignores_repeats_witness :
  Cached.touch_cached_posts 2147483647 9
    (Some [Some (Cached.at_uri Sample.cached_one); None;
           Some (Cached.at_uri Sample.cached_one)]) Sample.cache
  = Cached.touch_cached_posts 2147483647 9
      (Some [Some (Cached.at_uri Sample.cached_one)]) Sample.cache.
Proof.
  apply (touch_cached_posts_ignores_repeats 2147483647 9
           [Some (Cached.at_uri Sample.cached_one); None;
            Some (Cached.at_uri Sample.cached_one)]
           [Some (Cached.at_uri Sample.cached_one)] Sample.cache).
  intros u. split.
  - intros [H|[H|[H|[]]]]; try discriminate H; left; exact H.
  - intros [H|[]]. left. exact H.
Defined.

Lemma touch_cached_posts_is_each_touch_witness :
  Cached.touch_cached_posts 2147483647 9
    (Some [Some (Cached.at_uri Sample.cached_two); None;
           Some (Cached.at_uri Sample.cached_one)]) Sample.cache
  = Cached.touch_each 2147483647 9
      [Some (Cached.at_uri Sample.cached_two); None;
       Some (Cached.at_uri Sample.cached_one)] Sample.cache.
Proof.
  apply (touch_cached_posts_is_each_touch 2147483647 9
           [Some (Cached.at_uri Sample.cached_two); None;
            Some (Cached.at_uri Sample.cached_one)] Sample.cache).
  constructor.
  - intros [H|[H|[]]]; discriminate H.
  - constructor.
    + intros [H|[]]. discriminate H.
    + constructor; [intros []|constructor].
Defined.

(** X24: the backfill of cached_profiles.description fills exactly the
    descriptions that were missing: a profile that had a description
    keeps it, one that had none gets its bio, nothing else changes, and
    running the statement a second time changes nothing more. *)
Theorem backfill_description_fills_what_is_missing (t : Cached.tables) :
  Cached.backfill_description (Cached.backfill_description t)
  = Cached.backfill_description t /\
  Cached.cached_posts (Cached.backfill_description t)
  = Cached.cached_posts t /\
  Cached.rowwise Cached.backfilled (Cached.cached_profiles t)
    (Cached.cached_profiles (Cached.backfill_description t)).
Proof.
  unfold Cached.backfill_description.
  cbn [Cached.cached_posts Cached.cached_profiles].
  split; [|split; [reflexivity|]].
  - f_equal. rewrite map_map. apply map_ext. intros f.
    destruct f as [d h [b|] [x|]]; reflexivity.
  - unfold Cached.rowwise.
    induction (Cached.cached_profiles t) as [|f rows IH]; cbn [map];
      constructor; [|exact IH].
    unfold Cached.backfilled.
    destruct f as [d h [b|] [x|]];
      cbn [Cached.did Cached.has_interaction Cached.bio
           Cached.description];
      repeat split; intros H; try reflexivity; try discriminate H;
      now exfalso.
Qed.

(** *** One record and one increment *)

Section Applied.

Variable E : env.
Hypothesis Haccept : accepts_new_keys E.

Lemma filter_nil_existsb {A} (p : A -> bool) (l : list A) :
  filter p l = [] -> existsb p l = false.
Proof.
  induction l as [|x l IH]; simpl; [reflexivity|].
  destruct (p x); [discriminate|exact IH].
Qed.

Lemma accepted r s :
  count_key (i_at_uri r) s = 0%nat ->
  constraints_ok E (federated_interactions s) r = true.
Proof.
  intros H. apply Haccept. apply filter_nil_existsb.
  now apply count_zero in H.
Qed.

Lemma absent k s :
  count_key k s = 0%nat -> maybeSingle (interactions_eq_at_uri k s) = None.
Proof. intros H. now rewrite (count_zero k s H). Qed.

Lemma not_local_false v :
  in_local_namespace v = true -> not_local v = Ok false.
Proof.
  unfold in_local_namespace, not_local, includes.
  destruct v as [ | | | |str|items| ]; intros H; try discriminate.
  - destruct str as [|c str]; [discriminate|].
    cbn [truthy negb String.eqb rbind]. now rewrite H.
  - cbn [truthy negb rbind]. now rewrite H.
Qed.

Lemma created_under_key kind r id user did reason p s :
  count_key (i_at_uri r) s = 0%nat ->
  interactions_eq_at_uri (i_at_uri r) (created E kind r id user did reason p s)
  = [r]
  /\ counter kind (created E kind r id user did reason p s)
     = bump id (counter kind s).
Proof.
  intros H. split; [|apply created_counter].
  unfold interactions_eq_at_uri.
  rewrite created_interactions, filter_added.
  apply count_zero in H. unfold interactions_eq_at_uri in H. rewrite H.
  unfold has_at_uri. now rewrite String.eqb_refl.
Qed.

Lemma single_found {A} (p : A -> bool) (l : list A) x :
  single (filter p l) = Some x -> In x l.
Proof.
  intros H. assert (In x (filter p l)) as Hin.
  { destruct (filter p l) as [|y [|z rest]]; try discriminate.
    inversion H. now left. }
  now apply filter_In in Hin.
Qed.

Lemma post_is_counted kind uri s target :
  kind <> follow ->
  single (posts_eq_at_uri uri s) = Some target ->
  In (post_id target) (map fst (counter kind s)).
Proof.
  intros Hk H. apply single_found in H.
  destruct kind; try congruence; unfold counter; rewrite map_map;
    cbn [fst]; now apply (in_map post_id).
Qed.

Lemma profile_is_counted subject s target :
  single (profiles_eq_did subject s) = Some target ->
  In (profile_id target) (map fst (counter follow s)).
Proof.
  intros H. apply single_found in H.
  unfold counter. rewrite map_map. cbn [fst].
  now apply (in_map profile_id).
Qed.

Lemma handleLikeEvent_applies did record rkey s target :
  let uri := oget (oget record "subject") "uri" in
  let k := interaction_uri did "app.bsky.feed.like" rkey in
  in_local_namespace uri = true ->
  single (posts_eq_at_uri uri s) = Some target ->
  count_key k s = 0%nat ->
  exec (handleLikeEvent E did (Str "create") record rkey) s
  = created E like
      (mkInteraction (Some (post_id target)) None like did k None)
      (post_id target) (post_user_id target) did "like"
      (Some (post_id target)) s.
Proof.
  intros uri k Hl Hs Hc.
  unfold handleLikeEvent, exec, bind, lift, gets, ret.
  change (is_str (Str "create") "create") with true. cbv iota beta zeta.
  fold uri k. rewrite (not_local_false uri Hl), Hs, (absent k s Hc).
  unfold insert_interaction.
  rewrite (accepted (mkInteraction (Some (post_id target)) None like did k
                       None) s Hc).
  reflexivity.
Qed.

Lemma handleRepostEvent_applies did record rkey s target :
  let uri := oget (oget record "subject") "uri" in
  let k := interaction_uri did "app.bsky.feed.repost" rkey in
  in_local_namespace uri = true ->
  single (posts_eq_at_uri uri s) = Some target ->
  count_key k s = 0%nat ->
  exec (handleRepostEvent E did (Str "create") record rkey) s
  = created E repost
      (mkInteraction (Some (post_id target)) None repost did k None)
      (post_id target) (post_user_id target) did "repost"
      (Some (post_id target)) s.
Proof.
  intros uri k Hl Hs Hc.
  unfold handleRepostEvent, exec, bind, lift, gets, ret.
  change (is_str (Str "create") "create") with true. cbv iota beta zeta.
  fold uri k. rewrite (not_local_false uri Hl), Hs, (absent k s Hc).
  unfold insert_interaction.
  rewrite (accepted (mkInteraction (Some (post_id target)) None repost did k
                       None) s Hc).
  reflexivity.
Qed.

Lemma handleFollowEvent_applies did record rkey s target :
  let subject := oget record "subject" in
  let k := interaction_uri did "app.bsky.graph.follow" rkey in
  truthy subject = true ->
  single (profiles_eq_did subject s) = Some target ->
  count_key k s = 0%nat ->
  exec (handleFollowEvent E did (Str "create") record rkey) s
  = created E follow
      (mkInteraction None (Some (profile_id target)) follow did k None)
      (profile_id target) (profile_id target) did "follow" None s.
Proof.
  intros subject k Ht Hs Hc.
  unfold handleFollowEvent, exec, bind, lift, gets, ret.
  change (is_str (Str "create") "create") with true. cbv iota beta zeta.
  fold subject k. rewrite Ht. cbn [negb]. rewrite Hs, (absent k s Hc).
  unfold insert_interaction.
  rewrite (accepted (mkInteraction None (Some (profile_id target)) follow did
                       k None) s Hc).
  reflexivity.
Qed.

Lemma osubstring_plain v n :
  plain_text v = true -> exists t, osubstring v n = Ok t.
Proof. destruct v; intros H; try discriminate; eexists; reflexivity. Qed.

Lemma mirror_applies ref key kind increment reason did record s target :
  (forall id, increment id = adjust kind incr id) ->
  in_local_namespace ref = true ->
  single (posts_eq_at_uri ref s) = Some target ->
  count_key key s = 0%nat ->
  nullish record = false ->
  plain_text (oget record "text") = true ->
  exists r,
    i_at_uri r = key /\ i_type r = kind /\ i_actor_did r = did
    /\ i_post_id r = Some (post_id target)
    /\ exec (mirror_post_reference E ref key kind increment reason did
               record) s
       = created E kind r (post_id target) (post_user_id target) did reason
           (Some (post_id target)) s.
Proof.
  intros Hinc Hl Hs Hc Hrec Htext.
  destruct (osubstring_plain _ 500 Htext) as [text Ht].
  exists (mkInteraction (Some (post_id target)) None kind did key
            (Some (text, oget record "createdAt"))).
  repeat (split; [reflexivity|]).
  unfold mirror_post_reference, exec, bind, lift, gets, ret.
  rewrite (oincludes_of_local ref Hl). cbn [negb].
  rewrite Hs, (absent key s Hc).
  rewrite !(get_oget record _ Hrec). cbn [rbind]. rewrite Ht.
  unfold insert_interaction.
  rewrite (accepted (mkInteraction (Some (post_id target)) None kind did key
                       (Some (text, oget record "createdAt"))) s Hc).
  cbn [negb]. rewrite Hinc. destruct kind; reflexivity.
Qed.

End Applied.

Section Returns.

Variable E : env.

Lemma getBlueskyProfile_returns did s :
  exists actor, fst (getBlueskyProfile E did s) = Ok actor.
Proof.
  unfold getBlueskyProfile, bind, gets.
  destruct (maybeSingle (cache_eq_did did s)) as [c|].
  - unfold now, ret. cbn [fst snd].
    destruct (clock E (ticks s) - c_cached_at c <? PROFILE_CACHE_TTL_MS);
      [now eexists|apply try_catch_null_ok].
  - unfold ret. apply try_catch_null_ok.
Qed.

Lemma createExternalNotification_returns user text reason p s :
  fst (createExternalNotification E user (Str text) reason p s) = Ok tt.
Proof.
  unfold createExternalNotification, bind.
  destruct (getBlueskyProfile_returns (Str text) s) as [actor Ha].
  destruct (getBlueskyProfile E (Str text) s) as [[a|e] s'];
    cbn [fst] in Ha; [|discriminate].
  destruct (truthy (oget a "handle")); reflexivity.
Qed.

(** The half of handlePostEvent for a reference ends without a throw when
    the actor and the text of the post are texts. *)
Lemma mirror_returns ref key kind increment reason text record s :
  (forall id s', fst (increment id s') = Ok tt) ->
  match ref with
  | Undefined | Null | Str _ | Arr _ => true
  | _ => false
  end = true ->
  (nullish ref = false -> nullish record = false) ->
  plain_text (oget record "text") = true ->
  fst (mirror_post_reference E ref key kind increment reason (Str text)
         record s) = Ok tt.
Proof.
  intros Hinc Href Hrec Htext.
  unfold mirror_post_reference, bind, lift, gets, ret.
  destruct (oincludes ref CANNECT_DOMAIN) as [[|]|e] eqn:Hi.
  - cbn [negb].
    assert (nullish record = false) as Hr.
    { apply Hrec. destruct ref; try discriminate; reflexivity. }
    destruct (single _) as [target|]; [|reflexivity].
    destruct (maybeSingle _); [reflexivity|].
    rewrite !(get_oget record _ Hr). cbn [rbind].
    destruct (osubstring_plain _ 500 Htext) as [t ->].
    unfold insert_interaction.
    destruct (constraints_ok _ _ _); [|reflexivity]. cbn [negb].
    pose proof (Hinc (post_id target)
                  (set_interactions
                     (fun t0 =>
                        (t0 ++ [mkInteraction (Some (post_id target)) None
                                  kind (Str text) key
                                  (Some (t, oget record "createdAt"))])%list)
                     s)) as H.
    destruct (increment _ _) as [[[]|e] s']; cbn [fst] in H;
      [|discriminate].
    apply createExternalNotification_returns.
  - reflexivity.
  - exfalso. unfold oincludes, includes in Hi.
    destruct ref; try discriminate.
Qed.

End Returns.

Section Exactly.

Variable E : env.
Hypothesis Haccept : accepts_new_keys E.

Lemma handlePostEvent_then_quote did record rkey s :
  let k := interaction_uri did "app.bsky.feed.post" rkey in
  nothing_or_created E quote (k ++ "#quote") did
    (exec (mirror_post_reference E
             (oget (oget (oget record "reply") "parent") "uri") k reply
             increment_post_replies "reply" did record) s)
    (exec (handlePostEvent E did (Str "create") record rkey) s).
Proof.
  intros k. unfold handlePostEvent.
  change (is_str (Str "create") "create") with true. cbv iota beta zeta.
  cbn [negb]. fold k.
  set (first := mirror_post_reference E _ k reply _ _ did record).
  set (second := mirror_post_reference E _ (k ++ "#quote") quote _ _ did record).
  unfold exec at 2. unfold bind.
  pose proof (mirror_quote E did record
                (oget (oget (oget record "embed") "record") "uri")
                (k ++ "#quote") (exec first s)) as Hq.
  fold second in Hq. unfold exec in *.
  destruct (first s) as [[[]|e] s']; simpl in *.
  - exact Hq.
  - left. reflexivity.
Qed.

Lemma handlePostEvent_second did record rkey s :
  let k := interaction_uri did "app.bsky.feed.post" rkey in
  let first :=
    mirror_post_reference E
      (oget (oget (oget record "reply") "parent") "uri") k reply
      increment_post_replies "reply" did record in
  fst (first s) = Ok tt ->
  exec (handlePostEvent E did (Str "create") record rkey) s
  = exec (mirror_post_reference E
            (oget (oget (oget record "embed") "record") "uri")
            (k ++ "#quote") quote increment_post_quotes "quote" did record)
      (exec first s).
Proof.
  intros k first Hok. unfold handlePostEvent.
  change (is_str (Str "create") "create") with true. cbv iota beta zeta.
  cbn [negb]. fold k. fold first. unfold exec, bind.
  destruct (first s) as [[[]|e] s']; cbn [fst snd] in *;
    [reflexivity|discriminate].
Qed.

Ltac decide_collection :=
  repeat match goal with
         | |- context [is_str (Str ?a) ?b] =>
             let v := eval vm_compute in (is_str (Str a) b) in
             change (is_str (Str a) b) with v
         end;
  cbv iota.

(** A create event whose reference resolves, whose key is new and which
    the table accepts adds the record under its key and increments the
    counter of the row the reference resolves to. *)
Lemma processEvent_applies kind event s id :
  is_create_of kind event = true ->
  count_key (event_key kind event) s = 0%nat ->
  names_local kind event = true ->
  well_formed kind event = true ->
  target_of kind event s = Some id ->
  let k := event_key kind event in
  let s1 := exec (processEvent E event) s in
  In id (map fst (counter kind s))
  /\ exists r,
       interactions_eq_at_uri k s1 = [r]
       /\ i_type r = kind
       /\ i_actor_did r = oget event "did"
       /\ counted_on r = Some id
       /\ counter kind s1 = bump id (counter kind s).
Proof.
  unfold is_create_of, event_collection, event_operation.
  intros H Hzero Hlocal Hwf Htarget. apply andb_prop in H.
  destruct H as [Hc Ho]. apply is_str_eq in Hc. apply is_str_eq in Ho.
  destruct event as [ | | | | | |fields]; try discriminate.
  unfold event_key, names_local, well_formed, target_of, reference,
    subject_uri, parent_uri, quoted_uri, event_record in *.
  cbn [oget] in *.
  destruct (lookup "commit" fields) as [ | | | | | |cf] eqn:Hcommit;
    try discriminate.
  cbn [oget] in *. cbv zeta. unfold exec.
  rewrite (processEvent_commit E fields (Obj cf) s Hcommit eq_refl).
  cbv zeta. cbn [oget]. rewrite Hc, Ho.
  set (did := lookup "did" fields) in *.
  set (record := lookup "record" cf) in *.
  set (rkey := lookup "rkey" cf) in *.
  destruct kind; cbn [collection_of] in *; decide_collection.
  - (* like *)
    destruct (single (posts_eq_at_uri _ s)) as [target|] eqn:Hs;
      [|discriminate].
    cbn [option_map] in Htarget. inversion Htarget; subst id.
    split; [eapply (post_is_counted like); [discriminate|exact Hs]|].
    pose proof (handleLikeEvent_applies E Haccept did record rkey s target
                  Hlocal Hs Hzero) as Happ.
    unfold exec in Happ. rewrite Happ.
    destruct (created_under_key E like
                (mkInteraction (Some (post_id target)) None like did
                   (interaction_uri did "app.bsky.feed.like" rkey) None)
                (post_id target) (post_user_id target) did "like" (Some (post_id target)) s Hzero)
      as [Hone Hbump].
    eexists. split; [exact Hone|]. split; [reflexivity|].
    split; [reflexivity|]. split; [reflexivity|exact Hbump].
  - (* repost *)
    destruct (single (posts_eq_at_uri _ s)) as [target|] eqn:Hs;
      [|discriminate].
    cbn [option_map] in Htarget. inversion Htarget; subst id.
    split; [eapply (post_is_counted repost); [discriminate|exact Hs]|].
    pose proof (handleRepostEvent_applies E Haccept did record rkey s target
                  Hlocal Hs Hzero) as Happ.
    unfold exec in Happ. rewrite Happ.
    destruct (created_under_key E repost
                (mkInteraction (Some (post_id target)) None repost did
                   (interaction_uri did "app.bsky.feed.repost" rkey) None)
                (post_id target) (post_user_id target) did "repost" (Some (post_id target)) s Hzero)
      as [Hone Hbump].
    eexists. split; [exact Hone|]. split; [reflexivity|].
    split; [reflexivity|]. split; [reflexivity|exact Hbump].
  - (* reply *)
    destruct (single (posts_eq_at_uri _ s)) as [target|] eqn:Hs;
      [|discriminate].
    cbn [option_map] in Htarget. inversion Htarget; subst id.
    split; [eapply (post_is_counted reply); [discriminate|exact Hs]|].
    assert (nullish record = false) as Hrec.
    { destruct record; try discriminate; reflexivity. }
    destruct (mirror_applies E Haccept
                (oget (oget (oget record "reply") "parent") "uri")
                (interaction_uri did "app.bsky.feed.post" rkey) reply
                increment_post_replies "reply" did record s target
                (fun _ => eq_refl) Hlocal Hs Hzero Hrec Hwf)
      as [r [Hk [Ht [Hd [Hp Happ]]]]].
    pose proof (handlePostEvent_then_quote did record rkey s) as Hq.
    cbv zeta in Hq. rewrite Happ in Hq.
    destruct (created_elsewhere E quote _ _ _ _
                (interaction_uri did "app.bsky.feed.post" rkey) reply Hq)
      as [Hi Hn];
      [intros Heq; symmetry in Heq; now apply quote_key_differs in Heq
      |discriminate|].
    unfold exec in Hi, Hn. rewrite <- Hk in Hzero.
    destruct (created_under_key E reply r (post_id target)
                (post_user_id target) did "reply" (Some (post_id target)) s
                Hzero) as [Hone Hbump].
    exists r. rewrite Hi, Hn. rewrite Hk in Hone.
    split; [exact Hone|]. split; [exact Ht|]. split; [exact Hd|].
    split; [|exact Hbump]. unfold counted_on. now rewrite Ht.
  - (* quote *)
    apply andb_prop in Hwf. destruct Hwf as [Hwf Hparent].
    apply andb_prop in Hwf. destruct Hwf as [Htext Hdid].
    destruct (single (posts_eq_at_uri _ s)) as [target|] eqn:Hs;
      [|discriminate].
    cbn [option_map] in Htarget. inversion Htarget; subst id.
    split; [eapply (post_is_counted quote); [discriminate|exact Hs]|].
    assert (nullish record = false) as Hrec.
    { destruct record; try discriminate; reflexivity. }
    destruct did as [ | | | |text| | ] eqn:Hdideq; try discriminate.
    set (k := interaction_uri (Str text) "app.bsky.feed.post" rkey) in *.
    set (first := mirror_post_reference E
                    (oget (oget (oget record "reply") "parent") "uri") k
                    reply increment_post_replies "reply" (Str text) record).
    assert (fst (first s) = Ok tt) as Hok.
    { apply mirror_returns; try assumption.
      - intros id s'. reflexivity.
      - intros _. exact Hrec. }
    pose proof (handlePostEvent_second (Str text) record rkey s Hok) as Hsnd.
    cbv zeta in Hsnd. fold k first in Hsnd. unfold exec in Hsnd at 1.
    rewrite Hsnd.
    pose proof (mirror_reply E (Str text) record
                  (oget (oget (oget record "reply") "parent") "uri") k s)
      as Hr.
    fold first in Hr.
    destruct (created_elsewhere E reply k (Str text) s (exec first s)
                (k ++ "#quote") quote Hr) as [Hi Hn];
      [apply quote_key_differs|discriminate|].
    assert (count_key (k ++ "#quote") (exec first s) = 0%nat) as Hzero'.
    { unfold count_key. now rewrite Hi. }
    assert (exists target',
               single (posts_eq_at_uri
                         (oget (oget (oget record "embed") "record") "uri")
                         (exec first s)) = Some target'
               /\ post_id target' = post_id target) as [target' [Hs' Hid]].
    { destruct Hr as [->|[_ [r [id [user [reason [p [_ ->]]]]]]]].
      - now exists target.
      - apply post_found_again; [discriminate|exact Hs]. }
    destruct (mirror_applies E Haccept
                (oget (oget (oget record "embed") "record") "uri")
                (k ++ "#quote") quote increment_post_quotes "quote"
                (Str text) record (exec first s) target'
                (fun _ => eq_refl) Hlocal Hs' Hzero' Hrec Htext)
      as [r [Hk [Ht [Hd [Hp Happ]]]]].
    rewrite Happ.
    rewrite <- Hk in Hzero'.
    destruct (created_under_key E quote r (post_id target')
                (post_user_id target') (Str text) "quote"
                (Some (post_id target')) (exec first s) Hzero')
      as [Hone Hbump].
    exists r. rewrite Hk in Hone.
    split; [exact Hone|]. split; [exact Ht|]. split; [exact Hd|].
    split.
    + unfold counted_on. rewrite Ht, Hp. now rewrite Hid.
    + rewrite Hbump, Hn, Hid. reflexivity.
  - (* follow *)
    destruct (single (profiles_eq_did _ s)) as [target|] eqn:Hs;
      [|discriminate].
    cbn [option_map] in Htarget. inversion Htarget; subst id.
    split; [eapply profile_is_counted; exact Hs|].
    pose proof (handleFollowEvent_applies E Haccept did record rkey s target
                  Hlocal Hs Hzero) as Happ.
    unfold exec in Happ. rewrite Happ.
    destruct (created_under_key E follow
                (mkInteraction None (Some (profile_id target)) follow did
                   (interaction_uri did "app.bsky.graph.follow" rkey) None)
                (profile_id target) (profile_id target) did "follow" None s Hzero)
      as [Hone Hbump].
    eexists. split; [exact Hone|]. split; [reflexivity|].
    split; [reflexivity|]. split; [reflexivity|exact Hbump].
Qed.

End Exactly.


